(** * Trading strategy and risk engine: a shallow embedding

    The engine (spike detector, arbitrage scanner, Kelly sizer, risk manager,
    backtesting engine) is TypeScript; every quantity it handles is a
    JavaScript [number], that is an IEEE 754 binary64 value.  The embedding
    keeps that: a [number] is a primitive [float], whose operations are the
    binary64 ones, so that [x / 0] is an infinity or a NaN, comparisons with
    NaN are false, and decimal literals denote the nearest double.

    State is passed explicitly: each class is a record of its fields and each
    method a function from the record to the new record and the result.  The
    wall clock is a sequence of readings, one per [Date.now()] or
    [new Date()], and [Math.random()] a sequence of draws; a component counts
    how many it has consumed.  A [Map] is a [gmap], an array a [list].
    Strings built by interpolation or by [toISOString] are kept as the values
    they print. *)

From Stdlib Require Import ZArith List Bool Lia Floats Ascii String Sorted.
From Stdlib Require QArith Lqa.
From stdpp Require Import gmap strings sorting.
Import ListNotations.

Set Default Proof Using "Type".

(* Decimal literals denote the nearest double, as in the source. *)
Set Warnings "-inexact-float".

(** ** JavaScript numbers *)

Module JS.

Abbreviation number := float.

(** [x ? a : b], [x || d], [!x] on a number: 0, -0 and NaN are falsy. *)
Definition truthy (x : number) : bool :=
  negb (is_nan x || (x =? 0)%float).

(** [x || d] *)
Definition or_else (x d : number) : number :=
  if truthy x then x else d.

(** [x || d] on an optional field. *)
Definition opt_or_else (x : option number) (d : number) : number :=
  match x with Some v => or_else v d | None => d end.

(** [Math.min(a, b)]: NaN if either is NaN, and -0 is below +0. *)
Definition Math_min (a b : number) : number :=
  if is_nan a || is_nan b then nan
  else if (a <? b)%float then a
  else if (b <? a)%float then b
  else if get_sign a then a else b.

(** [Math.max(a, b)]: NaN if either is NaN, and +0 is above -0. *)
Definition Math_max (a b : number) : number :=
  if is_nan a || is_nan b then nan
  else if (a <? b)%float then b
  else if (b <? a)%float then a
  else if get_sign a then b else a.

(** [Math.max(...xs)]: -Infinity on no argument. *)
Definition Math_max_list (xs : list number) : number :=
  fold_left Math_max xs neg_infinity.

(** An integer as a number (exact below 2^53, rounded to nearest beyond). *)
Definition of_Z (n : Z) : number :=
  SF2Prim (binary_normalize prec emax n 0 false).

(** [xs.length] as a number. *)
Definition of_nat (n : nat) : number := of_Z (Z.of_nat n).

(** [Math.round(x)]: the integer nearest to [x], ties towards +Infinity;
    [floor(x + 1/2)] computed exactly.  A double with a non-negative
    exponent is already an integer. *)
Definition Math_round (x : number) : number :=
  match Prim2SF x with
  | S754_finite s m e =>
      if (0 <=? e)%Z then x
      else
        let d := (2 ^ (- e))%Z in
        let v := if s then Z.neg m else Z.pos m in
        let n := ((2 * v + d) / (2 * d))%Z in
        if (n =? 0)%Z then (if s then (-0)%float else 0%float) else of_Z n
  | _ => x
  end.

(** [Math.pow(x, 2)], taken as the correctly rounded square. *)
Definition Math_pow2 (x : number) : number := (x * x)%float.

(** [xs.reduce((sum, p) => sum + f(p), 0)] *)
Definition sum_by {A} (f : A -> number) (xs : list A) : number :=
  fold_left (fun sum p => (sum + f p)%float) xs 0%float.

(** The order, as propositions; neither holds of a NaN. *)
Definition lt (x y : number) : Prop := (x <? y)%float = true.
Definition le (x y : number) : Prop := (x <=? y)%float = true.

End JS.

Import JS.

(** * The embedding *)

(** ** Kelly sizer (server/trading/kelly-criterion.ts) *)

Module Kelly.

Record KellyInput := {
  currentPrice : number;
  estimatedProbability : number;
  bankroll : number;
  kellyFraction : number;
  maxPositionPercent : number
}.

Inductive Recommendation := strong_buy | buy | hold | avoid.

Record KellyResult := {
  fraction : number;
  positionSize : number;
  edge : number;
  confidence : number;
  recommendation : Recommendation
}.

Definition calculateKelly (input : KellyInput) : KellyResult :=
  let edge := (estimatedProbability input - currentPrice input)%float in
  if (edge <=? 0)%float then
    {| fraction := 0; positionSize := 0; edge := edge; confidence := 0;
       recommendation := avoid |}
  else
    let rawKelly := (edge / currentPrice input)%float in
    let adjustedKelly := (rawKelly * kellyFraction input)%float in
    let cappedKelly := Math_min adjustedKelly (maxPositionPercent input) in
    let positionSize := (bankroll input * cappedKelly)%float in
    let confidence := Math_min (edge / 0.15)%float 1%float in
    let recommendation :=
      if (0.04 <=? cappedKelly)%float then strong_buy
      else if (0.02 <=? cappedKelly)%float then buy
      else if (0 <? cappedKelly)%float then hold
      else avoid in
    {| fraction := cappedKelly;
       positionSize := (Math_round (positionSize * 100) / 100)%float;
       edge := edge;
       confidence := confidence;
       recommendation := recommendation |}.

End Kelly.

(** ** Risk manager (server/trading/risk-manager.ts) *)

Module Risk.

Record RiskLimits := {
  maxTotalExposure : number;
  maxPositionSize : number;
  maxDailyLoss : number;
  maxCorrelation : number;
  stopLossDefault : number;
  takeProfitDefault : number
}.

(** [Partial<RiskLimits>]: a key may be missing. *)
Record PartialRiskLimits := {
  p_maxTotalExposure : option number;
  p_maxPositionSize : option number;
  p_maxDailyLoss : option number;
  p_maxCorrelation : option number;
  p_stopLossDefault : option number;
  p_takeProfitDefault : option number
}.

Record Position := {
  marketQuestion : string;
  entryPrice : number;
  currentPrice : number;
  quantity : number;
  stopLoss : option number;
  takeProfit : option number
}.

Record Trade := {
  trade_id : string;
  profitLoss : number
}.

Inductive RiskScore := low | medium | high | critical.

Record RiskMetrics := {
  totalExposure : number;
  exposurePercent : number;
  largestPosition : number;
  portfolioHeat : number;
  correlationRisk : number;
  valueAtRisk : number;
  maxDrawdown : number;
  currentDrawdown : number;
  riskScore : RiskScore
}.

Record Validation := {
  allowed : bool;
  reason : option string;
  adjustedSize : option number
}.

(** The fields of the class. *)
Record RiskManager := {
  limits : RiskLimits;
  dailyPnL : number;
  peakEquity : number;
  currentEquity : number;
  tradingHalted : bool
}.

(** [new RiskManager()] *)
Definition init : RiskManager := {|
  limits := {| maxTotalExposure := 0.25; maxPositionSize := 0.05;
               maxDailyLoss := 0.10; maxCorrelation := 0.7;
               stopLossDefault := 0.15; takeProfitDefault := 0.20 |};
  dailyPnL := 0;
  peakEquity := 0;
  currentEquity := 0;
  tradingHalted := false
|}.

Definition with_limits (s : RiskManager) (l : RiskLimits) : RiskManager :=
  {| limits := l; dailyPnL := dailyPnL s; peakEquity := peakEquity s;
     currentEquity := currentEquity s; tradingHalted := tradingHalted s |}.

(** [{ ...this.limits, ...limits }] *)
Definition setLimits (s : RiskManager) (p : PartialRiskLimits) : RiskManager :=
  let l := limits s in
  with_limits s
    {| maxTotalExposure := default (maxTotalExposure l) (p_maxTotalExposure p);
       maxPositionSize := default (maxPositionSize l) (p_maxPositionSize p);
       maxDailyLoss := default (maxDailyLoss l) (p_maxDailyLoss p);
       maxCorrelation := default (maxCorrelation l) (p_maxCorrelation p);
       stopLossDefault := default (stopLossDefault l) (p_stopLossDefault p);
       takeProfitDefault := default (takeProfitDefault l) (p_takeProfitDefault p) |}.

Definition getLimits (s : RiskManager) : RiskLimits := limits s.

Definition updateEquity (s : RiskManager) (equity : number) : RiskManager :=
  {| limits := limits s; dailyPnL := dailyPnL s;
     peakEquity := if (peakEquity s <? equity)%float then equity else peakEquity s;
     currentEquity := equity;
     tradingHalted := tradingHalted s |}.

Definition recordTrade (s : RiskManager) (trade : Trade) : RiskManager :=
  let dailyPnL' := (dailyPnL s + profitLoss trade)%float in
  {| limits := limits s; dailyPnL := dailyPnL';
     peakEquity := peakEquity s; currentEquity := currentEquity s;
     tradingHalted :=
       if (0 <? currentEquity s)%float
          && (maxDailyLoss (limits s) <=? abs dailyPnL' / currentEquity s)%float
       then true else tradingHalted s |}.

Definition resetDailyPnL (s : RiskManager) : RiskManager :=
  {| limits := limits s; dailyPnL := 0;
     peakEquity := peakEquity s; currentEquity := currentEquity s;
     tradingHalted := false |}.

Definition isTradingAllowed (s : RiskManager) : bool := negb (tradingHalted s).

Definition getDailyPnL (s : RiskManager) : number := dailyPnL s.

(** [entryPrice * quantity] *)
Definition positionValue (p : Position) : number :=
  (entryPrice p * quantity p)%float.

Definition calculatePortfolioHeat (s : RiskManager) (positions : list Position)
    (bankroll : number) : number :=
  if (length positions =? 0)%nat || (bankroll =? 0)%float then 0%float
  else
    let heat :=
      fold_left (fun heat pos =>
        let riskAmount :=
          (positionValue pos *
           match stopLoss pos with
           | Some sl => if truthy sl then (entryPrice pos - sl) / entryPrice pos
                        else stopLossDefault (limits s)
           | None => stopLossDefault (limits s)
           end)%float in
        (heat + riskAmount / bankroll)%float) positions 0%float in
    (heat * 100)%float.

(** Text.  A string of the embedding is a list of 8-bit characters and
    stands for the JavaScript string of the same code units.  It is ASCII
    when every character is below 128.  On ASCII text [toLowerCase], [\s]
    and [[a-z0-9]] are the functions given here; outside ASCII JavaScript
    lower-cases more characters (U+212A to k, for one) and takes more of them
    as space (U+00A0, U+2028, ...), which the embedding does not follow: what
    is proved of [classifyMarket], [extractKeywords] and the functions built
    on them is stated for ASCII text. *)
Definition is_ascii (c : ascii) : bool :=
  (Ascii.nat_of_ascii c <? 128)%nat.

Definition ascii_text (s : string) : bool :=
  forallb is_ascii (list_ascii_of_string s).

(** [s.toLowerCase()], on ASCII text: the letters A to Z. *)
Definition lower_ascii (c : ascii) : ascii :=
  let n := Ascii.nat_of_ascii c in
  if (65 <=? n)%nat && (n <=? 90)%nat then Ascii.ascii_of_nat (n + 32) else c.

Fixpoint toLowerCase (s : string) : string :=
  match s with
  | EmptyString => EmptyString
  | String c r => String (lower_ascii c) (toLowerCase r)
  end.

(** [s.includes(w)] *)
Fixpoint includes (s w : string) : bool :=
  String.prefix w s ||
  match s with
  | EmptyString => false
  | String _ r => includes r w
  end.

Definition classifyMarket (question : string) : string :=
  let q := toLowerCase question in
  if includes q "bitcoin" || includes q "btc" || includes q "ethereum"
     || includes q "crypto" then "crypto"
  else if includes q "trump" || includes q "biden" || includes q "election"
     || includes q "president" then "politics"
  else if includes q "stock" || includes q "nvidia" || includes q "tesla"
     || includes q "apple" then "stocks"
  else if includes q "nfl" || includes q "nba" || includes q "super bowl"
     then "sports"
  else "other".

Definition estimateCorrelationRisk (positions : list Position) : number :=
  if (length positions <? 2)%nat then 0%float
  else
    let marketTypes : gmap string number :=
      fold_left (fun (types : gmap string number) pos =>
        let type := classifyMarket (marketQuestion pos) in
        <[ type := (opt_or_else (types !! type) 0 + 1)%float ]> types)
        positions ∅ in
    let maxConcentration := Math_max_list (snd <$> map_to_list marketTypes) in
    (maxConcentration / of_nat (length positions) * 100)%float.

(** [(p.currentPrice - p.entryPrice) / p.entryPrice] *)
Definition unrealizedReturn (p : Position) : number :=
  ((currentPrice p - entryPrice p) / entryPrice p)%float.

Definition estimateStdDev (positions : list Position) : number :=
  if (length positions =? 0)%nat then 0.1%float
  else
    let returns := map unrealizedReturn positions in
    let mean := (fold_left (fun a b => a + b) returns 0 / of_nat (length returns))%float in
    let variance :=
      (fold_left (fun sum r => sum + Math_pow2 (r - mean)) returns 0
       / of_nat (length returns))%float in
    or_else (sqrt variance) 0.1.

Definition calculateMetrics (s : RiskManager) (positions : list Position)
    (bankroll : number) : RiskMetrics :=
  let totalExposure := sum_by positionValue positions in
  let exposurePercent :=
    if (0 <? bankroll)%float then (totalExposure / bankroll)%float else 0%float in
  let largestPosition :=
    if (0 <? length positions)%nat
    then Math_max_list (map positionValue positions) else 0%float in
  let currentDrawdown :=
    if (0 <? peakEquity s)%float
    then ((peakEquity s - currentEquity s) / peakEquity s)%float else 0%float in
  let portfolioHeat := calculatePortfolioHeat s positions bankroll in
  let correlationRisk := estimateCorrelationRisk positions in
  let stdDev := estimateStdDev positions in
  let valueAtRisk := (totalExposure * stdDev * 1.65)%float in
  let riskScore :=
    if (0.4 <? exposurePercent)%float || (0.2 <? currentDrawdown)%float then critical
    else if (0.25 <? exposurePercent)%float || (0.1 <? currentDrawdown)%float then high
    else if (0.15 <? exposurePercent)%float || (0.05 <? currentDrawdown)%float then medium
    else low in
  {| totalExposure := totalExposure;
     exposurePercent := (exposurePercent * 100)%float;
     largestPosition := largestPosition;
     portfolioHeat := portfolioHeat;
     correlationRisk := correlationRisk;
     valueAtRisk := valueAtRisk;
     maxDrawdown := (currentDrawdown * 100)%float;
     currentDrawdown := (currentDrawdown * 100)%float;
     riskScore := riskScore |}.

Definition validatePosition (s : RiskManager) (positionSize bankroll : number)
    (existingPositions : list Position) : Validation :=
  if tradingHalted s then
    {| allowed := false;
       reason := Some "Trading halted due to daily loss limit";
       adjustedSize := None |}
  else
    let currentExposure := sum_by positionValue existingPositions in
    let newExposure := (currentExposure + positionSize)%float in
    let exposurePercent := (newExposure / bankroll)%float in
    if (maxTotalExposure (limits s) <? exposurePercent)%float then
      let maxAllowed :=
        (maxTotalExposure (limits s) * bankroll - currentExposure)%float in
      if (maxAllowed <=? 0)%float then
        {| allowed := false;
           reason := Some "Maximum exposure limit reached";
           adjustedSize := None |}
      else
        {| allowed := true;
           reason := Some "Position size reduced to stay within exposure limits";
           adjustedSize := Some maxAllowed |}
    else
      let positionPercent := (positionSize / bankroll)%float in
      if (maxPositionSize (limits s) <? positionPercent)%float then
        {| allowed := true;
           reason := Some "Position size reduced to maximum allowed";
           adjustedSize := Some (bankroll * maxPositionSize (limits s))%float |}
      else
        {| allowed := true; reason := None; adjustedSize := None |}.

(** A call that changes the manager. *)
Inductive Call :=
| UpdateEquity (equity : number)
| RecordTrade (trade : Trade)
| ResetDailyPnL
| SetLimits (p : PartialRiskLimits).

Definition step (s : RiskManager) (c : Call) : RiskManager :=
  match c with
  | UpdateEquity e => updateEquity s e
  | RecordTrade t => recordTrade s t
  | ResetDailyPnL => resetDailyPnL s
  | SetLimits p => setLimits s p
  end.

Definition run (s : RiskManager) (cs : list Call) : RiskManager :=
  fold_left step cs s.

End Risk.

(** ** Shared schema (shared/schema.ts) and the wall clock *)

Module Schema.

(** A market snapshot; the fields the engine reads. *)
Record Market := {
  id : string;
  question : string;
  outcomes : list string;
  outcomePrices : list number;
  volume : number
}.

(** [market.outcomePrices[i]]; a missing entry is [undefined], which every
    formula that reads it turns into NaN. *)
Definition outcomePrice (m : Market) (i : nat) : number :=
  nth i (outcomePrices m) nan.

(** The wall clock: [clock k] is what the [k]-th reading ([Date.now()] or
    [new Date()]) returns, in milliseconds.  Each component counts its own
    readings. *)
Definition Clock := nat -> number.

(** Time does not run backwards. *)
Definition monotone (clock : Clock) : Prop :=
  forall i j : nat, (i <= j)%nat -> le (clock i) (clock j).

(** [xs.slice(-k)] for [0 < k]: the last [k] elements. *)
Definition slice_last {A} (k : nat) (xs : list A) : list A :=
  skipn (length xs - k) xs.

End Schema.

(** ** Spike detector (server/trading/spike-detector.ts) *)

Module Spike.
Import Schema.

Record PricePoint := {
  marketId : string;
  price : number;
  timestamp : number;
  pp_volume : option number
}.

Record SpikeSettings := {
  spikeThreshold : number;
  cooldownMs : number
}.

Inductive Direction := up | down.
Inductive SuggestedAction := buy_yes | buy_no | wait.

(** [id] holds the two values interpolated in [`spike-${marketId}-${Date.now()}`],
    [detectedAt] the instant that [toISOString] prints. *)
Record SpikeEvent := {
  ev_id : string * number;
  ev_marketId : string;
  marketQuestion : string;
  priceChange : number;
  priceChangePercent : number;
  direction : Direction;
  previousPrice : number;
  currentPrice : number;
  ev_volume : number;
  detectedAt : number;
  confidence : number;
  suggestedAction : SuggestedAction
}.

(** The fields of the class; the window size is a count of points. *)
Record SpikeDetector := {
  defaultWindowSize : nat;
  priceHistory : gmap string (list PricePoint);
  cooldowns : gmap string number;
  detectedSpikes : list SpikeEvent;
  clock_reads : nat
}.

(** [new SpikeDetector(defaultWindowSize)]; 30 when omitted. *)
Definition create (defaultWindowSize : nat) : SpikeDetector :=
  {| defaultWindowSize := defaultWindowSize; priceHistory := ∅;
     cooldowns := ∅; detectedSpikes := []; clock_reads := 0 |}.

Definition init : SpikeDetector := create 30.

Section WithClock.
Variable clock : Clock.

Definition recordPrice (s : SpikeDetector) (marketId : string) (price : number)
    (volume : option number) : SpikeDetector :=
  let history := default [] (priceHistory s !! marketId) in
  let history :=
    history ++ [ {| marketId := marketId; price := price;
                    timestamp := clock (clock_reads s);
                    pp_volume := volume |} ] in
  let history :=
    if (defaultWindowSize s <? length history)%nat then tail history
    else history in
  {| defaultWindowSize := defaultWindowSize s;
     priceHistory := <[ marketId := history ]> (priceHistory s);
     cooldowns := cooldowns s;
     detectedSpikes := detectedSpikes s;
     clock_reads := S (clock_reads s) |}.

(** The state after [n] more clock readings and nothing else. *)
Definition after_reads (s : SpikeDetector) (n : nat) : SpikeDetector :=
  {| defaultWindowSize := defaultWindowSize s;
     priceHistory := priceHistory s;
     cooldowns := cooldowns s;
     detectedSpikes := detectedSpikes s;
     clock_reads := n + clock_reads s |}.

(** [history[history.length - 1]]; the caller has checked the length. *)
Definition newest (history : list PricePoint) : PricePoint :=
  List.last history
    {| marketId := ""; price := nan; timestamp := nan; pp_volume := None |}.

(** The average of the recent points before the newest. *)
Definition referencePrice (history : list PricePoint) : number :=
  let recentPrices := slice_last (Nat.min 5 (length history)) history in
  (sum_by price (removelast recentPrices)
   / (of_nat (length recentPrices) - 1))%float.

Definition detectSpike (s : SpikeDetector) (marketId : string)
    (settings : SpikeSettings) : option SpikeEvent * SpikeDetector :=
  match priceHistory s !! marketId with
  | None => (None, s)
  | Some history =>
    if (length history <? 3)%nat then (None, s)
    else
      let cooldownEnd := opt_or_else (cooldowns s !! marketId) 0 in
      if (clock (clock_reads s) <? cooldownEnd)%float then (None, after_reads s 1)
      else
        let currentPrice := price (newest history) in
        let avgRecentPrice := referencePrice history in
        let priceChange := (currentPrice - avgRecentPrice)%float in
        let priceChangePercent := abs (priceChange / avgRecentPrice) in
        if (priceChangePercent <? spikeThreshold settings)%float
        then (None, after_reads s 1)
        else
          let direction := if (0 <? priceChange)%float then up else down in
          let confidence :=
            Math_min (priceChangePercent / (spikeThreshold settings * 2))%float 1 in
          let suggestedAction :=
            match direction with
            | up => if (0.6 <? confidence)%float then buy_no else wait
            | down => if (0.6 <? confidence)%float then buy_yes else wait
            end in
          let spike :=
            {| ev_id := (marketId, clock (1 + clock_reads s));
               ev_marketId := marketId;
               marketQuestion := "";
               priceChange := priceChange;
               priceChangePercent := priceChangePercent;
               direction := direction;
               previousPrice := avgRecentPrice;
               currentPrice := currentPrice;
               ev_volume := opt_or_else (pp_volume (newest history)) 0;
               detectedAt := clock (2 + clock_reads s);
               confidence := confidence;
               suggestedAction := suggestedAction |} in
          let spikes := detectedSpikes s ++ [spike] in
          let spikes := if (100 <? length spikes)%nat then tail spikes else spikes in
          (Some spike,
           {| defaultWindowSize := defaultWindowSize s;
              priceHistory := priceHistory s;
              cooldowns :=
                <[ marketId := (clock (3 + clock_reads s)%nat + cooldownMs settings)%float ]>
                  (cooldowns s);
              detectedSpikes := spikes;
              clock_reads := 4 + clock_reads s |})
  end.

Definition with_question (spike : SpikeEvent) (q : string) : SpikeEvent :=
  {| ev_id := ev_id spike; ev_marketId := ev_marketId spike;
     marketQuestion := q;
     priceChange := priceChange spike;
     priceChangePercent := priceChangePercent spike;
     direction := direction spike; previousPrice := previousPrice spike;
     currentPrice := currentPrice spike; ev_volume := ev_volume spike;
     detectedAt := detectedAt spike; confidence := confidence spike;
     suggestedAction := suggestedAction spike |}.

(** [spike.marketQuestion = q] on the event just returned: the same object
    is the newest entry of [detectedSpikes]. *)
Definition set_question (s : SpikeDetector) (spike : SpikeEvent) (q : string)
    : SpikeDetector :=
  {| defaultWindowSize := defaultWindowSize s;
     priceHistory := priceHistory s;
     cooldowns := cooldowns s;
     detectedSpikes := removelast (detectedSpikes s) ++ [with_question spike q];
     clock_reads := clock_reads s |}.

Fixpoint analyzeMarkets_loop (s : SpikeDetector) (markets : list Market)
    (settings : SpikeSettings) (spikes : list SpikeEvent)
    : list SpikeEvent * SpikeDetector :=
  match markets with
  | [] => (spikes, s)
  | market :: rest =>
      let yesPrice := outcomePrice market 0 in
      let s := recordPrice s (id market) yesPrice (Some (volume market)) in
      match detectSpike s (id market) settings with
      | (Some spike, s) =>
          analyzeMarkets_loop (set_question s spike (question market)) rest
            settings (spikes ++ [with_question spike (question market)])
      | (None, s) => analyzeMarkets_loop s rest settings spikes
      end
  end.

Definition analyzeMarkets (s : SpikeDetector) (markets : list Market)
    (settings : SpikeSettings) : list SpikeEvent * SpikeDetector :=
  analyzeMarkets_loop s markets settings [].

(** [getRecentSpikes(limit)] for [0 < limit]. *)
Definition getRecentSpikes (s : SpikeDetector) (limit : nat) : list SpikeEvent :=
  rev (slice_last limit (detectedSpikes s)).

Definition getPriceHistory (s : SpikeDetector) (marketId : string)
    : list PricePoint :=
  default [] (priceHistory s !! marketId).

Definition clearHistory (s : SpikeDetector) : SpikeDetector :=
  {| defaultWindowSize := defaultWindowSize s; priceHistory := ∅;
     cooldowns := ∅; detectedSpikes := []; clock_reads := clock_reads s |}.

(** A call that changes the detector.  [analyzeMarkets] is, market by
    market, a [recordPrice] followed by a [detectSpike]. *)
Inductive Call :=
| RecordPrice (marketId : string) (price : number) (volume : option number)
| DetectSpike (marketId : string) (settings : SpikeSettings)
| ClearHistory.

Definition step (s : SpikeDetector) (c : Call) : SpikeDetector :=
  match c with
  | RecordPrice m p v => recordPrice s m p v
  | DetectSpike m st => snd (detectSpike s m st)
  | ClearHistory => clearHistory s
  end.

Definition run (s : SpikeDetector) (cs : list Call) : SpikeDetector :=
  fold_left step cs s.

End WithClock.

End Spike.

(** ** Arbitrage scanner (server/trading/arbitrage-scanner.ts) *)

Module Arbitrage.
Import Schema.

Inductive OpportunityType := binary | multi_market | cross_platform.
Inductive Status := active | expired | executed.

Record Leg := {
  leg_id : string;
  leg_question : string;
  leg_price : number;
  platform : string
}.

(** [id] holds the two values interpolated in [`arb-${market.id}-${Date.now()}`],
    [detectedAt] the instant that [toISOString] prints and that
    [new Date(o.detectedAt).getTime()] reads back. *)
Record ArbitrageOpportunity := {
  opp_id : string * number;
  type : OpportunityType;
  market1 : Leg;
  market2 : Leg;
  totalCost : number;
  guaranteedPayout : number;
  profit : number;
  profitPercent : number;
  detectedAt : number;
  status : Status
}.

Record ArbitrageScanner := {
  opportunities : list ArbitrageOpportunity;
  clock_reads : nat
}.

Definition init : ArbitrageScanner :=
  {| opportunities := []; clock_reads := 0 |}.

Definition TRANSACTION_FEE : number := 0.02.

Section WithClock.
Variable clock : Clock.

(** The body of the loop over the markets; [k] counts the clock readings. *)
Fixpoint scan_markets (k : nat) (markets : list Market)
    (newOpportunities : list ArbitrageOpportunity)
    : list ArbitrageOpportunity * nat :=
  match markets with
  | [] => (newOpportunities, k)
  | market :: rest =>
      if negb (length (outcomes market) =? 2)%nat
      then scan_markets k rest newOpportunities
      else
        let yesPrice := outcomePrice market 0 in
        let noPrice := outcomePrice market 1 in
        let totalCost := (yesPrice + noPrice)%float in
        let netCost := (totalCost + TRANSACTION_FEE)%float in
        if (netCost <? 1)%float then
          let profit := (1 - netCost)%float in
          let profitPercent := (profit / netCost * 100)%float in
          let opportunity :=
            {| opp_id := (id market, clock k);
               type := binary;
               market1 := {| leg_id := id market;
                             leg_question := question market;
                             leg_price := yesPrice;
                             platform := "polymarket" |};
               market2 := {| leg_id := id market;
                             leg_question := question market ++ " (NO)";
                             leg_price := noPrice;
                             platform := "polymarket" |};
               totalCost := netCost;
               guaranteedPayout := 1;
               profit := profit;
               profitPercent := profitPercent;
               detectedAt := clock (S k);
               status := active |} in
          scan_markets (2 + k) rest (newOpportunities ++ [opportunity])
        else scan_markets k rest newOpportunities
  end.

(** [this.opportunities.filter(o => Date.now() - new Date(o.detectedAt).getTime() < 300000)]:
    one clock reading per opportunity. *)
Fixpoint unexpired (k : nat) (os : list ArbitrageOpportunity)
    : list ArbitrageOpportunity * nat :=
  match os with
  | [] => ([], k)
  | o :: rest =>
      let keep := (clock k - detectedAt o <? 300000)%float in
      let '(kept, k') := unexpired (S k) rest in
      (if keep then o :: kept else kept, k')
  end.

Definition scanBinaryArbitrage (s : ArbitrageScanner) (markets : list Market)
    : list ArbitrageOpportunity * ArbitrageScanner :=
  let '(newOpportunities, k) := scan_markets (clock_reads s) markets [] in
  let '(kept, k') := unexpired k (opportunities s) in
  (newOpportunities,
   {| opportunities := firstn 50 (newOpportunities ++ kept);
      clock_reads := k' |}).

End WithClock.

Definition is_active (o : ArbitrageOpportunity) : bool :=
  match status o with active => true | _ => false end.

Definition getActiveOpportunities (s : ArbitrageScanner)
    : list ArbitrageOpportunity :=
  List.filter is_active (opportunities s).

Definition with_status (o : ArbitrageOpportunity) (st : Status)
    : ArbitrageOpportunity :=
  {| opp_id := opp_id o; type := type o; market1 := market1 o;
     market2 := market2 o; totalCost := totalCost o;
     guaranteedPayout := guaranteedPayout o; profit := profit o;
     profitPercent := profitPercent o; detectedAt := detectedAt o;
     status := st |}.

(** [markExecuted(opportunityId)]: the first opportunity with that id, if
    there is one, becomes executed. *)
Fixpoint mark_first (i : string * number) (os : list ArbitrageOpportunity)
    : list ArbitrageOpportunity :=
  match os with
  | [] => []
  | o :: rest =>
      if String.eqb (fst (opp_id o)) (fst i)
         && Leibniz.eqb (snd (opp_id o)) (snd i)
      then with_status o executed :: rest
      else o :: mark_first i rest
  end.

Definition markExecuted (s : ArbitrageScanner) (opportunityId : string * number)
    : ArbitrageScanner :=
  {| opportunities := mark_first opportunityId (opportunities s);
     clock_reads := clock_reads s |}.

End Arbitrage.

(** ** Backtesting engine (server/trading/kelly-criterion.ts, third part) *)

Module Backtest.
Import Schema.

Inductive Strategy := arbitrage | spike | statistical | kelly.

(** [settings: Record<string, any>]: the keys the simulators read, each a
    number when present. *)
Record Settings := {
  positionPercent : option number;
  spikeThreshold : option number;
  minProfit : option number;
  kellyFraction : option number
}.

Record BacktestConfig := {
  strategy : Strategy;
  startDate : string;
  endDate : string;
  initialCapital : number;
  settings : Settings
}.

Inductive Side := YES | NO.

(** Dates are kept as the instants that [toISOString] prints. *)
Record BacktestTrade := {
  entryDate : number;
  exitDate : number;
  marketId : string;
  side : Side;
  entryPrice : number;
  exitPrice : number;
  quantity : number;
  profitLoss : number;
  profitLossPercent : number
}.

Record EquityPoint := {
  date : number;
  equity : number
}.

Record BacktestResult := {
  result_id : number;
  config : BacktestConfig;
  totalReturn : number;
  totalReturnPercent : number;
  maxDrawdown : number;
  sharpeRatio : number;
  winRate : number;
  totalTrades : number;
  profitFactor : number;
  equityCurve : list EquityPoint;
  trades : list BacktestTrade;
  runAt : number
}.

(** How many clock readings and [Math.random()] draws have been made. *)
Record Ticks := {
  reads : nat;
  draws : nat
}.

Record BacktestingEngine := {
  results : list BacktestResult;
  ticks : Ticks
}.

Definition init : BacktestingEngine :=
  {| results := []; ticks := {| reads := 0; draws := 0 |} |}.

Section WithEnvironment.
Variable clock : Clock.
(** [random k] is what the [k]-th call of [Math.random()] returns. *)
Variable random : nat -> number.

Definition read2 (t : Ticks) : Ticks :=
  {| reads := 2 + reads t; draws := draws t |}.

Fixpoint simulateSpikeTrades_loop (prevMarkets currMarkets : list Market)
    (positionSize spikeThreshold : number) (t : Ticks)
    (trades : list BacktestTrade) : list BacktestTrade * Ticks :=
  match currMarkets with
  | [] => (trades, t)
  | curr :: rest =>
      match List.find (fun m => String.eqb (id m) (id curr)) prevMarkets with
      | None =>
          simulateSpikeTrades_loop prevMarkets rest positionSize spikeThreshold
            t trades
      | Some prev =>
          let priceChange := abs (outcomePrice curr 0 - outcomePrice prev 0) in
          let priceChangePercent := (priceChange / outcomePrice prev 0)%float in
          if (spikeThreshold <? priceChangePercent)%float then
            let rose := (outcomePrice prev 0 <? outcomePrice curr 0)%float in
            let entryPrice := outcomePrice curr 0 in
            let reversionAmount := (priceChange * 0.5)%float in
            let exitPrice :=
              if rose then (entryPrice - reversionAmount)%float
              else (entryPrice + reversionAmount)%float in
            let quantity := (positionSize / entryPrice)%float in
            let profitLoss :=
              (quantity * (exitPrice - entryPrice)
               * (if rose then -1 else 1))%float in
            let trade :=
              {| entryDate := clock (reads t);
                 exitDate := clock (S (reads t));
                 marketId := id curr;
                 side := if rose then NO else YES;
                 entryPrice := entryPrice;
                 exitPrice := exitPrice;
                 quantity := quantity;
                 profitLoss := profitLoss;
                 profitLossPercent := (profitLoss / positionSize * 100)%float |} in
            simulateSpikeTrades_loop prevMarkets rest positionSize
              spikeThreshold (read2 t) (trades ++ [trade])
          else
            simulateSpikeTrades_loop prevMarkets rest positionSize
              spikeThreshold t trades
      end
  end.

Definition simulateSpikeTrades (prevMarkets currMarkets : list Market)
    (positionSize : number) (settings : Settings) (t : Ticks)
    : list BacktestTrade * Ticks :=
  let spikeThreshold := opt_or_else (spikeThreshold settings) 0.02 in
  simulateSpikeTrades_loop prevMarkets currMarkets positionSize spikeThreshold
    t [].

Fixpoint simulateArbitrageTrades_loop (markets : list Market)
    (positionSize minProfit : number) (t : Ticks)
    (trades : list BacktestTrade) : list BacktestTrade * Ticks :=
  match markets with
  | [] => (trades, t)
  | market :: rest =>
      let totalCost := (outcomePrice market 0 + outcomePrice market 1)%float in
      if (totalCost <? 1 - minProfit)%float then
        let profit := ((1 - totalCost) * positionSize)%float in
        let trade :=
          {| entryDate := clock (reads t);
             exitDate := clock (S (reads t));
             marketId := id market;
             side := YES;
             entryPrice := totalCost;
             exitPrice := 1;
             quantity := (positionSize / totalCost)%float;
             profitLoss := profit;
             profitLossPercent := ((1 - totalCost) / totalCost * 100)%float |} in
        simulateArbitrageTrades_loop rest positionSize minProfit (read2 t)
          (trades ++ [trade])
      else simulateArbitrageTrades_loop rest positionSize minProfit t trades
  end.

Definition simulateArbitrageTrades (markets : list Market)
    (positionSize : number) (settings : Settings) (t : Ticks)
    : list BacktestTrade * Ticks :=
  let minProfit := opt_or_else (minProfit settings) 0.02 in
  simulateArbitrageTrades_loop markets positionSize minProfit t [].

Fixpoint simulateKellyTrades_loop (currMarkets : list Market)
    (equity kellyFraction : number) (t : Ticks)
    (trades : list BacktestTrade) : list BacktestTrade * Ticks :=
  match currMarkets with
  | [] => (trades, t)
  | curr :: rest =>
      let estimatedProb := (0.5 + (random (draws t) - 0.5) * 0.3)%float in
      let t := {| reads := reads t; draws := S (draws t) |} in
      let currentPrice := outcomePrice curr 0 in
      let edge := (estimatedProb - currentPrice)%float in
      if (0.05 <? edge)%float then
        let fraction := Math_min (edge / currentPrice * kellyFraction)%float 0.05 in
        let positionSize := (equity * fraction)%float in
        let outcomeWin := (random (draws t) <? estimatedProb)%float in
        let t := {| reads := reads t; draws := S (draws t) |} in
        let profitLoss :=
          if outcomeWin then (positionSize * (1 / currentPrice - 1))%float
          else (- positionSize)%float in
        let trade :=
          {| entryDate := clock (reads t);
             exitDate := clock (S (reads t));
             marketId := id curr;
             side := YES;
             entryPrice := currentPrice;
             exitPrice := if outcomeWin then 1 else 0;
             quantity := (positionSize / currentPrice)%float;
             profitLoss := profitLoss;
             profitLossPercent := (profitLoss / positionSize * 100)%float |} in
        simulateKellyTrades_loop rest equity kellyFraction (read2 t)
          (trades ++ [trade])
      else simulateKellyTrades_loop rest equity kellyFraction t trades
  end.

Definition simulateKellyTrades (prevMarkets currMarkets : list Market)
    (equity : number) (settings : Settings) (t : Ticks)
    : list BacktestTrade * Ticks :=
  let kellyFraction := opt_or_else (kellyFraction settings) 0.5 in
  simulateKellyTrades_loop currMarkets equity kellyFraction t [].

Definition simulateTrades (config : BacktestConfig)
    (prevMarkets currMarkets : list Market) (equity : number) (t : Ticks)
    : list BacktestTrade * Ticks :=
  let positionSize :=
    (equity * opt_or_else (positionPercent (settings config)) 0.02)%float in
  match strategy config with
  | spike =>
      simulateSpikeTrades prevMarkets currMarkets positionSize (settings config) t
  | arbitrage =>
      simulateArbitrageTrades currMarkets positionSize (settings config) t
  | kelly =>
      simulateKellyTrades prevMarkets currMarkets equity (settings config) t
  | statistical => ([], t)
  end.

(** The variables of the loop of [runBacktest]. *)
Record Loop := {
  l_trades : list BacktestTrade;
  l_equity : number;
  l_equityCurve : list EquityPoint;
  l_peakEquity : number;
  l_maxDrawdown : number;
  l_ticks : Ticks
}.

(** The body of the loop, for day [i]. *)
Definition day (config : BacktestConfig) (historicalData : list (list Market))
    (st : Loop) (i : nat) : Loop :=
  let prevMarkets := nth (i - 1) historicalData [] in
  let currMarkets := nth i historicalData [] in
  let t := l_ticks st in
  let date :=
    (clock (reads t) - of_nat (length historicalData - i) * 86400000)%float in
  let t := {| reads := S (reads t); draws := draws t |} in
  let '(dayTrades, t) :=
    simulateTrades config prevMarkets currMarkets (l_equity st) t in
  let equity :=
    fold_left (fun equity trade => (equity + profitLoss trade)%float)
      dayTrades (l_equity st) in
  let peakEquity :=
    if (l_peakEquity st <? equity)%float then equity else l_peakEquity st in
  let currentDrawdown := ((peakEquity - equity) / peakEquity)%float in
  {| l_trades := l_trades st ++ dayTrades;
     l_equity := equity;
     l_equityCurve := l_equityCurve st ++ [ {| date := date; equity := equity |} ];
     l_peakEquity := peakEquity;
     l_maxDrawdown :=
       if (l_maxDrawdown st <? currentDrawdown)%float then currentDrawdown
       else l_maxDrawdown st;
     l_ticks := t |}.

(** The loop variables before the first day. *)
Definition start (config : BacktestConfig) (t : Ticks) : Loop :=
  {| l_trades := []; l_equity := initialCapital config; l_equityCurve := [];
     l_peakEquity := initialCapital config; l_maxDrawdown := 0; l_ticks := t |}.

(** The loop variables after days [1 .. n]. *)
Definition simulate (config : BacktestConfig)
    (historicalData : list (list Market)) (t : Ticks) (n : nat) : Loop :=
  fold_left (day config historicalData) (seq 1 n) (start config t).

Definition runBacktest (s : BacktestingEngine) (config : BacktestConfig)
    (historicalData : list (list Market))
    : BacktestResult * BacktestingEngine :=
  let st := simulate config historicalData (ticks s) (length historicalData - 1) in
  let trades := l_trades st in
  let equity := l_equity st in
  let wins := List.filter (fun t => (0 <? profitLoss t)%float) trades in
  let losses := List.filter (fun t => (profitLoss t <=? 0)%float) trades in
  let totalProfit := sum_by profitLoss wins in
  let totalLoss := abs (sum_by profitLoss losses) in
  let returns := map profitLossPercent trades in
  let avgReturn :=
    if (0 <? length returns)%nat
    then (fold_left (fun a b => a + b) returns 0 / of_nat (length returns))%float
    else 0%float in
  let stdReturn :=
    if (1 <? length returns)%nat
    then sqrt (fold_left (fun sum r => sum + Math_pow2 (r - avgReturn)) returns 0
               / (of_nat (length returns) - 1))%float
    else 0%float in
  let sharpeRatio :=
    if (0 <? stdReturn)%float then (avgReturn / stdReturn * sqrt 252)%float
    else 0%float in
  let t := l_ticks st in
  let result :=
    {| result_id := clock (reads t);
       config := config;
       totalReturn := (equity - initialCapital config)%float;
       totalReturnPercent :=
         ((equity - initialCapital config) / initialCapital config * 100)%float;
       maxDrawdown := (l_maxDrawdown st * 100)%float;
       sharpeRatio := sharpeRatio;
       winRate :=
         if (0 <? length trades)%nat
         then (of_nat (length wins) / of_nat (length trades) * 100)%float
         else 0%float;
       totalTrades := of_nat (length trades);
       profitFactor :=
         if (0 <? totalLoss)%float then (totalProfit / totalLoss)%float
         else if (0 <? totalProfit)%float then infinity else 0%float;
       equityCurve := l_equityCurve st;
       trades := trades;
       runAt := clock (S (reads t)) |} in
  let results := results s ++ [result] in
  let results := if (20 <? length results)%nat then tail results else results in
  (result, {| results := results; ticks := read2 t |}).

End WithEnvironment.


End Backtest.

(** ** Kelly sizer: the rolling trade history
       (server/trading/kelly-criterion.ts, class KellyCriterion) *)

Module KellyStats.

Record TradeRecord := {
  profitLoss : number;
  capital : number
}.

(** The fields of the class; the lookback period is a count of trades. *)
Record KellyCriterion := {
  tradeHistory : list TradeRecord;
  lookbackPeriod : nat;
  scalingFactor : number
}.

(** [new KellyCriterion(lookbackPeriod, scalingFactor)]; 40 and 0.5 when
    omitted. *)
Definition create (lookbackPeriod : nat) (scalingFactor : number)
    : KellyCriterion :=
  {| tradeHistory := []; lookbackPeriod := lookbackPeriod;
     scalingFactor := scalingFactor |}.

Definition init : KellyCriterion := create 40 0.5.

Definition addTrade (s : KellyCriterion) (profitLoss capital : number)
    : KellyCriterion :=
  let history :=
    tradeHistory s ++ [ {| profitLoss := profitLoss; capital := capital |} ] in
  {| tradeHistory :=
       if (lookbackPeriod s <? length history)%nat then tail history
       else history;
     lookbackPeriod := lookbackPeriod s;
     scalingFactor := scalingFactor s |}.

Record HistoricalMetrics := {
  winRate : number;
  avgWin : number;
  avgLoss : number;
  expectancy : number
}.

(** [this.tradeHistory.filter(t => t.profitLoss > 0)] *)
Definition wins (s : KellyCriterion) : list TradeRecord :=
  List.filter (fun t => (0 <? profitLoss t)%float) (tradeHistory s).

(** [this.tradeHistory.filter(t => t.profitLoss <= 0)] *)
Definition losses (s : KellyCriterion) : list TradeRecord :=
  List.filter (fun t => (profitLoss t <=? 0)%float) (tradeHistory s).

Definition calculateHistoricalMetrics (s : KellyCriterion)
    : option HistoricalMetrics :=
  if (length (tradeHistory s) <? 10)%nat then None
  else
    let wins := wins s in
    let losses := losses s in
    let winRate :=
      (of_nat (length wins) / of_nat (length (tradeHistory s)))%float in
    let avgWin :=
      if (0 <? length wins)%nat
      then (sum_by profitLoss wins / of_nat (length wins))%float
      else 0%float in
    let avgLoss :=
      if (0 <? length losses)%nat
      then abs (sum_by profitLoss losses / of_nat (length losses))
      else 0%float in
    let expectancy := (winRate * avgWin - (1 - winRate) * avgLoss)%float in
    Some {| winRate := winRate; avgWin := avgWin; avgLoss := avgLoss;
            expectancy := expectancy |}.

Definition calculateOptimalFraction (s : KellyCriterion) : number :=
  match calculateHistoricalMetrics s with
  | None => 0.02%float
  | Some metrics =>
      if (avgLoss metrics =? 0)%float then 0.02%float
      else
        let rewardRisk := (avgWin metrics / avgLoss metrics)%float in
        let kelly :=
          ((winRate metrics * rewardRisk - (1 - winRate metrics))
           / rewardRisk)%float in
        Math_max 0 (Math_min (kelly * scalingFactor s) 0.25)
  end.

End KellyStats.

(** ** Risk manager: stop-loss and take-profit levels
       (server/trading/risk-manager.ts, the last four methods) *)

Module RiskOrders.
Import Risk.

Definition calculateStopLoss (s : RiskManager) (entryPrice : number)
    (customPercent : option number) : number :=
  let percent := opt_or_else customPercent (stopLossDefault (limits s)) in
  (entryPrice * (1 - percent))%float.

Definition calculateTakeProfit (s : RiskManager) (entryPrice : number)
    (customPercent : option number) : number :=
  let percent := opt_or_else customPercent (takeProfitDefault (limits s)) in
  (entryPrice * (1 + percent))%float.

Definition shouldTriggerStopLoss (position : Position) : bool :=
  match stopLoss position with
  | None => false
  | Some level =>
      if negb (truthy level) then false
      else (currentPrice position <=? level)%float
  end.

Definition shouldTriggerTakeProfit (position : Position) : bool :=
  match takeProfit position with
  | None => false
  | Some level =>
      if negb (truthy level) then false
      else (level <=? currentPrice position)%float
  end.

End RiskOrders.

(** ** Arbitrage scanner: pairs of similar markets and the simulated second
       venue (server/trading/arbitrage-scanner.ts) *)

Module CrossMarket.
Import Schema Arbitrage.

Definition stopWords : list string :=
  ["will"; "the"; "a"; "an"; "in"; "on"; "at"; "by"; "to"; "of"; "for"].

(** [\s] on ASCII text: space, tab, line feed, vertical tab, form feed,
    carriage return.  The spaces outside ASCII are left to the hypothesis
    [ascii_text]. *)
Definition is_space (c : ascii) : bool :=
  let n := Ascii.nat_of_ascii c in
  (n =? 32)%nat || ((9 <=? n)%nat && (n <=? 13)%nat).

(** [[a-z0-9\s]] *)
Definition is_kept (c : ascii) : bool :=
  let n := Ascii.nat_of_ascii c in
  ((97 <=? n)%nat && (n <=? 122)%nat) || ((48 <=? n)%nat && (n <=? 57)%nat)
  || is_space c.

(** [s.replace(/[^a-z0-9\s]/g, "")] *)
Fixpoint keep_chars (s : string) : string :=
  match s with
  | EmptyString => EmptyString
  | String c r => if is_kept c then String c (keep_chars r) else keep_chars r
  end.

(** [s.split(/\s+/)]: the pieces between the runs of spaces, an empty piece
    before a leading run and after a trailing one.  [word] holds the piece
    being read, in reverse; [in_run] tells whether the last character was a
    space. *)
Fixpoint split_spaces (s : string) (word : list ascii) (in_run : bool)
    : list string :=
  match s with
  | EmptyString => [string_of_list_ascii (rev word)]
  | String c r =>
      if is_space c then
        if in_run then split_spaces r word true
        else string_of_list_ascii (rev word) :: split_spaces r [] true
      else split_spaces r (c :: word) false
  end.

Definition is_keyword (w : string) : bool :=
  (2 <? String.length w)%nat && negb (existsb (String.eqb w) stopWords).

(** The question is taken to be ASCII, as for [classifyMarket]. *)
Definition extractKeywords (text : string) : list string :=
  firstn 5
    (List.filter is_keyword
       (split_spaces (keep_chars (Risk.toLowerCase text)) [] false)).

(** [keywords.slice(0, 3).join("-")] *)
Definition group_key (market : Market) : string :=
  String.concat "-" (firstn 3 (extractKeywords (question market))).

(** [groups.get(key)!.push(market)], after [groups.set(key, [])] when the key
    is new; a [Map] keeps its keys in the order of their first insertion. *)
Fixpoint add_to_group (key : string) (market : Market)
    (groups : list (string * list Market)) : list (string * list Market) :=
  match groups with
  | [] => [(key, [market])]
  | (k, g) :: rest =>
      if String.eqb k key then (k, g ++ [market]) :: rest
      else (k, g) :: add_to_group key market rest
  end.

Definition group_all (markets : list Market) : list (string * list Market) :=
  fold_left (fun groups market => add_to_group (group_key market) market groups)
    markets [].

Definition groupSimilarMarkets (markets : list Market) : list (list Market) :=
  List.filter (fun g => (2 <=? length g)%nat) (map snd (group_all markets)).

Section WithClock.
Variable clock : Clock.

(** The opportunity of the pair [(m1, m2)]; its [opp_id] holds the values
    interpolated in [`multi-${m1.id}-${m2.id}-${Date.now()}`]. *)
Definition pair_opportunity (k : nat) (m1 m2 : Market) : ArbitrageOpportunity :=
  let m1YesPrice := outcomePrice m1 0 in
  let m2NoPrice := outcomePrice m2 1 in
  {| opp_id := ((id m1 ++ "-" ++ id m2)%string, clock k);
     type := multi_market;
     market1 := {| leg_id := id m1; leg_question := question m1;
                   leg_price := m1YesPrice; platform := "polymarket" |};
     market2 := {| leg_id := id m2; leg_question := question m2;
                   leg_price := m2NoPrice; platform := "polymarket" |};
     totalCost := (m1YesPrice + m2NoPrice)%float;
     guaranteedPayout := 1;
     profit := (1 - (m1YesPrice + m2NoPrice) - TRANSACTION_FEE)%float;
     profitPercent :=
       ((1 - m1YesPrice - m2NoPrice) / (m1YesPrice + m2NoPrice) * 100)%float;
     detectedAt := clock (S k);
     status := active |}.

(** The inner loop: [m1] against each later market of its group. *)
Fixpoint scan_against (k : nat) (m1 : Market) (later : list Market)
    (found : list ArbitrageOpportunity) : list ArbitrageOpportunity * nat :=
  match later with
  | [] => (found, k)
  | m2 :: rest =>
      if (outcomePrice m1 0 + outcomePrice m2 1 <? 0.98)%float
      then scan_against (2 + k) m1 rest (found ++ [pair_opportunity k m1 m2])
      else scan_against k m1 rest found
  end.

(** The loops over [i] and [j > i] in one group. *)
Fixpoint scan_group (k : nat) (group : list Market)
    (found : list ArbitrageOpportunity) : list ArbitrageOpportunity * nat :=
  match group with
  | [] => (found, k)
  | m1 :: rest =>
      let '(found, k) := scan_against k m1 rest found in
      scan_group k rest found
  end.

Fixpoint scan_groups (k : nat) (groups : list (list Market))
    (found : list ArbitrageOpportunity) : list ArbitrageOpportunity * nat :=
  match groups with
  | [] => (found, k)
  | group :: rest =>
      if (length group <? 2)%nat then scan_groups k rest found
      else
        let '(found, k) := scan_group k group found in
        scan_groups k rest found
  end.

(** The registry is not touched; only the clock is read. *)
Definition scanMultiMarketArbitrage (s : ArbitrageScanner)
    (markets : list Market) : list ArbitrageOpportunity * ArbitrageScanner :=
  let '(found, k) :=
    scan_groups (clock_reads s) (groupSimilarMarkets markets) [] in
  (found, {| opportunities := opportunities s; clock_reads := k |}).

Record CrossPlatformPrice := {
  marketDescription : string;
  polymarketPrice : number;
  kalshiPrice : number;
  priceDifference : number;
  arbitrageAvailable : bool;
  lastUpdated : number
}.

(** [random k] is what the [k]-th call of [Math.random()] returns. *)
Variable random : nat -> number.

(** One row; [k] counts the clock readings and [r] the draws. *)
Definition cross_platform_row (k r : nat) (market : Market)
    : CrossPlatformPrice :=
  let polyPrice := outcomePrice market 0 in
  let kalshiPrice := (polyPrice + (random r - 0.5) * 0.08)%float in
  let clampedKalshi := Math_max 0.01 (Math_min 0.99 kalshiPrice) in
  let diff := abs (polyPrice - clampedKalshi) in
  {| marketDescription := question market;
     polymarketPrice := polyPrice;
     kalshiPrice := clampedKalshi;
     priceDifference := diff;
     arbitrageAvailable := (0.03 <? diff)%float;
     lastUpdated := clock k |}.

Fixpoint cross_platform_rows (k r : nat) (markets : list Market)
    : list CrossPlatformPrice :=
  match markets with
  | [] => []
  | market :: rest =>
      cross_platform_row k r market :: cross_platform_rows (S k) (S r) rest
  end.

(** [k] and [r]: the clock readings and the draws made before the call. *)
Definition simulateCrossPlatformPrices (k r : nat) (markets : list Market)
    : list CrossPlatformPrice :=
  cross_platform_rows k r (firstn 10 markets).

End WithClock.

End CrossMarket.

(** ** Backtesting engine: the synthetic history and the lookup of a result
       (server/trading/kelly-criterion.ts, class BacktestingEngine) *)

Module MockData.
Import Schema Backtest.

Section WithRandom.
Variable random : nat -> number.

(** [m.outcomePrices.map(p => ...)]: one draw per price, from draw [r]. *)
Fixpoint mock_prices (r : nat) (prices : list number) : list number * nat :=
  match prices with
  | [] => ([], r)
  | p :: rest =>
      let change := ((random r - 0.5) * 0.1)%float in
      let p' := Math_max 0.01 (Math_min 0.99 (p + change)%float) in
      let '(rest', r') := mock_prices (S r) rest in
      (p' :: rest', r')
  end.

(** [{ ...m, outcomePrices: ..., volume: m.volume * (0.5 + Math.random()) }] *)
Definition mock_market (r : nat) (m : Market) : Market * nat :=
  let '(prices, r) := mock_prices r (outcomePrices m) in
  ({| id := id m; question := question m; outcomes := outcomes m;
      outcomePrices := prices;
      volume := (volume m * (0.5 + random r))%float |}, S r).

Fixpoint mock_day (r : nat) (markets : list Market) : list Market * nat :=
  match markets with
  | [] => ([], r)
  | m :: rest =>
      let '(m', r) := mock_market r m in
      let '(rest', r) := mock_day r rest in
      (m' :: rest', r)
  end.

(** [days] is the number of turns of the loop; [r] the draws made before. *)
Fixpoint generateMockHistoricalData (r : nat) (markets : list Market)
    (days : nat) : list (list Market) * nat :=
  match days with
  | O => ([], r)
  | S days' =>
      let '(day, r) := mock_day r markets in
      let '(history, r) := generateMockHistoricalData r markets days' in
      (day :: history, r)
  end.

End WithRandom.


End MockData.

(** * Properties *)

(** ** Facts on binary64 order and NaN, from the specification of the
       primitive operations *)

Module FloatFacts.

(** A key on which [SFcompare] is the lexicographic order. *)
Definition rank (x : spec_float) : Z * Z * Z :=
  match x with
  | S754_nan => (0, 0, 0)
  | S754_zero _ => (0, 0, 0)
  | S754_infinity true => (-2, 0, 0)
  | S754_infinity false => (2, 0, 0)
  | S754_finite true m e => (-1, - e, Z.neg m)
  | S754_finite false m e => (1, e, Z.pos m)
  end%Z.

Definition lex_lt (a b : Z * Z * Z) : Prop :=
  let '(a1, a2, a3) := a in
  let '(b1, b2, b3) := b in
  (a1 < b1 \/ (a1 = b1 /\ (a2 < b2 \/ (a2 = b2 /\ a3 < b3))))%Z.

Definition not_nan (x : spec_float) : Prop := x <> S754_nan.

Lemma pos_compare_cont_Eq (p q : positive) :
  Pos.compare_cont Eq p q = (Z.pos p ?= Z.pos q)%Z.
Proof. reflexivity. Qed.

Lemma SFltb_rank (x y : spec_float) :
  SFltb x y = true <-> not_nan x /\ not_nan y /\ lex_lt (rank x) (rank y).
Proof.
  unfold SFltb, not_nan.
  destruct x as [sx|sx| |sx mx ex], y as [sy|sy| |sy my ey];
    try destruct sx; try destruct sy; cbn [SFcompare rank lex_lt];
    try (split; [ (discriminate || (intros _; repeat split; (discriminate || lia)))
                | (intros (H1 & H2 & H3); (congruence || lia || reflexivity)) ]).
  all: rewrite ?pos_compare_cont_Eq.
  - destruct (Z.compare_spec ex ey) as [He|He|He];
      [ destruct (Z.compare_spec (Z.pos mx) (Z.pos my)) as [Hm|Hm|Hm] | | ];
      cbn [CompOpp]; (split; [ (discriminate || (intros _; repeat split; (discriminate || lia)))
               | (intros (H1 & H2 & H3); (reflexivity || lia)) ]).
  - destruct (Z.compare_spec ex ey) as [He|He|He];
      [ destruct (Z.compare_spec (Z.pos mx) (Z.pos my)) as [Hm|Hm|Hm] | | ];
      (split; [ (discriminate || (intros _; repeat split; (discriminate || lia)))
               | (intros (H1 & H2 & H3); (reflexivity || lia)) ]).
Qed.


Lemma SFleb_rank (x y : spec_float) :
  SFleb x y = true <-> not_nan x /\ not_nan y /\ ~ lex_lt (rank y) (rank x).
Proof.
  unfold SFleb, not_nan.
  destruct x as [sx|sx| |sx mx ex], y as [sy|sy| |sy my ey];
    try destruct sx; try destruct sy; cbn [SFcompare rank lex_lt];
    try (split; [ (discriminate || (intros _; repeat split; (discriminate || lia)))
                | (intros (H1 & H2 & H3); (congruence || lia || reflexivity)) ]).
  all: rewrite ?pos_compare_cont_Eq.
  - destruct (Z.compare_spec ex ey) as [He|He|He];
      [ destruct (Z.compare_spec (Z.pos mx) (Z.pos my)) as [Hm|Hm|Hm] | | ];
      cbn [CompOpp]; (split; [ (discriminate || (intros _; repeat split; (discriminate || lia)))
               | (intros (H1 & H2 & H3); (reflexivity || lia)) ]).
  - destruct (Z.compare_spec ex ey) as [He|He|He];
      [ destruct (Z.compare_spec (Z.pos mx) (Z.pos my)) as [Hm|Hm|Hm] | | ];
      (split; [ (discriminate || (intros _; repeat split; (discriminate || lia)))
               | (intros (H1 & H2 & H3); (reflexivity || lia)) ]).
Qed.

Lemma SFeqb_refl (x : spec_float) : SFeqb x x = true <-> not_nan x.
Proof.
  unfold SFeqb, not_nan.
  destruct x as [s|s| |s m e]; try destruct s; cbn [SFcompare];
    rewrite ?Z.compare_refl, ?pos_compare_cont_Eq, ?Z.compare_refl;
    cbn [CompOpp]; split; intros; (discriminate || congruence).
Qed.

Lemma SFeqb_rank (x y : spec_float) :
  SFeqb x y = true <-> not_nan x /\ not_nan y /\ rank x = rank y.
Proof.
  unfold SFeqb, not_nan.
  destruct x as [sx|sx| |sx mx ex], y as [sy|sy| |sy my ey];
    try destruct sx; try destruct sy; cbn [SFcompare rank];
    try (split; [ (discriminate || (intros _; repeat split; (discriminate || reflexivity)))
                | (intros (H1 & H2 & H3); (congruence || reflexivity)) ]).
  all: rewrite ?pos_compare_cont_Eq.
  - destruct (Z.compare_spec ex ey) as [He|He|He];
      [ destruct (Z.compare_spec (Z.pos mx) (Z.pos my)) as [Hm|Hm|Hm] | | ];
      cbn [CompOpp]; (split; [ (discriminate || (intros _; repeat split; (discriminate || congruence)))
               | (intros (H1 & H2 & H3); (reflexivity || (injection H3; lia))) ]).
  - destruct (Z.compare_spec ex ey) as [He|He|He];
      [ destruct (Z.compare_spec (Z.pos mx) (Z.pos my)) as [Hm|Hm|Hm] | | ];
      (split; [ (discriminate || (intros _; repeat split; (discriminate || congruence)))
               | (intros (H1 & H2 & H3); (reflexivity || (injection H3; lia))) ]).
Qed.

(** The same on primitive floats. *)

Definition key (x : number) : Z * Z * Z := rank (Prim2SF x).
Definition num (x : number) : Prop := not_nan (Prim2SF x).

Lemma is_nan_num (x : number) : is_nan x = false <-> num x.
Proof.
  unfold is_nan, num. rewrite FloatAxioms.eqb_spec.
  pose proof (SFeqb_refl (Prim2SF x)) as H.
  destruct (SFeqb (Prim2SF x) (Prim2SF x)); cbn [negb]; split; intros;
    (reflexivity || discriminate || tauto || (exfalso; intuition discriminate)).
Qed.

Lemma is_nan_not_num (x : number) : is_nan x = true <-> ~ num x.
Proof.
  rewrite <- is_nan_num. destruct (is_nan x); split; congruence.
Qed.

Lemma ltb_key (x y : number) :
  (x <? y)%float = true <-> num x /\ num y /\ lex_lt (key x) (key y).
Proof. rewrite FloatAxioms.ltb_spec. apply SFltb_rank. Qed.

Lemma leb_key (x y : number) :
  (x <=? y)%float = true <-> num x /\ num y /\ ~ lex_lt (key y) (key x).
Proof. rewrite FloatAxioms.leb_spec. apply SFleb_rank. Qed.

Lemma eqb_key (x y : number) :
  (x =? y)%float = true <-> num x /\ num y /\ key x = key y.
Proof. rewrite FloatAxioms.eqb_spec. apply SFeqb_rank. Qed.

Lemma ltb_false_key (x y : number) :
  (x <? y)%float = false <-> ~ (num x /\ num y /\ lex_lt (key x) (key y)).
Proof. rewrite <- ltb_key. destruct (x <? y)%float; split; congruence. Qed.

Lemma leb_false_key (x y : number) :
  (x <=? y)%float = false <-> ~ (num x /\ num y /\ ~ lex_lt (key y) (key x)).
Proof. rewrite <- leb_key. destruct (x <=? y)%float; split; congruence. Qed.

Lemma eqb_false_key (x y : number) :
  (x =? y)%float = false <-> ~ (num x /\ num y /\ key x = key y).
Proof. rewrite <- eqb_key. destruct (x =? y)%float; split; congruence. Qed.

(** [float_order] decides a goal on [<?], [<=?], [=?] and [is_nan] that holds
    in every total preorder with an incomparable NaN. *)
Ltac float_keys :=
  unfold JS.lt, JS.le in *;
  rewrite ?ltb_key, ?leb_key, ?eqb_key, ?ltb_false_key, ?leb_false_key,
    ?eqb_false_key, ?is_nan_num, ?is_nan_not_num in *.

Ltac float_order :=
  float_keys;
  repeat match goal with
         | |- context [key ?x] =>
             let a := fresh "k" in let b := fresh "k" in let c := fresh "k" in
             destruct (key x) as [[a b] c]
         | H : context [key ?x] |- _ =>
             let a := fresh "k" in let b := fresh "k" in let c := fresh "k" in
             destruct (key x) as [[a b] c]
         end;
  unfold lex_lt in *;
  repeat match goal with
         | H : (_, _, _) = (_, _, _) |- _ => injection H as ? ? ?
         end;
  first [ tauto | intuition (try congruence; try lia) ].

Lemma lt_not_le (a b : number) : lt a b -> (b <=? a)%float = false.
Proof. intros; float_order. Qed.

Lemma le_not_lt (a b : number) : le a b -> (b <? a)%float = false.
Proof. intros; float_order. Qed.

Lemma lt_le (a b : number) : lt a b -> le a b.
Proof. intros; float_order. Qed.

Lemma lt_trans (a b c : number) : lt a b -> lt b c -> lt a c.
Proof. intros; float_order. Qed.

Lemma le_trans (a b c : number) : le a b -> le b c -> le a c.
Proof. intros; float_order. Qed.

Lemma le_lt_trans (a b c : number) : le a b -> lt b c -> lt a c.
Proof. intros; float_order. Qed.

Lemma lt_le_trans (a b c : number) : lt a b -> le b c -> lt a c.
Proof. intros; float_order. Qed.

Lemma le_refl (a : number) : is_nan a = false -> le a a.
Proof. intros; float_order. Qed.

Lemma not_lt_le (a b : number) :
  (a <? b)%float = false -> is_nan a = false -> is_nan b = false -> le b a.
Proof. intros; float_order. Qed.

Lemma lt_num_l (a b : number) : lt a b -> is_nan a = false.
Proof. intros; float_order. Qed.

Lemma lt_num_r (a b : number) : lt a b -> is_nan b = false.
Proof. intros; float_order. Qed.

Lemma le_num_l (a b : number) : le a b -> is_nan a = false.
Proof. intros; float_order. Qed.

Lemma le_num_r (a b : number) : le a b -> is_nan b = false.
Proof. intros; float_order. Qed.

Lemma lt_eqb_r (x a b : number) : lt x a -> (a =? b)%float = true -> lt x b.
Proof. intros; float_order. Qed.

End FloatFacts.

(** ** NaN-freedom of subtraction and division *)

Module FloatNaN.
Import FloatFacts.

Section Rounding.
Variables prec emax : Z.

Lemma shr_1_nonneg (mrs : shr_record) :
  (0 <= shr_m mrs)%Z -> (0 <= shr_m (shr_1 mrs))%Z.
Proof.
  destruct mrs as [m r s]. cbn [shr_m].
  destruct m as [| [p|p|] | p]; cbn; lia.
Qed.

Lemma iter_shr_1_nonneg (n : positive) (mrs : shr_record) :
  (0 <= shr_m mrs)%Z -> (0 <= shr_m (SpecFloat.iter_pos shr_1 n mrs))%Z.
Proof.
  revert mrs. induction n as [n IH | n IH |]; intros mrs H; cbn [SpecFloat.iter_pos].
  - apply IH, IH, shr_1_nonneg, H.
  - apply IH, IH, H.
  - apply shr_1_nonneg, H.
Qed.

Lemma shr_fexp_nonneg (m e : Z) (l : location) :
  (0 <= m)%Z -> (0 <= shr_m (fst (shr_fexp prec emax m e l)))%Z.
Proof.
  intros H. unfold shr_fexp, shr.
  assert (H0 : (0 <= shr_m (shr_record_of_loc m l))%Z).
  { destruct l as [| []]; exact H. }
  destruct (fexp prec emax (Zdigits2 m + e) - e)%Z; cbn [fst]; try exact H0.
  apply iter_shr_1_nonneg, H0.
Qed.

Lemma round_nearest_even_nonneg (m : Z) (l : location) :
  (0 <= m)%Z -> (0 <= round_nearest_even m l)%Z.
Proof.
  intros H. destruct l as [| []]; cbn [round_nearest_even]; try lia.
  destruct (Z.even m); lia.
Qed.

Lemma binary_round_aux_not_nan (sx : bool) (mx ex : Z) (lx : location) :
  (0 <= mx)%Z -> binary_round_aux prec emax sx mx ex lx <> S754_nan.
Proof.
  intros H. unfold binary_round_aux.
  pose proof (shr_fexp_nonneg mx ex lx H) as H1.
  destruct (shr_fexp prec emax mx ex lx) as [mrs' e']. cbn [fst] in H1.
  pose proof (shr_fexp_nonneg _ e' loc_Exact
                (round_nearest_even_nonneg _ (loc_of_shr_record mrs') H1)) as H2.
  destruct (shr_fexp prec emax _ e' loc_Exact) as [mrs'' e'']. cbn [fst] in H2.
  destruct (shr_m mrs''); [ discriminate | | lia ].
  destruct (e'' <=? emax - prec)%Z; discriminate.
Qed.

Lemma binary_normalize_not_nan (m e : Z) (szero : bool) :
  binary_normalize prec emax m e szero <> S754_nan.
Proof.
  unfold binary_normalize, binary_round.
  destruct m as [| p | p]; [ discriminate | |];
    destruct (shl_align _ _ _) as [mz ez];
    apply binary_round_aux_not_nan; lia.
Qed.

(** A spec float with a mantissa: finite and not a zero. *)
Definition has_mantissa (y : spec_float) : Prop :=
  exists s m e, y = S754_finite s m e.

Lemma SFsub_not_nan (x y : spec_float) :
  not_nan x -> has_mantissa y -> not_nan (SFsub prec emax x y).
Proof.
  unfold not_nan. intros Hx (s & m & e & ->).
  destruct x as [sx|sx| |sx mx ex]; cbn [SFsub]; try discriminate;
    try congruence.
  apply binary_normalize_not_nan.
Qed.

Lemma SFdiv_not_nan (x y : spec_float) :
  not_nan x -> has_mantissa y -> not_nan (SFdiv prec emax x y).
Proof.
  unfold not_nan. intros Hx (s & m & e & ->).
  destruct x as [sx|sx| |sx mx ex]; cbn [SFdiv]; try discriminate;
    try congruence.
  unfold SFdiv_core_binary.
  set (e' := Z.min _ _). set (sh := (ex - e - e')%Z).
  set (m' := match sh with Z.pos _ => Z.shiftl (Z.pos mx) sh | 0%Z => Z.pos mx | Z.neg _ => 0%Z end).
  assert (Hm' : (0 <= m')%Z).
  { subst m'. destruct sh; try lia. apply Z.shiftl_nonneg. lia. }
  pose proof (Z.div_pos m' (Z.pos m) Hm' eq_refl) as Hq.
  unfold Z.div in Hq. destruct (Z.div_eucl m' (Z.pos m)) as [q r].
  cbn [fst] in Hq. apply binary_round_aux_not_nan. exact Hq.
Qed.

Lemma SFabs_not_nan (x : spec_float) : not_nan x -> not_nan (SFabs x).
Proof. unfold not_nan. destruct x; cbn; congruence. Qed.

End Rounding.

(** On primitive floats. *)

Lemma finite_nonzero_mantissa (y : number) :
  is_finite y = true -> (y =? 0)%float = false ->
  has_mantissa (Prim2SF y).
Proof.
  unfold is_finite, is_infinity, is_nan.
  rewrite !FloatAxioms.eqb_spec, abs_spec.
  change (Prim2SF infinity) with (S754_infinity false).
  change (Prim2SF 0) with (S754_zero false).
  destruct (Prim2SF y) as [s|s| |s m e]; cbn; intros H1 H2;
    try discriminate H1; try discriminate H2.
  - destruct s; discriminate H1.
  - exists s, m, e. reflexivity.
Qed.

Lemma sub_num (x y : number) :
  is_nan x = false -> is_finite y = true -> (y =? 0)%float = false ->
  is_nan (x - y)%float = false.
Proof.
  rewrite !is_nan_num. unfold num. intros Hx Hf Hz.
  rewrite sub_spec. apply SFsub_not_nan; [ exact Hx |].
  apply finite_nonzero_mantissa; assumption.
Qed.

Lemma div_num (x y : number) :
  is_nan x = false -> is_finite y = true -> (y =? 0)%float = false ->
  is_nan (x / y)%float = false.
Proof.
  rewrite !is_nan_num. unfold num. intros Hx Hf Hz.
  rewrite div_spec. apply SFdiv_not_nan; [ exact Hx |].
  apply finite_nonzero_mantissa; assumption.
Qed.

Lemma abs_num (x : number) : is_nan x = false -> is_nan (abs x) = false.
Proof.
  rewrite !is_nan_num. unfold num. rewrite abs_spec. apply SFabs_not_nan.
Qed.

End FloatNaN.

(** ** The magnitude of [(0 - a) / a] *)

Module FloatOne.
Import FloatFacts FloatNaN.

Lemma div_eucl_mul (q b : Z) : (b <> 0)%Z -> Z.div_eucl (q * b) b = (q, 0%Z).
Proof.
  intros Hb. pose proof (Z.div_mul q b Hb) as Hq.
  pose proof (Z.mod_mul q b Hb) as Hr.
  unfold Z.div, Z.modulo in *.
  destruct (Z.div_eucl (q * b) b) as [q' r']. subst. reflexivity.
Qed.

(** The quotient of a finite non-zero double by its opposite is -1. *)
Lemma SFdiv_opp_self (s : bool) (m : positive) (e : Z) :
  SF64div (S754_finite (negb s) m e) (S754_finite s m e)
  = S754_finite true 4503599627370496 (-52).
Proof.
  unfold SF64div. cbn [SFdiv]. unfold SFdiv_core_binary.
  rewrite !Z.sub_diag.
  replace (Z.min (fexp prec emax 0) 0) with (-53)%Z by reflexivity.
  replace (0 - -53)%Z with 53%Z by reflexivity.
  cbv iota beta.
  rewrite Z.shiftl_mul_pow2 by lia.
  rewrite (Z.mul_comm (Z.pos m)), div_eucl_mul by discriminate.
  replace (new_location (Z.pos m) 0) with loc_Exact
    by (unfold new_location; destruct (Z.even (Z.pos m)); reflexivity).
  replace (xorb (negb s) s) with true by (destruct s; reflexivity).
  vm_compute. reflexivity.
Qed.

Lemma zero_sub (c a : number) :
  (c =? 0)%float = true -> has_mantissa (Prim2SF a) ->
  abs ((c - a) / a) = 1%float.
Proof.
  intros Hc (s & m & e & Ha).
  apply Prim2SF_inj. rewrite abs_spec, div_spec, sub_spec, Ha.
  rewrite FloatAxioms.eqb_spec in Hc.
  change (Prim2SF 0) with (S754_zero false) in Hc.
  destruct (Prim2SF c) as [sc|sc| |sc mc ec]; cbn in Hc;
    try discriminate Hc; try (destruct sc; discriminate Hc).
  unfold SF64sub. cbn [SFsub]. rewrite SFdiv_opp_self. reflexivity.
Qed.

End FloatOne.

(** ** [Math.min], [Math.max], clamping and [Math.abs] *)

Module MathFacts.
Import FloatFacts.

Lemma Math_min_nan (a b : number) :
  is_nan a || is_nan b = true -> Math_min a b = nan.
Proof. intros H. unfold Math_min. rewrite H. reflexivity. Qed.

Lemma Math_max_nan (a b : number) :
  is_nan a || is_nan b = true -> Math_max a b = nan.
Proof. intros H. unfold Math_max. rewrite H. reflexivity. Qed.

(** On two numbers, [Math.min] is one of them, below both. *)
Lemma Math_min_num (a b : number) :
  is_nan a = false -> is_nan b = false ->
  is_nan (Math_min a b) = false
  /\ le (Math_min a b) a /\ le (Math_min a b) b
  /\ (Math_min a b = a \/ Math_min a b = b).
Proof.
  intros Ha Hb. unfold Math_min. rewrite Ha, Hb. cbn [orb].
  destruct (a <? b)%float eqn:E1; [| destruct (b <? a)%float eqn:E2;
                                        [| destruct (get_sign a) ]];
    repeat split; try assumption;
    try (left; reflexivity); try (right; reflexivity);
    float_order.
Qed.

(** On two numbers, [Math.max] is one of them, above both. *)
Lemma Math_max_num (a b : number) :
  is_nan a = false -> is_nan b = false ->
  is_nan (Math_max a b) = false
  /\ le a (Math_max a b) /\ le b (Math_max a b)
  /\ (Math_max a b = a \/ Math_max a b = b).
Proof.
  intros Ha Hb. unfold Math_max. rewrite Ha, Hb. cbn [orb].
  destruct (a <? b)%float eqn:E1; [| destruct (b <? a)%float eqn:E2;
                                        [| destruct (get_sign a) ]];
    repeat split; try assumption;
    try (left; reflexivity); try (right; reflexivity);
    float_order.
Qed.

(** [Math.max(lo, Math.min(x, hi))] and [Math.max(lo, Math.min(hi, x))]:
    NaN on a NaN, otherwise between the bounds. *)
Lemma clamp_between (lo hi x : number) :
  le lo hi ->
  let c := Math_max lo (Math_min x hi) in
  (is_nan x = true -> is_nan c = true)
  /\ (is_nan x = false -> le lo c /\ le c hi).
Proof.
  intros Hb. cbv zeta.
  pose proof (le_num_l _ _ Hb) as Hlo. pose proof (le_num_r _ _ Hb) as Hhi.
  split.
  - intros Hx. rewrite (Math_min_nan x hi) by (rewrite Hx; reflexivity).
    apply (f_equal is_nan (Math_max_nan lo nan (orb_true_r _))).
  - intros Hx.
    destruct (Math_min_num x hi Hx Hhi) as (Hn & _ & Hmh & _).
    destruct (Math_max_num lo (Math_min x hi) Hlo Hn) as (_ & H1 & _ & Heq).
    split; [ exact H1 |].
    destruct Heq as [-> | ->]; [ exact Hb | exact Hmh ].
Qed.

(** The same with the bound first: [Math.max(lo, Math.min(hi, x))]. *)
Lemma clamp_between_flip (lo hi x : number) :
  le lo hi ->
  let c := Math_max lo (Math_min hi x) in
  (is_nan x = true -> is_nan c = true)
  /\ (is_nan x = false -> le lo c /\ le c hi).
Proof.
  intros Hb. cbv zeta.
  pose proof (le_num_l _ _ Hb) as Hlo. pose proof (le_num_r _ _ Hb) as Hhi.
  split.
  - intros Hx. rewrite (Math_min_nan hi x) by (rewrite Hx; apply orb_true_r).
    apply (f_equal is_nan (Math_max_nan lo nan (orb_true_r _))).
  - intros Hx.
    destruct (Math_min_num hi x Hhi Hx) as (Hn & Hmh & _ & _).
    destruct (Math_max_num lo (Math_min hi x) Hlo Hn) as (_ & H1 & _ & Heq).
    split; [ exact H1 |].
    destruct Heq as [-> | ->]; [ exact Hb | exact Hmh ].
Qed.

(** [Math.abs] of a number is not negative. *)
Lemma abs_nonneg (x : number) : is_nan x = false -> le 0 (abs x).
Proof.
  rewrite is_nan_num. unfold num, le, not_nan.
  rewrite FloatAxioms.leb_spec, abs_spec.
  change (Prim2SF 0) with (S754_zero false).
  destruct (Prim2SF x) as [s|s| |s m e]; cbn; congruence.
Qed.

(** [(x - x) / x] is a zero or NaN: never positive. *)
Lemma self_drawdown_not_positive (x : number) :
  (0 <? (x - x) / x)%float = false.
Proof.
  rewrite FloatAxioms.ltb_spec, div_spec, sub_spec.
  change (Prim2SF 0) with (S754_zero false).
  destruct (Prim2SF x) as [s|s| |s m e]; try destruct s; try reflexivity.
  - unfold SF64sub. cbn [SFsub cond_Zopp]. rewrite Z.sub_diag. reflexivity.
  - unfold SF64sub. cbn [SFsub cond_Zopp]. rewrite Z.sub_diag. reflexivity.
Qed.

(** A zero is not above zero. *)
Lemma eqb_zero_le (x : number) :
  (x =? 0)%float = true -> (x <=? 0)%float = true.
Proof.
  rewrite eqb_key, leb_key. intros (H1 & H2 & H3). rewrite H3.
  repeat split; try assumption.
  destruct (key 0) as [[a b] c]. unfold lex_lt. lia.
Qed.

Lemma self_not_above (x : number) : (x <? x)%float = false.
Proof. float_order. Qed.

End MathFacts.

(** ** Exact values: [Math.round] and integers as doubles *)

Module RoundFacts.
Import QArith Lqa.
Local Open Scope Z_scope.

(** The rational that a finite double is; none for an infinity or a NaN. *)
Definition SF2Q (f : spec_float) : option Q :=
  match f with
  | S754_zero _ => Some 0%Q
  | S754_finite s m e =>
      let v := cond_Zopp s (Z.pos m) in
      Some (if 0 <=? e then inject_Z (v * 2 ^ e)
            else Qmake v (Z.to_pos (2 ^ (- e))))
  | _ => None
  end.

Definition value (x : number) : option Q := SF2Q (Prim2SF x).

(** [n] is the integer nearest to [q], the upper one of two at the same
    distance: [n - 1/2 <= q < n + 1/2]. *)
Definition nearest_integer (q : Q) (n : Z) : Prop :=
  (inject_Z n - (1 # 2) <= q)%Q /\ (q < inject_Z n + (1 # 2))%Q.

Lemma digits2_pos_lower (p : positive) :
  2 ^ (Z.pos (digits2_pos p) - 1) <= Z.pos p.
Proof.
  induction p as [p IH | p IH |]; cbn [digits2_pos]; [ | | cbn; lia ];
    rewrite Pos2Z.inj_succ;
    replace (Z.succ (Z.pos (digits2_pos p)) - 1)
      with (Z.succ (Z.pos (digits2_pos p) - 1)) by lia;
    rewrite Z.pow_succ_r by lia; lia.
Qed.

Lemma digits2_pos_upper (p : positive) :
  Z.pos p < 2 ^ Z.pos (digits2_pos p).
Proof.
  induction p as [p IH | p IH |]; cbn [digits2_pos]; [ | | cbn; lia ];
    rewrite Pos2Z.inj_succ, Z.pow_succ_r by lia; lia.
Qed.

Lemma digits2_pos_le (p : positive) (k : Z) :
  0 <= k -> Z.pos p < 2 ^ k -> Z.pos (digits2_pos p) <= k.
Proof.
  intros Hk Hp. destruct (Z_le_gt_dec (Z.pos (digits2_pos p)) k) as [H|H];
    [ exact H | exfalso ].
  pose proof (digits2_pos_lower p) as Hl.
  assert (2 ^ k <= 2 ^ (Z.pos (digits2_pos p) - 1))
    by (apply Z.pow_le_mono_r; lia).
  lia.
Qed.

Lemma digits2_pos_iter (p d : positive) :
  digits2_pos (Pos.iter xO p d) = (digits2_pos p + d)%positive.
Proof.
  induction d as [| d IH] using Pos.peano_ind.
  - cbn. lia.
  - rewrite Pos.iter_succ. cbn [digits2_pos]. rewrite IH. lia.
Qed.

(** A mantissa and exponent in canonical form are kept by the rounding. *)
Lemma binary_round_aux_bounded (s : bool) (m : positive) (e : Z) :
  bounded prec emax m e = true ->
  binary_round_aux prec emax s (Z.pos m) e loc_Exact = S754_finite s m e.
Proof.
  unfold bounded, canonical_mantissa. intros H.
  apply andb_true_iff in H. destruct H as [Hc He]. apply Z.eqb_eq in Hc.
  unfold binary_round_aux, shr_fexp. cbn [Zdigits2 shr_record_of_loc].
  rewrite Hc, Z.sub_diag. cbn [shr shr_m loc_of_shr_record round_nearest_even
                               Zdigits2 shr_record_of_loc].
  rewrite Hc, Z.sub_diag. cbn [shr shr_m]. rewrite He. reflexivity.
Qed.

(** An integer below 2^53 in magnitude is a double, exactly. *)
Lemma binary_round_integer (s : bool) (p : positive) :
  Z.pos p < 2 ^ 53 ->
  exists (m : positive) (e : Z),
    binary_round prec emax s p 0 = S754_finite s m e
    /\ bounded prec emax m e = true
    /\ e <= 0 /\ Z.pos m = Z.pos p * 2 ^ (- e).
Proof.
  intros Hp. pose proof (digits2_pos_le p 53 ltac:(lia) Hp) as Hd.
  assert (Hf : fexp prec emax (Z.pos (digits2_pos p) + 0)
               = Z.pos (digits2_pos p) - 53)
    by (unfold fexp, SpecFloat.emin, prec, emax; lia).
  unfold binary_round, shl_align. rewrite Hf, Z.sub_0_r.
  destruct (Z.pos (digits2_pos p) - 53) as [| d | d] eqn:E; [ | lia | ].
  - assert (Hb : bounded prec emax p 0 = true).
    { unfold bounded, canonical_mantissa, fexp, SpecFloat.emin, prec, emax.
      apply andb_true_iff. split; [ apply Z.eqb_eq; lia | reflexivity ]. }
    exists p, 0. rewrite (binary_round_aux_bounded s p 0 Hb).
    repeat split; [ exact Hb | lia | cbn; lia ].
  - assert (Hb : bounded prec emax (Pos.iter xO p d) (Z.neg d) = true).
    { unfold bounded, canonical_mantissa, fexp, SpecFloat.emin, prec, emax.
      rewrite digits2_pos_iter.
      apply andb_true_iff. split; [ apply Z.eqb_eq; lia | apply Z.leb_le; lia ]. }
    exists (Pos.iter xO p d), (Z.neg d).
    rewrite (binary_round_aux_bounded s _ _ Hb).
    repeat split; [ exact Hb | lia |].
    change (Pos.iter xO p d) with (shift_pos d p).
    rewrite shift_pos_correct, Z.pow_pos_fold, Pos2Z.opp_neg.
    apply Z.mul_comm.
Qed.

Lemma of_Z_exact (n : Z) :
  n <> 0 -> Z.abs n < 2 ^ 53 ->
  exists r : Q, value (of_Z n) = Some r /\ (r == inject_Z n)%Q.
Proof.
  intros Hn Hb. unfold value, of_Z, binary_normalize.
  destruct n as [| p | p]; [ congruence | | ].
  - destruct (binary_round_integer false p Hb) as (m & e & -> & Hv & He & Hm).
    rewrite Prim2SF_SF2Prim by exact Hv. cbn [SF2Q cond_Zopp].
    eexists; split; [ reflexivity |].
    destruct (Z.leb_spec 0 e) as [H0|H0].
    + replace e with 0 in * by lia. cbn in Hm. rewrite Hm. cbn.
      unfold Qeq. cbn. lia.
    + unfold Qeq. cbn [Qnum Qden inject_Z].
      rewrite Z2Pos.id by (apply Z.pow_pos_nonneg; lia). lia.
  - destruct (binary_round_integer true p Hb) as (m & e & -> & Hv & He & Hm).
    rewrite Prim2SF_SF2Prim by exact Hv. cbn [SF2Q cond_Zopp].
    eexists; split; [ reflexivity |].
    destruct (Z.leb_spec 0 e) as [H0|H0].
    + replace e with 0 in * by lia. cbn in Hm. rewrite Hm. cbn.
      unfold Qeq. cbn. lia.
    + unfold Qeq. cbn [Qnum Qden inject_Z].
      rewrite Z2Pos.id by (apply Z.pow_pos_nonneg; lia).
      rewrite Pos2Z.opp_pos. lia.
Qed.

(** The mantissa of a double has at most 53 bits. *)
Lemma mantissa_bound (x : number) (s : bool) (m : positive) (e : Z) :
  Prim2SF x = S754_finite s m e -> Z.pos m < 2 ^ 53.
Proof.
  intros E. pose proof (Prim2SF_valid x) as Hv. rewrite E in Hv.
  unfold SpecFloat.valid_binary, bounded, canonical_mantissa, fexp in Hv.
  apply andb_true_iff in Hv. destruct Hv as [Hc _]. apply Z.eqb_eq in Hc.
  assert (Hd : Z.pos (digits2_pos m) <= 53) by (unfold prec in Hc; lia).
  pose proof (digits2_pos_upper m) as Hu.
  assert (2 ^ Z.pos (digits2_pos m) <= 2 ^ 53) by (apply Z.pow_le_mono_r; lia).
  lia.
Qed.

(** [Math.round] of a finite double is the double of the integer nearest
    to it, ties towards +Infinity. *)
Lemma Math_round_nearest (x : number) (q : Q) :
  value x = Some q ->
  exists n : Z,
    nearest_integer q n
    /\ exists r : Q, value (Math_round x) = Some r /\ (r == inject_Z n)%Q.
Proof.
  unfold value, Math_round, nearest_integer.
  destruct (Prim2SF x) as [s0 | s0 | | s m e] eqn:E; cbn [SF2Q];
    try discriminate.
  - intros H. injection H as <-. exists 0.
    split; [ split; [ discriminate | reflexivity ] |].
    exists 0%Q. rewrite E. split; reflexivity.
  - intros H. injection H as <-.
    destruct (Z.leb_spec 0 e) as [He|He].
    + exists (cond_Zopp s (Z.pos m) * 2 ^ e).
      split; [ split; lra |].
      eexists. rewrite E. cbn [SF2Q].
      destruct (Z.leb_spec 0 e); [| lia ]. split; reflexivity.
    + set (d := 2 ^ (- e)).
      set (v := cond_Zopp s (Z.pos m)).
      assert (Hv : (if s then Z.neg m else Z.pos m) = v)
        by (destruct s; reflexivity).
      rewrite Hv.
      assert (Hd : 2 <= d).
      { unfold d. replace (- e) with (Z.succ (- e - 1)) by lia.
        rewrite Z.pow_succ_r by lia.
        assert (0 < 2 ^ (- e - 1)) by (apply Z.pow_pos_nonneg; lia). lia. }
      set (n := (2 * v + d) / (2 * d)).
      pose proof (Z.div_mod (2 * v + d) (2 * d) ltac:(lia)) as Hdm.
      pose proof (Z.mod_pos_bound (2 * v + d) (2 * d) ltac:(lia)) as Hmod.
      fold n in Hdm.
      exists n. split.
      * unfold Qle, Qlt, Qminus, Qplus, Qopp. cbn [Qnum Qden inject_Z].
        rewrite Z2Pos.id by lia. split; nia.
      * destruct (Z.eqb_spec n 0) as [H0|H0].
        -- exists 0%Q. rewrite H0. destruct s; split; reflexivity.
        -- apply of_Z_exact; [ exact H0 |].
           pose proof (mantissa_bound x s m e E) as Hm.
           assert (Hvb : - 2 ^ 53 < v < 2 ^ 53) by (unfold v; destruct s; cbn; lia).
           change (2 ^ 53) with 9007199254740992 in *.
           apply Z.abs_lt. split; nia.
Qed.

(** [Math.round] keeps an infinity and a NaN. *)
Lemma Math_round_not_finite (x : number) :
  value x = None -> Math_round x = x.
Proof.
  unfold value, Math_round.
  destruct (Prim2SF x); cbn [SF2Q]; try discriminate; reflexivity.
Qed.

(** [x] is finite and [n] is the integer nearest to it. *)
Definition nearest_to (x : number) (n : Z) : Prop :=
  exists q : Q, value x = Some q /\ nearest_integer q n.

(** The double [R] is the integer [n]. *)
Definition is_integer (R : number) (n : Z) : Prop :=
  exists r : Q, value R = Some r /\ (r == inject_Z n)%Q.

Lemma is_finite_value (x : number) :
  is_finite x = true -> exists q : Q, value x = Some q.
Proof.
  unfold is_finite, is_infinity, is_nan, value.
  rewrite !FloatAxioms.eqb_spec, abs_spec.
  change (Prim2SF infinity) with (S754_infinity false).
  destruct (Prim2SF x) as [s|s| |s m e]; cbn [SF2Q]; intros H;
    try (eexists; reflexivity); exfalso; revert H;
    [ destruct s; cbn; discriminate | cbn; discriminate ].
Qed.

Lemma not_finite_value (x : number) :
  is_finite x = false -> value x = None.
Proof.
  unfold is_finite, is_infinity, is_nan, value.
  rewrite !FloatAxioms.eqb_spec, abs_spec.
  change (Prim2SF infinity) with (S754_infinity false).
  destruct (Prim2SF x) as [s|s| |s m e]; cbn [SF2Q]; intros H;
    try reflexivity; exfalso; revert H.
  - destruct s; cbn; discriminate.
  - assert (Hr : SFeqb (S754_finite s m e) (S754_finite s m e) = true)
      by (apply FloatFacts.SFeqb_refl; discriminate).
    rewrite Hr. cbn. discriminate.
Qed.

(** [Math.round] of a finite double: the double of the nearest integer. *)
Lemma Math_round_spec (x : number) :
  is_finite x = true ->
  exists n : Z, nearest_to x n /\ is_integer (Math_round x) n.
Proof.
  intros H. destruct (is_finite_value x H) as (q & Hq).
  destruct (Math_round_nearest x q Hq) as (n & Hn & Hr).
  exists n. split; [ exists q; split; assumption | exact Hr ].
Qed.

End RoundFacts.

(** ** Clocks for the worked examples *)

Module Clocks.
Import Schema FloatFacts.

(** A clock read off a table of instants, staying at [last] afterwards. *)
Definition table_clock (table : list number) (last : number) : Clock :=
  fun k => nth k table last.

Fixpoint ascending (l : list number) : bool :=
  match l with
  | [] => true
  | x :: r => (x <=? x)%float && forallb (fun y => (x <=? y)%float) r && ascending r
  end.

Lemma table_clock_monotone (table : list number) (last : number) :
  ascending (table ++ [last]) = true -> monotone (table_clock table last).
Proof.
  unfold monotone, table_clock.
  induction table as [| x t IH]; intros Ha i j Hij.
  - cbn in Ha. rewrite !andb_true_iff in Ha.
    destruct i, j; cbn; apply Ha.
  - cbn [app ascending] in Ha. rewrite !andb_true_iff in Ha.
    destruct Ha as [[Hx Hall] Ht].
    destruct i as [| i], j as [| j]; cbn [nth]; try lia.
    + exact Hx.
    + rewrite forallb_forall in Hall. apply Hall.
      destruct (Nat.lt_ge_cases j (length t)) as [Hlt|Hge].
      * apply in_or_app. left. apply nth_In. exact Hlt.
      * rewrite nth_overflow by exact Hge. apply in_or_app. right. left. reflexivity.
    + apply IH; [ exact Ht | lia ].
Qed.

(** One reading per millisecond from an instant [t0], for twenty readings. *)
Definition ms_clock : Clock :=
  table_clock (map (fun k => (1700000000000 + of_nat k)%float) (seq 0 20))
              1700000000020%float.

Lemma ms_clock_monotone : monotone ms_clock.
Proof. apply table_clock_monotone. vm_compute. reflexivity. Qed.

End Clocks.

(** ** Kelly sizer *)

Module KellyProps.
Import Kelly FloatFacts FloatNaN MathFacts RoundFacts.

(** The input of the worked example: price 0.40, estimate 0.60, bankroll
    10000, half Kelly, cap 5%. *)
Definition example : KellyInput :=
  {| currentPrice := 0.40; estimatedProbability := 0.60; bankroll := 10000;
     kellyFraction := 0.5; maxPositionPercent := 0.05 |}.

(** Zero edge: price 0.50, estimate 0.50. *)
Definition zero_edge : KellyInput :=
  {| currentPrice := 0.50; estimatedProbability := 0.50; bankroll := 10000;
     kellyFraction := 0.5; maxPositionPercent := 0.05 |}.

(** The example with a bankroll of 1234.567: 5% of it is 61.72835. *)
Definition odd_bankroll : KellyInput :=
  {| currentPrice := 0.40; estimatedProbability := 0.60; bankroll := 1234.567;
     kellyFraction := 0.5; maxPositionPercent := 0.05 |}.

(** The example with a bankroll of 1e308. *)
Definition huge_bankroll : KellyInput :=
  {| currentPrice := 0.40; estimatedProbability := 0.60; bankroll := 1e308;
     kellyFraction := 0.5; maxPositionPercent := 0.05 |}.

(** [m] is the smaller of the numbers [a] and [b]. *)
Definition smaller_of (a b m : number) : Prop :=
  le m a /\ le m b /\ (m = a \/ m = b).

(** C1, as stated, fails: the position size is not always [bankroll *
    fraction] rounded to cents.  With a bankroll of 1e308 the edge is
    positive, the price is in (0,1), the fraction is the cap 0.05 and
    [bankroll * fraction] is finite, about 5e306, but the position size is
    Infinity: the product by 100 that precedes [Math.round] overflows. *)
Lemma positionSize_overflows :
  let r := calculateKelly huge_bankroll in
  lt 0 (estimatedProbability huge_bankroll - currentPrice huge_bankroll)
  /\ lt 0 (currentPrice huge_bankroll) /\ lt (currentPrice huge_bankroll) 1
  /\ fraction r = 0.05%float
  /\ lt 4.9e306 (bankroll huge_bankroll * fraction r)
  /\ lt (bankroll huge_bankroll * fraction r) 5.1e306
  /\ is_finite (bankroll huge_bankroll * fraction r) = true
  /\ positionSize r = infinity.
Proof. vm_compute. repeat split. Qed.

(** C1, amended. [calculateKelly]: on a non-positive edge the result is the
    zero "avoid" result.  On a positive edge with the price in (0,1): the
    fraction is the smaller of [(edge / price) * kellyFraction] and
    [maxPositionPercent] when both are numbers, and NaN otherwise; the
    position size is [Math.round(bankroll * fraction * 100) / 100], that is,
    when the product [bankroll * fraction * 100] is finite, the integer
    nearest to it (the upper one of two equally near) divided by 100, and
    otherwise that product (an infinity or NaN) divided by 100; the
    confidence is the smaller of [edge / 0.15] and 1; and the recommendation
    follows the thresholds 0.04, 0.02 and 0 on the fraction.  The worked
    example gives a position of 500.00 and strong_buy; a bankroll of
    1234.567 gives 61.73. *)
Theorem calculateKelly_correct :
  (forall input : KellyInput,
     let e := (estimatedProbability input - currentPrice input)%float in
     le e 0 ->
     calculateKelly input =
       {| fraction := 0; positionSize := 0; edge := e; confidence := 0;
          recommendation := avoid |})
  /\ (forall input : KellyInput,
        let e := (estimatedProbability input - currentPrice input)%float in
        let r := calculateKelly input in
        let adjusted := (e / currentPrice input * kellyFraction input)%float in
        let cap := maxPositionPercent input in
        let cents := (bankroll input * fraction r * 100)%float in
        lt 0 e -> lt 0 (currentPrice input) -> lt (currentPrice input) 1 ->
        edge r = e
        /\ (is_nan adjusted = false -> is_nan cap = false ->
            smaller_of adjusted cap (fraction r))
        /\ (is_nan adjusted || is_nan cap = true -> is_nan (fraction r) = true)
        /\ (is_finite cents = true ->
            exists (n : Z) (R : number),
              nearest_to cents n /\ is_integer R n
              /\ positionSize r = (R / 100)%float)
        /\ (is_finite cents = false -> positionSize r = (cents / 100)%float)
        /\ smaller_of (e / 0.15) 1 (confidence r)
        /\ (le 0.04 (fraction r) -> recommendation r = strong_buy)
        /\ (le 0.02 (fraction r) -> lt (fraction r) 0.04 ->
            recommendation r = buy)
        /\ (lt 0 (fraction r) -> lt (fraction r) 0.02 ->
            recommendation r = hold))
  /\ (positionSize (calculateKelly example) = 500%float
      /\ recommendation (calculateKelly example) = strong_buy)
  /\ (fraction (calculateKelly zero_edge) = 0%float
      /\ recommendation (calculateKelly zero_edge) = avoid)
  /\ (lt 61.728 (bankroll odd_bankroll * fraction (calculateKelly odd_bankroll))
      /\ lt (bankroll odd_bankroll * fraction (calculateKelly odd_bankroll)) 61.729
      /\ positionSize (calculateKelly odd_bankroll) = 61.73%float).
Proof.
  split; [| split; [| split; [| split ]]].
  - intros input e He. unfold calculateKelly. fold e.
    unfold le in He. rewrite He. reflexivity.
  - intros input e r adjusted cap cents H0 _ _.
    assert (Hr : (e <=? 0)%float = false) by (apply lt_not_le; exact H0).
    assert (He : is_nan e = false) by exact (lt_num_r _ _ H0).
    subst cents r. unfold calculateKelly. fold e. rewrite Hr.
    cbn [fraction positionSize confidence recommendation edge].
    fold adjusted cap.
    set (f := Math_min adjusted cap).
    split; [ reflexivity |]. split; [| split; [| split; [| split; [| split ]]]].
    + intros Ha Hc.
      destruct (Math_min_num adjusted cap Ha Hc) as (_ & H1 & H2 & H3).
      repeat split; assumption.
    + intros Hn. unfold f. rewrite Math_min_nan by exact Hn. reflexivity.
    + intros Hfin.
      destruct (Math_round_spec _ Hfin) as (n & Hn & Hi).
      exists n, (Math_round (bankroll input * f * 100)).
      repeat split; assumption.
    + intros Hfin. rewrite Math_round_not_finite; [ reflexivity |].
      apply not_finite_value, Hfin.
    + assert (Hq : is_nan (e / 0.15)%float = false)
        by (apply div_num; [ exact He | reflexivity | reflexivity ]).
      destruct (Math_min_num (e / 0.15)%float 1 Hq eq_refl) as (_ & H1 & H2 & H3).
      repeat split; assumption.
    + repeat split.
      * intros H. unfold le in H. rewrite H. reflexivity.
      * intros H2 H4. rewrite (lt_not_le _ _ H4). unfold le in H2.
        rewrite H2. reflexivity.
      * intros Hp H2. rewrite (lt_not_le _ _ H2).
        assert (H4 : lt f 0.04) by (eapply lt_trans; [ exact H2 | reflexivity ]).
        rewrite (lt_not_le _ _ H4). unfold lt in Hp. rewrite Hp. reflexivity.
  - vm_compute. split; reflexivity.
  - vm_compute. split; reflexivity.
  - vm_compute. repeat split.
Qed.

(** The worked example meets the hypotheses of the positive-edge case. *)
Lemma calculateKelly_example_hypotheses :
  lt 0 (estimatedProbability example - currentPrice example)
  /\ lt 0 (currentPrice example) /\ lt (currentPrice example) 1.
Proof. vm_compute. repeat split. Qed.

(** On the bankroll of 1234.567 the fraction is the smaller of the adjusted
    Kelly fraction and the cap, and the position size is an integer number of cents, the nearest to
    6172.835, divided by 100. *)
Lemma calculateKelly_correct_witness :
  let r := calculateKelly odd_bankroll in
  smaller_of ((0.60 - 0.40) / 0.40 * 0.5) 0.05 (fraction r)
  /\ exists (n : Z) (R : number),
       nearest_to (bankroll odd_bankroll * fraction r * 100) n
       /\ is_integer R n /\ positionSize r = (R / 100)%float.
Proof.
  cbv zeta.
  destruct (proj1 (proj2 calculateKelly_correct) odd_bankroll
              eq_refl eq_refl eq_refl) as (_ & Hmin & _ & Hround & _).
  split; [ exact (Hmin eq_refl eq_refl) | exact (Hround eq_refl) ].
Defined.

End KellyProps.

(** ** Risk manager *)

Module RiskProps.
Import Risk FloatFacts.

(** The daily-loss test of [recordTrade], read on the state it leaves:
    [|dailyPnL| / currentEquity >= maxDailyLoss]. *)
Definition loss_limit_reached (s : RiskManager) : Prop :=
  le (maxDailyLoss (limits s)) (abs (dailyPnL s) / currentEquity s).

Definition loss (amount : number) : Trade :=
  {| trade_id := "loss"; profitLoss := (- amount)%float |}.

Definition gain (amount : number) : Trade :=
  {| trade_id := "gain"; profitLoss := amount |}.

Lemma halted_stays (s : RiskManager) (calls : list Call) :
  tradingHalted s = true ->
  Forall (fun c => c <> ResetDailyPnL) calls ->
  tradingHalted (run s calls) = true.
Proof.
  intros Hs Hc. revert s Hs.
  induction Hc as [| c calls Hne _ IH]; intros s Hs; [ exact Hs |].
  cbn [run fold_left]. apply IH.
  destruct c; cbn [step updateEquity recordTrade setLimits with_limits tradingHalted];
    try exact Hs; try congruence.
  rewrite Hs. destruct (_ && _); reflexivity.
Qed.

(** C2, as stated, fails: on a fresh manager (equity 0) a loss of 1000 makes
    [|dailyPnL| / currentEquity] infinite, hence at least [maxDailyLoss], and
    trading stays allowed.  The same holds with a finite ratio: with equity
    -100 and a limit of 0 an even trade leaves the ratio at zero, and trading
    stays allowed. *)
Lemma circuit_breaker_fresh_manager :
  (let s' := recordTrade init (loss 1000) in
   (abs (dailyPnL s') / currentEquity s')%float = infinity
   /\ loss_limit_reached s' /\ isTradingAllowed s' = true)
  /\ (let zero_limit :=
         {| p_maxTotalExposure := None; p_maxPositionSize := None;
            p_maxDailyLoss := Some 0%float; p_maxCorrelation := None;
            p_stopLossDefault := None; p_takeProfitDefault := None |} in
       let s' := recordTrade (updateEquity (setLimits init zero_limit) (-100))
                   (gain 0) in
       loss_limit_reached s' /\ isTradingAllowed s' = true).
Proof. vm_compute. repeat split. Qed.

(** C2, amended. With a positive current equity, once a [recordTrade] leaves
    [|dailyPnL| / currentEquity >= maxDailyLoss], trading is not allowed
    after any further calls that are not [resetDailyPnL] (trades of any
    sign, equity updates, new limits); [resetDailyPnL] zeroes the daily P&L
    and allows trading again, and no other call takes a halted manager to an
    allowed one. *)
Theorem circuit_breaker_latches :
  (forall (s : RiskManager) (trade : Trade) (calls : list Call),
     lt 0 (currentEquity s) ->
     loss_limit_reached (recordTrade s trade) ->
     Forall (fun c => c <> ResetDailyPnL) calls ->
     isTradingAllowed (run (recordTrade s trade) calls) = false)
  /\ (forall s : RiskManager,
        dailyPnL (resetDailyPnL s) = 0%float
        /\ isTradingAllowed (resetDailyPnL s) = true)
  /\ (forall (s : RiskManager) (c : Call),
        isTradingAllowed s = false -> isTradingAllowed (step s c) = true ->
        c = ResetDailyPnL).
Proof.
  split; [| split ].
  - intros s trade calls Heq Hlim Hcalls. unfold isTradingAllowed.
    rewrite halted_stays; [ reflexivity | | exact Hcalls ].
    unfold loss_limit_reached, le in Hlim.
    cbn [recordTrade limits dailyPnL currentEquity tradingHalted] in *.
    unfold lt in Heq. rewrite Heq, Hlim. reflexivity.
  - intros s. split; reflexivity.
  - intros s c Hh Ha. unfold isTradingAllowed in *.
    apply negb_false_iff in Hh. apply negb_true_iff in Ha.
    destruct c; try reflexivity; exfalso;
      cbn [step updateEquity recordTrade setLimits with_limits tradingHalted] in Ha;
      try congruence.
    rewrite Hh in Ha. destruct (_ && _); discriminate.
Qed.

(** A day on which the breaker trips and later gains do not lift it. *)
Lemma circuit_breaker_latches_witness :
  isTradingAllowed
    (run (recordTrade (updateEquity init 10000) (loss 1000))
         [RecordTrade (gain 5000); UpdateEquity 20000; RecordTrade (gain 100)])
  = false.
Proof.
  apply (proj1 circuit_breaker_latches).
  - vm_compute. reflexivity.
  - vm_compute. reflexivity.
  - repeat constructor; discriminate.
Defined.

(** No call other than an equity update with a positive value. *)
Definition no_positive_equity (c : Call) : Prop :=
  match c with
  | UpdateEquity e => (0 <? e)%float = false
  | _ => True
  end.

(** C10. While the current equity has never been set to a positive value,
    no call halts trading: the daily-loss test of [recordTrade] is guarded by
    [currentEquity > 0]. *)
Theorem no_halt_without_positive_equity (s : RiskManager) (calls : list Call) :
  isTradingAllowed s = true ->
  (0 <? currentEquity s)%float = false ->
  Forall no_positive_equity calls ->
  isTradingAllowed (run s calls) = true.
Proof.
  intros Ha He Hc. revert s Ha He.
  induction Hc as [| c calls Hc _ IH]; intros s Ha He; [ exact Ha |].
  cbn [run fold_left]. unfold isTradingAllowed in *.
  apply negb_true_iff in Ha.
  destruct c; cbn [no_positive_equity] in Hc; apply IH;
    cbn [step updateEquity recordTrade resetDailyPnL setLimits with_limits
         tradingHalted currentEquity];
    rewrite ?He, ?Ha; try reflexivity; assumption.
Qed.

(** From a fresh manager, losses of any size leave trading allowed. *)
Lemma no_halt_without_positive_equity_witness :
  isTradingAllowed
    (run init [RecordTrade (loss 1000000); UpdateEquity 0;
               RecordTrade (loss 1e9); UpdateEquity (-5); RecordTrade (gain 3)])
  = true.
Proof.
  apply no_halt_without_positive_equity.
  - reflexivity.
  - reflexivity.
  - repeat constructor.
Defined.

End RiskProps.

(** ** Risk manager: position validation and value at risk *)

Module RiskMetricsProps.
Import Risk FloatFacts.

(** One open position of 4000 shares entered at 0.50: an exposure of 2000. *)
Definition held (q : number) : Position :=
  {| marketQuestion := "Will BTC close above 100k?"; entryPrice := 0.5;
     currentPrice := 0.5; quantity := q; stopLoss := None; takeProfit := None |}.


(** The sample standard deviation in the spec's words: the root of the sum
    of squared deviations from the mean over [n - 1]. *)
Definition sample_std_dev (xs : list number) : number :=
  let n := of_nat (length xs) in
  let mean := (sum_by (fun x => x) xs / n)%float in
  sqrt (sum_by (fun x => Math_pow2 (x - mean)) xs / (n - 1)).

(** The spec's estimate: the sample standard deviation of the unrealized
    returns, 0.1 with no position or a degenerate deviation. *)
Definition spec_stdDev (positions : list Position) : number :=
  match positions with
  | [] => 0.1%float
  | _ => or_else (sample_std_dev (map unrealizedReturn positions)) 0.1
  end.

(** The population standard deviation: the same sum over [n]. *)
Definition population_std_dev (xs : list number) : number :=
  let n := of_nat (length xs) in
  let mean := (sum_by (fun x => x) xs / n)%float in
  sqrt (sum_by (fun x => Math_pow2 (x - mean)) xs / n).

(** Two positions entered at 0.50, now at 0.55 and 0.65: returns of 10% and
    30%. *)
Definition two_positions : list Position :=
  [ {| marketQuestion := "Will BTC close above 100k?"; entryPrice := 0.5;
       currentPrice := 0.55; quantity := 1000; stopLoss := None;
       takeProfit := None |};
    {| marketQuestion := "Will the election be called early?";
       entryPrice := 0.5; currentPrice := 0.65; quantity := 1000;
       stopLoss := None; takeProfit := None |} ].

(** C9, as stated, fails: on returns of 10% and 30% the sample standard
    deviation is about 0.1414 and the code's estimate about 0.1, so the value
    at risk (about 165) is below [totalExposure * sampleStdDev * 1.65] (about
    233). *)
Lemma valueAtRisk_not_sample_deviation :
  let m := calculateMetrics init two_positions 10000 in
  lt (valueAtRisk m) (totalExposure m * spec_stdDev two_positions * 1.65)
  /\ lt (valueAtRisk m) 166 /\ lt 233 (totalExposure m * spec_stdDev two_positions * 1.65).
Proof. vm_compute. repeat split. Qed.

(** C9, amended. [calculateMetrics] returns
    [valueAtRisk = totalExposure * stdDev * 1.65] with [totalExposure] the
    sum of [entryPrice * quantity] and [stdDev] the population standard
    deviation (over n, not n - 1) of the unrealized returns
    [(currentPrice - entryPrice) / entryPrice], replaced by 0.1 when there is
    no position or when that deviation is 0 or NaN. *)
Theorem valueAtRisk_correct
    (s : RiskManager) (positions : list Position) (bankroll : number) :
  let m := calculateMetrics s positions bankroll in
  let sigma := population_std_dev (map unrealizedReturn positions) in
  let stdDev :=
    match positions with
    | [] => 0.1%float
    | _ => if is_nan sigma || (sigma =? 0)%float then 0.1%float else sigma
    end in
  totalExposure m = sum_by positionValue positions
  /\ valueAtRisk m = (totalExposure m * stdDev * 1.65)%float.
Proof.
  cbv zeta. split; [ reflexivity |].
  cbn [calculateMetrics valueAtRisk totalExposure]. f_equal. f_equal.
  unfold estimateStdDev, population_std_dev, or_else, truthy, sum_by.
  destruct positions as [| p ps]; [ reflexivity |].
  cbn [length Nat.eqb].
  destruct (is_nan _ || _); reflexivity.
Qed.

(** The two defaults of the estimate, on concrete portfolios: no position,
    and a single position (deviation 0). *)
Lemma estimateStdDev_defaults :
  estimateStdDev [] = 0.1%float /\ estimateStdDev [held 4000] = 0.1%float
  /\ population_std_dev (map unrealizedReturn [held 4000]) = 0%float.
Proof. vm_compute. repeat split. Qed.

End RiskMetricsProps.

(** ** Spike detector *)

Module SpikeProps.
Import Schema Spike FloatFacts FloatNaN FloatOne Clocks.

Section WithClock.
Variable clock : Clock.

(** *** What one call does to the state *)

(** The point that [recordPrice] appends. *)
Definition new_point (s : SpikeDetector) (m : string) (p : number)
    (v : option number) : PricePoint :=
  {| marketId := m; price := p; timestamp := clock (clock_reads s);
     pp_volume := v |}.

Lemma recordPrice_history (s : SpikeDetector) (m m' : string) (p : number)
    (v : option number) :
  getPriceHistory (recordPrice clock s m p v) m' =
    if decide (m = m') then
      let h := getPriceHistory s m ++ [new_point s m p v] in
      if (defaultWindowSize s <? length h)%nat then tail h else h
    else getPriceHistory s m'.
Proof.
  unfold getPriceHistory, recordPrice. cbn [priceHistory].
  rewrite lookup_insert. destruct (decide (m = m')); reflexivity.
Qed.

Lemma detectSpike_none (s : SpikeDetector) (m : string) (st : SpikeSettings) :
  fst (detectSpike clock s m st) = None ->
  snd (detectSpike clock s m st) = s
  \/ snd (detectSpike clock s m st) = after_reads s 1.
Proof.
  unfold detectSpike.
  destruct (priceHistory s !! m) as [h|]; [| left; reflexivity ].
  destruct (length h <? 3)%nat; [ left; reflexivity |].
  destruct (clock (clock_reads s) <? _)%float; [ right; reflexivity |].
  destruct (abs _ <? _)%float; [ right; reflexivity |].
  cbn [fst]. discriminate.
Qed.

Lemma detectSpike_some (s s' : SpikeDetector) (m : string) (st : SpikeSettings)
    (ev : SpikeEvent) :
  detectSpike clock s m st = (Some ev, s') ->
  defaultWindowSize s' = defaultWindowSize s
  /\ priceHistory s' = priceHistory s
  /\ cooldowns s' =
       <[ m := (clock (3 + clock_reads s)%nat + cooldownMs st)%float ]> (cooldowns s)
  /\ clock_reads s' = (4 + clock_reads s)%nat
  /\ (clock (clock_reads s) <? opt_or_else (cooldowns s !! m) 0)%float = false
  /\ exists h : list PricePoint,
       priceHistory s !! m = Some h /\ (3 <= length h)%nat
       /\ currentPrice ev = price (newest h)
       /\ previousPrice ev = referencePrice h
       /\ priceChange ev = (currentPrice ev - previousPrice ev)%float
       /\ priceChangePercent ev = abs (priceChange ev / previousPrice ev)
       /\ (priceChangePercent ev <? spikeThreshold st)%float = false
       /\ confidence ev =
            Math_min (priceChangePercent ev / (spikeThreshold st * 2)) 1.
Proof.
  unfold detectSpike.
  destruct (priceHistory s !! m) as [h|]; [| discriminate ].
  destruct (length h <? 3)%nat eqn:Hlen; [ discriminate |].
  destruct (clock (clock_reads s) <? _)%float eqn:Hcool; [ discriminate |].
  destruct (abs _ <? _)%float eqn:Hthr; [ discriminate |].
  intros H. injection H as <- <-. cbn.
  repeat split; try reflexivity; try assumption.
  exists h. apply Nat.ltb_ge in Hlen. repeat split; try assumption.
Qed.

(** During its cooldown a market yields no event and keeps its cooldown. *)
Lemma detectSpike_in_cooldown (s : SpikeDetector) (m : string)
    (st : SpikeSettings) (cooldownEnd : number) :
  cooldowns s !! m = Some cooldownEnd ->
  lt (clock (clock_reads s)) cooldownEnd ->
  fst (detectSpike clock s m st) = None.
Proof.
  intros Hc Hlt. unfold detectSpike.
  destruct (priceHistory s !! m) as [h|]; [| reflexivity ].
  destruct (length h <? 3)%nat; [ reflexivity |].
  rewrite Hc. cbn [opt_or_else].
  assert (Hblock : (clock (clock_reads s) <? or_else cooldownEnd 0)%float = true).
  { unfold or_else, truthy.
    destruct (is_nan cooldownEnd) eqn:Hn.
    - rewrite (lt_num_r _ _ Hlt) in Hn. discriminate.
    - cbn [orb negb]. destruct (cooldownEnd =? 0)%float eqn:Hz; cbn [negb].
      + exact (lt_eqb_r _ _ _ Hlt Hz).
      + exact Hlt. }
  rewrite Hblock. reflexivity.
Qed.


(** *** Bounded history *)

Lemma tail_drop {A} (l : list A) : tail l = drop 1 l.
Proof. destruct l; reflexivity. Qed.

(** Appending to a window that holds the last [w] points and evicting the
    head when over capacity gives the last [w] points again. *)
Lemma slice_last_push {A} (w : nat) (acc : list A) (x : A) :
  let h := slice_last w acc ++ [x] in
  (if (w <? length h)%nat then tail h else h) = slice_last w (acc ++ [x]).
Proof.
  cbv zeta. unfold slice_last.
  rewrite !length_app, length_drop. cbn [length].
  destruct (Nat.ltb_spec w (length acc - (length acc - w) + 1)) as [H|H].
  - rewrite tail_drop.
    replace (length acc + 1 - w) with (S (length acc - w)) by lia.
    rewrite <- (drop_app_le acc [x] (length acc - w)) by lia.
    rewrite drop_drop. f_equal. lia.
  - replace (length acc - w) with 0 by lia.
    replace (length acc + 1 - w) with 0 by lia. reflexivity.
Qed.

Lemma slice_last_length {A} (w : nat) (l : list A) :
  length (slice_last w l) = Nat.min w (length l).
Proof. unfold slice_last. rewrite length_drop. lia. Qed.

(** The points recorded for market [m] over the calls [cs] since the last
    [clearHistory], oldest first, each stamped with the clock reading of its
    call; [acc] holds those recorded before. *)
Fixpoint recorded (s : SpikeDetector) (cs : list Call) (m : string)
    (acc : list PricePoint) : list PricePoint :=
  match cs with
  | [] => acc
  | c :: rest =>
      recorded (step clock s c) rest m
        match c with
        | RecordPrice m' p v =>
            if decide (m' = m) then acc ++ [new_point s m' p v] else acc
        | DetectSpike _ _ => acc
        | ClearHistory => []
        end
  end.

Lemma detectSpike_keeps_history (s : SpikeDetector) (m : string)
    (st : SpikeSettings) :
  priceHistory (snd (detectSpike clock s m st)) = priceHistory s
  /\ defaultWindowSize (snd (detectSpike clock s m st)) = defaultWindowSize s.
Proof.
  destruct (detectSpike clock s m st) as [[ev|] s'] eqn:E.
  - apply detectSpike_some in E. cbn [snd]. tauto.
  - pose proof (detectSpike_none s m st) as H. rewrite E in H. cbn [fst snd] in *.
    destruct (H eq_refl) as [-> | ->]; split; reflexivity.
Qed.

Lemma step_window (s : SpikeDetector) (c : Call) :
  defaultWindowSize (step clock s c) = defaultWindowSize s.
Proof.
  destruct c; cbn [step]; try reflexivity.
  apply detectSpike_keeps_history.
Qed.

Lemma run_window (s : SpikeDetector) (cs : list Call) :
  defaultWindowSize (run clock s cs) = defaultWindowSize s.
Proof.
  revert s. induction cs as [| c cs IH]; intros s; [ reflexivity |].
  cbn [run fold_left]. fold (run clock (step clock s c) cs).
  rewrite IH. apply step_window.
Qed.

Lemma history_is_window (s : SpikeDetector) (cs : list Call) (m : string)
    (acc : list PricePoint) :
  getPriceHistory s m = slice_last (defaultWindowSize s) acc ->
  getPriceHistory (run clock s cs) m
  = slice_last (defaultWindowSize s) (recorded s cs m acc).
Proof.
  revert s acc. induction cs as [| c cs IH]; intros s acc Hs; [ exact Hs |].
  cbn [run fold_left recorded]. fold (run clock (step clock s c) cs).
  rewrite <- (step_window s c). apply IH. rewrite step_window.
  destruct c as [m' p v | m' st |]; cbn [step].
  - rewrite recordPrice_history. destruct (decide (m' = m)) as [->|Hne].
    + rewrite Hs. apply slice_last_push.
    + exact Hs.
  - unfold getPriceHistory in *.
    rewrite (proj1 (detectSpike_keeps_history s m' st)). exact Hs.
  - unfold getPriceHistory, clearHistory. cbn [priceHistory].
    rewrite lookup_empty. destruct (defaultWindowSize s); reflexivity.
Qed.


(** The number of [recordPrice] calls for market [m]. *)
Definition records_for (m : string) (cs : list Call) : nat :=
  length (List.filter (fun c => match c with
                           | RecordPrice m' _ _ => bool_decide (m' = m)
                           | _ => false
                           end) cs).

Definition not_clear (c : Call) : Prop := c <> ClearHistory.

Lemma recorded_length (s : SpikeDetector) (cs : list Call) (m : string)
    (acc : list PricePoint) :
  Forall not_clear cs ->
  length (recorded s cs m acc) = length acc + records_for m cs.
Proof.
  intros H. revert s acc. induction H as [| c cs Hc _ IH]; intros s acc.
  - cbn. lia.
  - cbn [recorded]. rewrite IH. unfold records_for. cbn [List.filter].
    destruct c as [m' p v | m' st |]; [| cbn; lia | exfalso; apply Hc; reflexivity ].
    destruct (decide (m' = m)) as [->|Hne].
    + rewrite bool_decide_eq_true_2 by reflexivity.
      rewrite length_app. cbn [length]. lia.
    + rewrite bool_decide_eq_false_2 by exact Hne. reflexivity.
Qed.

(** C7, amended. From a new detector with window [w], after any calls the
    history kept for a market is exactly the last [w] of the points recorded
    for it since the last [clearHistory], in the order of their recording; it
    never holds more than [w] points; once more than [w] points have been
    recorded for the market (no [clearHistory] among the calls) it holds
    exactly [w]; and a [recordPrice] on a full history drops its oldest point
    and no other. *)
Theorem bounded_fifo_history (w : nat) (cs : list Call) (m : string) :
  let s := run clock (create w) cs in
  let pts := recorded (create w) cs m [] in
  getPriceHistory s m = slice_last w pts
  /\ (length (getPriceHistory s m) <= w)%nat
  /\ (Forall not_clear cs -> (w < records_for m cs)%nat ->
      length (getPriceHistory s m) = w
      /\ length pts = records_for m cs)
  /\ (forall (p : number) (v : option number),
        let h := getPriceHistory s m in
        getPriceHistory (recordPrice clock s m p v) m =
          if (length h <? w)%nat then h ++ [new_point s m p v]
          else tail (h ++ [new_point s m p v])).
Proof.
  cbv zeta.
  assert (Hw : getPriceHistory (run clock (create w) cs) m
               = slice_last w (recorded (create w) cs m [])).
  { apply (history_is_window (create w) cs m []).
    unfold getPriceHistory, create. cbn [priceHistory defaultWindowSize].
    rewrite lookup_empty. destruct w; reflexivity. }
  assert (Hlen : (length (getPriceHistory (run clock (create w) cs) m) <= w)%nat).
  { rewrite Hw, slice_last_length. lia. }
  split; [ exact Hw | split; [ exact Hlen | split ]].
  - intros Hc Hn. rewrite Hw, slice_last_length.
    rewrite (recorded_length _ _ _ _ Hc). cbn [length]. lia.
  - intros p v. rewrite recordPrice_history.
    destruct (decide (m = m)) as [_|Hne]; [| congruence ].
    cbv zeta.
    rewrite run_window, length_app. cbn [create defaultWindowSize]. cbn [length].
    destruct (Nat.ltb_spec w (length (getPriceHistory (run clock (create w) cs) m) + 1)),
             (Nat.ltb_spec (length (getPriceHistory (run clock (create w) cs) m)) w);
      try reflexivity; lia.
Qed.


(** *** Cooldown *)

Lemma step_reads (s : SpikeDetector) (c : Call) :
  (clock_reads s <= clock_reads (step clock s c))%nat.
Proof.
  destruct c as [m p v | m st |]; cbn [step recordPrice clearHistory clock_reads];
    try lia.
  destruct (detectSpike clock s m st) as [[ev|] s'] eqn:E.
  - apply detectSpike_some in E. cbn [snd]. lia.
  - pose proof (detectSpike_none s m st) as H. rewrite E in H. cbn [fst snd] in *.
    destruct (H eq_refl) as [-> | ->]; cbn; lia.
Qed.

Lemma run_reads (s : SpikeDetector) (cs : list Call) :
  (clock_reads s <= clock_reads (run clock s cs))%nat.
Proof.
  revert s. induction cs as [| c cs IH]; intros s; [ reflexivity |].
  cbn [run fold_left]. fold (run clock (step clock s c) cs).
  etransitivity; [ apply step_reads | apply IH ].
Qed.

(** While every reading is before the cooldown end of market [m], no call
    other than [clearHistory] moves that end. *)
Lemma cooldown_kept (s : SpikeDetector) (cs : list Call) (m : string)
    (cooldownEnd : number) :
  monotone clock ->
  Forall not_clear cs ->
  cooldowns s !! m = Some cooldownEnd ->
  lt (clock (clock_reads (run clock s cs))) cooldownEnd ->
  cooldowns (run clock s cs) !! m = Some cooldownEnd.
Proof.
  intros Hmono Hcs. revert s.
  induction Hcs as [| c cs Hc _ IH]; intros s Hs Hlt; [ exact Hs |].
  cbn [run fold_left] in *. fold (run clock (step clock s c) cs) in *.
  apply IH; [| exact Hlt ].
  assert (Hnow : lt (clock (clock_reads s)) cooldownEnd).
  { eapply le_lt_trans; [| exact Hlt ]. apply Hmono.
    etransitivity; [ apply step_reads | apply run_reads ]. }
  destruct c as [m' p v | m' st |]; cbn [step].
  - exact Hs.
  - destruct (detectSpike clock s m' st) as [[ev|] s'] eqn:E; cbn [snd].
    + destruct (decide (m' = m)) as [->|Hne].
      * pose proof (detectSpike_in_cooldown s m st _ Hs Hnow) as Hb.
        rewrite E in Hb. discriminate.
      * apply detectSpike_some in E. destruct E as (_ & _ & -> & _).
        rewrite lookup_insert_ne by exact Hne. exact Hs.
    + pose proof (detectSpike_none s m' st) as H. rewrite E in H.
      cbn [fst snd] in H. destruct (H eq_refl) as [-> | ->]; exact Hs.
  - exfalso. apply Hc. reflexivity.
Qed.

(** C6, amended. A detection sets the market's cooldown end to the clock
    reading at that point plus [settings.cooldownMs]; with a clock that does
    not run backwards, after any further calls other than [clearHistory]
    (which forgets every cooldown), a [detectSpike] for that market made
    before the cooldown end returns no event, whatever its settings. *)
Theorem cooldown_suppression (s s1 : SpikeDetector) (m : string)
    (st : SpikeSettings) (ev : SpikeEvent) :
  detectSpike clock s m st = (Some ev, s1) ->
  let cooldownEnd := (clock (3 + clock_reads s)%nat + cooldownMs st)%float in
  cooldowns s1 !! m = Some cooldownEnd
  /\ forall (cs : list Call) (st' : SpikeSettings),
       monotone clock ->
       Forall not_clear cs ->
       lt (clock (clock_reads (run clock s1 cs))) cooldownEnd ->
       fst (detectSpike clock (run clock s1 cs) m st') = None.
Proof.
  intros E cooldownEnd.
  assert (Hs1 : cooldowns s1 !! m = Some cooldownEnd).
  { apply detectSpike_some in E. destruct E as (_ & _ & -> & _).
    apply lookup_insert_eq. }
  split; [ exact Hs1 |].
  intros cs st' Hmono Hcs Hlt.
  eapply detectSpike_in_cooldown; [| exact Hlt ].
  apply cooldown_kept; assumption.
Qed.


(** *** Division by the reference price *)

(** C3, amended. [detectSpike] has no zero guard and clamps no price; its
    only price divisor is the reference price.  When the reference price of
    a returned event is finite and not zero and its current price is not NaN,
    the relative change it carries is not NaN and is at least the threshold.
    The current price is not a divisor: a current price of zero against a
    finite non-zero reference is a move of exactly 100%, reported whenever
    the threshold does not exceed 1. *)
Theorem detectSpike_division :
  (forall (s s' : SpikeDetector) (m : string) (st : SpikeSettings)
          (ev : SpikeEvent),
     detectSpike clock s m st = (Some ev, s') ->
     is_nan (currentPrice ev) = false ->
     is_finite (previousPrice ev) = true ->
     (previousPrice ev =? 0)%float = false ->
     is_nan (priceChangePercent ev) = false
     /\ (is_nan (spikeThreshold st) = false ->
         le (spikeThreshold st) (priceChangePercent ev)))
  /\ (forall (s : SpikeDetector) (m : string) (st : SpikeSettings)
             (h : list PricePoint),
        priceHistory s !! m = Some h ->
        (3 <= length h)%nat ->
        (clock (clock_reads s) <? opt_or_else (cooldowns s !! m) 0)%float = false ->
        (price (newest h) =? 0)%float = true ->
        is_finite (referencePrice h) = true ->
        (referencePrice h =? 0)%float = false ->
        (1 <? spikeThreshold st)%float = false ->
        exists ev : SpikeEvent,
          fst (detectSpike clock s m st) = Some ev
          /\ priceChangePercent ev = 1%float
          /\ previousPrice ev = referencePrice h).
Proof.
  split.
  - intros s s' m st ev E Hcur Hfin Hnz.
    apply detectSpike_some in E.
    destruct E as (_ & _ & _ & _ & _ & h & _ & _ & _ & _ & Hpc & Hpcp & Hthr & _).
    assert (Hn : is_nan (priceChangePercent ev) = false).
    { rewrite Hpcp. apply abs_num, div_num; try assumption.
      rewrite Hpc. apply sub_num; assumption. }
    split; [ exact Hn |].
    intros Ht. apply not_lt_le; assumption.
  - intros s m st h Hh Hlen Hcool Hzero Hfin Hnz Hthr.
    unfold detectSpike. rewrite Hh.
    destruct (Nat.ltb_spec (length h) 3) as [Hlt|_]; [ lia |].
    rewrite Hcool.
    rewrite (zero_sub _ _ Hzero (finite_nonzero_mantissa _ Hfin Hnz)), Hthr.
    eexists. cbn [fst]. split; [ reflexivity |].
    cbn [priceChangePercent previousPrice]. split; reflexivity.
Qed.

(** *** [analyzeMarkets] as a sequence of calls *)

(** What the histories and cooldowns depend on: everything but the log of
    detected events. *)
Definition core (s : SpikeDetector)
    : nat * gmap string (list PricePoint) * gmap string number * nat :=
  (defaultWindowSize s, priceHistory s, cooldowns s, clock_reads s).

Definition analyze_calls (markets : list Market) (settings : SpikeSettings)
    : list Call :=
  flat_map (fun market =>
    [RecordPrice (id market) (outcomePrice market 0) (Some (volume market));
     DetectSpike (id market) settings]) markets.

Lemma recordPrice_core (s1 s2 : SpikeDetector) (m : string) (p : number)
    (v : option number) :
  core s1 = core s2 ->
  core (recordPrice clock s1 m p v) = core (recordPrice clock s2 m p v).
Proof.
  unfold core, recordPrice. cbn. intros H. injection H as -> -> -> ->.
  reflexivity.
Qed.

Lemma detectSpike_core (s1 s2 : SpikeDetector) (m : string)
    (st : SpikeSettings) :
  core s1 = core s2 ->
  fst (detectSpike clock s1 m st) = fst (detectSpike clock s2 m st)
  /\ core (snd (detectSpike clock s1 m st))
     = core (snd (detectSpike clock s2 m st)).
Proof.
  unfold core. intros H. injection H as Hw Hh Hc Hr.
  unfold detectSpike. rewrite Hh, Hc, Hr.
  destruct (priceHistory s2 !! m) as [h|]; cbn [fst snd];
    [| rewrite ?Hw, ?Hh, ?Hc, ?Hr; split; reflexivity ].
  destruct (length h <? 3)%nat; cbn [fst snd];
    [ rewrite ?Hw, ?Hh, ?Hc, ?Hr; split; reflexivity |].
  destruct (clock (clock_reads s2) <? _)%float;
    cbn [fst snd after_reads defaultWindowSize priceHistory cooldowns clock_reads];
    [ rewrite ?Hw, ?Hh, ?Hc, ?Hr; split; reflexivity |].
  destruct (abs _ <? _)%float;
    cbn [fst snd after_reads defaultWindowSize priceHistory cooldowns clock_reads];
    rewrite ?Hw, ?Hh, ?Hc, ?Hr; split; reflexivity.
Qed.

(** The histories, cooldowns and clock readings that [analyzeMarkets] leaves
    are those of a [recordPrice] and a [detectSpike] per market, in order. *)
Lemma analyzeMarkets_as_calls (s : SpikeDetector) (markets : list Market)
    (settings : SpikeSettings) :
  core (snd (analyzeMarkets clock s markets settings))
  = core (run clock s (analyze_calls markets settings)).
Proof.
  unfold analyzeMarkets. generalize (@nil SpikeEvent) as spikes.
  assert (H : core s = core s) by reflexivity. revert H.
  generalize s at 2 4 as s'. revert s.
  induction markets as [| market rest IH]; intros s s' H spikes;
    [ exact H |].
  cbn [analyzeMarkets_loop analyze_calls flat_map app run fold_left step].
  pose proof (recordPrice_core s s' (id market) (outcomePrice market 0)
                (Some (volume market)) H) as H1.
  destruct (detectSpike_core _ _ (id market) settings H1) as [_ H2].
  destruct (detectSpike clock (recordPrice clock s _ _ _) (id market) settings)
    as [[spike|] s1]; cbn [snd] in H2; apply IH; exact H2.
Qed.

End WithClock.

(** C7, as stated, fails: with the default window of 30, after 31 calls for a
    market the history holds 30 points, not the 31 most recent ones; and a
    [clearHistory] among the calls leaves fewer than the window. *)
Lemma history_holds_window_not_all :
  let cs := map (fun k => RecordPrice "m" (of_nat k) None) (seq 1 31) in
  let s := run ms_clock init cs in
  let pts := recorded ms_clock init cs "m" [] in
  records_for "m" cs = 31%nat
  /\ length pts = 31%nat
  /\ length (getPriceHistory s "m") = 30%nat
  /\ getPriceHistory s "m" <> slice_last 31 pts
  /\ length (getPriceHistory (run ms_clock init (cs ++ [ClearHistory; RecordPrice "m" 1 None])) "m")
     = 1%nat.
Proof.
  cbv zeta. repeat split; try (vm_compute; reflexivity).
  intros H. apply (f_equal (@length _)) in H. vm_compute in H. discriminate.
Qed.


(** With the default window, 31 recorded prices leave the last 30. *)
Lemma bounded_fifo_history_witness :
  let cs := map (fun k => RecordPrice "m" (of_nat k) None) (seq 1 31) in
  length (getPriceHistory (run ms_clock init cs) "m") = 30%nat
  /\ length (recorded ms_clock init cs "m" []) = records_for "m" cs.
Proof.
  cbv zeta.
  refine (proj1 (proj2 (proj2 (bounded_fifo_history ms_clock 30 _ "m"))) _ _).
  - repeat constructor; discriminate.
  - vm_compute. lia.
Defined.

(** Three prices for a market, the last one 4% above the others. *)
Definition spiking : list Call :=
  [RecordPrice "m" 0.5 None; RecordPrice "m" 0.5 None; RecordPrice "m" 0.52 None].

Definition settings2 : SpikeSettings :=
  {| spikeThreshold := 0.02; cooldownMs := 30000 |}.

(** After a detection, a still larger move a few milliseconds later is not
    reported. *)
Lemma cooldown_suppression_witness :
  let s := run ms_clock init spiking in
  fst (detectSpike ms_clock
         (run ms_clock (snd (detectSpike ms_clock s "m" settings2))
              [RecordPrice "m" 0.9 None; DetectSpike "m" settings2;
               RecordPrice "other" 0.1 None])
         "m" settings2) = None.
Proof.
  cbv zeta.
  destruct (detectSpike ms_clock (run ms_clock init spiking) "m" settings2)
    as [[ev|] s1] eqn:E; [| vm_compute in E; discriminate ].
  cbn [snd].
  refine (proj2 (cooldown_suppression ms_clock _ s1 "m" settings2 ev E) _ _ _ _ _).
  - exact ms_clock_monotone.
  - repeat constructor; discriminate.
  - vm_compute in E. injection E as _ <-. vm_compute. reflexivity.
Defined.

(** C6, as stated, fails: [clearHistory] forgets the cooldown, so the same
    market is reported twice, the second time 7 ms after the first and well
    inside its 30 s cooldown. *)
Lemma second_spike_after_clearHistory :
  let s := run ms_clock init spiking in
  let first := detectSpike ms_clock s "m" settings2 in
  let s2 := run ms_clock (snd first) (ClearHistory :: spiking) in
  let second := detectSpike ms_clock s2 "m" settings2 in
  is_Some (fst first) /\ is_Some (fst second)
  /\ cooldowns (snd first) !! "m" = Some 1700000030006%float
  /\ ms_clock (clock_reads s2) = 1700000000010%float
  /\ lt (ms_clock (clock_reads s2)) 1700000030006.
Proof.
  cbv zeta. repeat split; try (vm_compute; eexists; reflexivity);
    vm_compute; reflexivity.
Qed.


Definition prices (ps : list number) : list Call :=
  map (fun p => RecordPrice "m" p None) ps.

(** C3, as stated, fails.  A reference price of zero is divided by: against
    a current price of 0.5 the event carries an infinite relative change, and
    against a current price of zero a NaN change and a NaN confidence.  A
    current price of zero against a reference of 0.5 is reported as well. *)
Lemma detectSpike_divides_by_zero :
  (exists ev,
     fst (detectSpike ms_clock (run ms_clock init (prices [0; 0; 0; 0; 0.5]%float))
            "m" settings2) = Some ev
     /\ previousPrice ev = 0%float
     /\ priceChangePercent ev = infinity)
  /\ (exists ev,
        fst (detectSpike ms_clock (run ms_clock init (prices [0; 0; 0]%float))
               "m" settings2) = Some ev
        /\ previousPrice ev = 0%float /\ currentPrice ev = 0%float
        /\ is_nan (priceChangePercent ev) = true
        /\ is_nan (confidence ev) = true)
  /\ (exists ev,
        fst (detectSpike ms_clock (run ms_clock init (prices [0.5; 0.5; 0]%float))
               "m" settings2) = Some ev
        /\ currentPrice ev = 0%float
        /\ priceChangePercent ev = 1%float).
Proof.
  repeat split; eexists; (split; [ vm_compute; reflexivity |]);
    repeat split; vm_compute; reflexivity.
Qed.

(** A market at 0.5 that drops to zero is reported as a 100% move. *)
Lemma detectSpike_division_witness :
  exists ev : SpikeEvent,
    fst (detectSpike ms_clock (run ms_clock init (prices [0.5; 0.5; 0]%float))
           "m" settings2) = Some ev
    /\ priceChangePercent ev = 1%float
    /\ previousPrice ev = 0.5%float.
Proof.
  refine (proj2 (detectSpike_division ms_clock) _ "m" settings2
            (getPriceHistory (run ms_clock init (prices [0.5; 0.5; 0]%float)) "m")
            _ _ _ _ _ _ _);
    vm_compute; (reflexivity || lia).
Defined.

End SpikeProps.

(** ** Arbitrage scanner *)

Module ArbitrageProps.
Import Schema Arbitrage FloatFacts Clocks.

(** [price(yes) + price(no) + fee] *)
Definition netCost (market : Market) : number :=
  (outcomePrice market 0 + outcomePrice market 1 + TRANSACTION_FEE)%float.

(** A two-outcome market whose net cost is below 1. *)
Definition flagged (market : Market) : bool :=
  (length (outcomes market) =? 2)%nat && (netCost market <? 1)%float.

(** The opportunity [o] is the one created for [market]. *)
Definition describes (market : Market) (o : ArbitrageOpportunity) : Prop :=
  type o = binary /\ status o = active
  /\ leg_id (market1 o) = id market /\ leg_id (market2 o) = id market
  /\ leg_price (market1 o) = outcomePrice market 0
  /\ leg_price (market2 o) = outcomePrice market 1
  /\ totalCost o = netCost market
  /\ guaranteedPayout o = 1%float
  /\ profit o = (1 - netCost market)%float
  /\ profitPercent o = (profit o / netCost market * 100)%float.

(** [a] comes before [b] in a registry: [b] was not detected after [a]. *)
Definition not_older (a b : ArbitrageOpportunity) : Prop :=
  le (detectedAt b) (detectedAt a).

Definition newest_first (l : list ArbitrageOpportunity) : Prop :=
  StronglySorted not_older l.

Section WithClock.
Variable clock : Clock.

(** The previous opportunities still under five minutes old, each at the
    clock reading of its own test, the first of which is reading [k]. *)
Definition still_fresh (k : nat) (os : list ArbitrageOpportunity)
    : list ArbitrageOpportunity :=
  map fst
    (List.filter (fun ot => (snd ot - detectedAt (fst ot) <? 300000)%float)
       (combine os (map clock (seq k (length os))))).

Lemma scan_markets_spec (markets : list Market) (k : nat)
    (acc : list ArbitrageOpportunity) :
  exists new : list ArbitrageOpportunity,
    scan_markets clock k markets acc = (acc ++ new, 2 * length new + k)%nat
    /\ Forall2 describes (List.filter flagged markets) new
    /\ Forall (fun o => exists i, (k <= i < 2 * length new + k)%nat
                                  /\ detectedAt o = clock i) new.
Proof.
  revert k acc. induction markets as [| market rest IH]; intros k acc.
  - exists []. cbn. rewrite app_nil_r. repeat split; constructor.
  - cbn [scan_markets List.filter]. unfold flagged at 1. fold (netCost market).
    destruct (length (outcomes market) =? 2)%nat; cbn [negb andb].
    + unfold netCost at 1. unfold netCost at 1.
      fold (netCost market).
      destruct (netCost market <? 1)%float.
      * edestruct IH as (new & -> & HF & Ht).
        eexists (_ :: new). rewrite <- app_assoc. cbn [app length].
        split; [ f_equal; lia |]. split.
        -- constructor; [| exact HF ]. repeat split.
        -- constructor.
           ++ exists (S k). cbn [detectedAt]. split; [ lia | reflexivity ].
           ++ eapply Forall_impl; [ exact Ht |].
              intros o (i & Hi & Ho). exists i. split; [ lia | exact Ho ].
      * apply IH.
    + apply IH.
Qed.

Lemma unexpired_spec (os : list ArbitrageOpportunity) (k : nat) :
  unexpired clock k os = (still_fresh k os, length os + k)%nat.
Proof.
  revert k. induction os as [| o rest IH]; intros k; [ reflexivity |].
  cbn [unexpired]. rewrite IH. unfold still_fresh.
  cbn [length seq map combine List.filter fst snd].
  destruct (clock k - detectedAt o <? 300000)%float; cbn [map fst];
    f_equal; lia.
Qed.

Lemma still_fresh_sorted (os : list ArbitrageOpportunity) (k : nat) :
  newest_first os -> newest_first (still_fresh k os).
Proof.
  unfold newest_first, still_fresh. intros H. revert k.
  induction H as [| o rest Hs IH Ho]; intros k; [ constructor |].
  cbn [length seq map combine List.filter].
  assert (Hall : Forall (not_older o)
                   (map fst (List.filter
                      (fun ot => (snd ot - detectedAt (fst ot) <? 300000)%float)
                      (combine rest (map clock (seq (S k) (length rest))))))).
  { rewrite Forall_forall in *. intros b Hb. apply Ho.
    apply list_elem_of_In in Hb. apply in_map_iff in Hb.
    destruct Hb as ([b' t] & <- & Hb). apply filter_In in Hb.
    destruct Hb as [Hb _]. apply in_combine_l in Hb.
    apply list_elem_of_In. exact Hb. }
  destruct (_ <? _)%float; cbn [map fst snd].
  - constructor; [ apply IH | exact Hall ].
  - apply IH.
Qed.

Lemma still_fresh_subset (os : list ArbitrageOpportunity) (k : nat)
    (o : ArbitrageOpportunity) :
  In o (still_fresh k os) -> In o os.
Proof.
  unfold still_fresh. intros H. apply in_map_iff in H.
  destruct H as ([b t] & <- & Hb). apply filter_In in Hb.
  destruct Hb as [Hb _]. apply in_combine_l in Hb. exact Hb.
Qed.

(** The clock does not tick between readings [k] and [k']. *)
Definition steady (k k' : nat) : Prop :=
  forall i : nat, (k <= i < k')%nat -> clock i = clock k.

Lemma same_instant_sorted (l : list ArbitrageOpportunity) (now : number) :
  le now now -> Forall (fun o => detectedAt o = now) l -> newest_first l.
Proof.
  intros Hnow H. induction H as [| o l Ho Hl IH]; constructor; [ exact IH |].
  rewrite Forall_forall in *. intros b Hb. unfold not_older.
  rewrite Ho, (Hl b Hb). exact Hnow.
Qed.

Lemma scan_result (s : ArbitrageScanner) (markets : list Market) :
  exists new : list ArbitrageOpportunity,
    let k := (2 * length new + clock_reads s)%nat in
    scanBinaryArbitrage clock s markets =
      (new, {| opportunities :=
                 firstn 50 (new ++ still_fresh k (opportunities s));
               clock_reads := length (opportunities s) + k |})
    /\ Forall2 describes (List.filter flagged markets) new
    /\ Forall (fun o => exists i, (clock_reads s <= i < k)%nat
                                  /\ detectedAt o = clock i) new.
Proof.
  destruct (scan_markets_spec markets (clock_reads s) []) as (new & E & HF & Ht).
  exists new. cbv zeta. unfold scanBinaryArbitrage.
  rewrite E. cbn [app]. rewrite unexpired_spec. auto.
Qed.


Lemma scan_keeps_newest_first (s : ArbitrageScanner) (markets : list Market) :
  let new := fst (scanBinaryArbitrage clock s markets) in
  let s' := snd (scanBinaryArbitrage clock s markets) in
  let kept := still_fresh (2 * length new + clock_reads s) (opportunities s) in
  monotone clock ->
  steady (clock_reads s) (clock_reads s') ->
  newest_first (opportunities s) ->
  Forall (fun o => le (detectedAt o) (clock (clock_reads s))) (opportunities s) ->
  newest_first (new ++ kept)
  /\ Forall (fun o => le (detectedAt o) (clock (clock_reads s'))) (new ++ kept).
Proof.
  destruct (scan_result s markets) as (new & E & _ & Ht). cbv zeta in E.
  cbv zeta. rewrite E. cbn [fst snd clock_reads].
  set (k := (2 * length new + clock_reads s)%nat) in *.
  intros Hmono Hsteady Hsorted Hbound.
  set (now := clock (clock_reads s)) in *.
  assert (Hnow : le now now) by (apply Hmono; reflexivity).
  assert (Hnew : Forall (fun o => detectedAt o = now) new).
  { eapply Forall_impl; [ exact Ht |]. intros o (i & Hi & ->).
    apply Hsteady. lia. }
  assert (Hkept : Forall (fun o => le (detectedAt o) now)
                    (still_fresh k (opportunities s))).
  { rewrite Forall_forall in *. intros o Ho. apply Hbound.
    apply list_elem_of_In. apply list_elem_of_In in Ho.
    eapply still_fresh_subset. exact Ho. }
  assert (Hlater : le now (clock (length (opportunities s) + k))).
  { apply Hmono. lia. }
  split.
  - apply StronglySorted_app. split; [| split ].
    + intros a b Ha Hb. unfold not_older.
      rewrite Forall_forall in Hnew, Hkept.
      rewrite (Hnew a Ha). apply Hkept. exact Hb.
    + exact (same_instant_sorted new now Hnow Hnew).
    + apply still_fresh_sorted. exact Hsorted.
  - apply Forall_app. split.
    + eapply Forall_impl; [ exact Hnew |]. intros o ->. exact Hlater.
    + eapply Forall_impl; [ exact Hkept |]. intros o Ho.
      exact (FloatFacts.le_trans _ _ _ Ho Hlater).
Qed.

(** The opportunities in the order of their detection. *)
Definition oldest_first (l : list ArbitrageOpportunity) : Prop :=
  StronglySorted (fun a b => le (detectedAt a) (detectedAt b)) l.

Lemma scan_markets_sorted (markets : list Market) (k : nat)
    (acc : list ArbitrageOpportunity) :
  monotone clock ->
  exists new : list ArbitrageOpportunity,
    scan_markets clock k markets acc = (acc ++ new, 2 * length new + k)%nat
    /\ oldest_first new.
Proof.
  intros Hmono. revert k acc.
  induction markets as [| market rest IH]; intros k acc.
  - exists []. cbn. rewrite app_nil_r. split; [ reflexivity | constructor ].
  - cbn [scan_markets].
    destruct (negb (length (outcomes market) =? 2)%nat); [ apply IH |].
    destruct (_ <? 1)%float; [| apply IH ].
    match goal with
    | |- context [scan_markets _ _ _ (acc ++ [?o])] => set (opp := o)
    end.
    destruct (IH (2 + k)%nat (acc ++ [opp])) as (new & E & Hs).
    destruct (scan_markets_spec rest (2 + k)%nat (acc ++ [opp]))
      as (new' & E' & _ & Ht).
    assert (new' = new).
    { rewrite E in E'. injection E' as E' _. apply app_inv_head in E'.
      symmetry. exact E'. }
    subst new'.
    exists (opp :: new). rewrite E, <- app_assoc. cbn [app length].
    split; [ f_equal; lia |].
    constructor; [ exact Hs |].
    eapply Forall_impl; [ exact Ht |].
    intros o (i & Hi & ->). apply Hmono. lia.
Qed.

Lemma firstn_subset {A} (n : nat) (l : list A) (x : A) :
  In x (firstn n l) -> In x l.
Proof.
  intros H. rewrite <- (firstn_skipn n l). apply in_or_app. left. exact H.
Qed.

(** Scans made one after the other. *)
Definition scans (s : ArbitrageScanner) (batches : list (list Market))
    : ArbitrageScanner :=
  fold_left (fun s markets => snd (scanBinaryArbitrage clock s markets))
    batches s.

(** Every registered opportunity was stamped at an earlier clock reading. *)
Definition stamped_before (s : ArbitrageScanner) : Prop :=
  Forall (fun o => exists i, (i < clock_reads s)%nat /\ detectedAt o = clock i)
    (opportunities s).

Lemma scan_stamped_before (s : ArbitrageScanner) (markets : list Market) :
  stamped_before s ->
  stamped_before (snd (scanBinaryArbitrage clock s markets)).
Proof.
  unfold stamped_before. intros Hs.
  destruct (scan_result s markets) as (new & E & _ & Ht). cbv zeta in E.
  rewrite E. cbn [snd opportunities clock_reads].
  rewrite List.Forall_forall in *. intros o Ho.
  apply firstn_subset in Ho. apply in_app_or in Ho. destruct Ho as [Ho | Ho].
  - destruct (Ht o Ho) as (i & Hi & Hd). exists i. split; [ lia | exact Hd ].
  - apply still_fresh_subset in Ho. destruct (Hs o Ho) as (i & Hi & Hd).
    exists i. split; [ lia | exact Hd ].
Qed.

Lemma scans_stamped_before (s : ArbitrageScanner) (batches : list (list Market)) :
  stamped_before s -> stamped_before (scans s batches).
Proof.
  revert s. induction batches as [| markets rest IH]; intros s Hs; [ exact Hs |].
  cbn [scans fold_left]. apply IH, scan_stamped_before, Hs.
Qed.

(** With a clock that does not run backwards, a scan stamps its
    opportunities oldest first, and none of them is older than an
    opportunity registered before. *)
Lemma scan_recency (s : ArbitrageScanner) (markets : list Market) :
  monotone clock -> stamped_before s ->
  let new := fst (scanBinaryArbitrage clock s markets) in
  let kept := still_fresh (2 * length new + clock_reads s) (opportunities s) in
  oldest_first new
  /\ forall a b : ArbitrageOpportunity, In a new -> In b kept -> not_older a b.
Proof.
  intros Hmono Hs. cbv zeta.
  destruct (scan_result s markets) as (new & E & _ & Ht). cbv zeta in E.
  rewrite E. cbn [fst]. split.
  - destruct (scan_markets_sorted markets (clock_reads s) [] Hmono)
      as (new' & E' & Hsorted).
    unfold scanBinaryArbitrage in E. rewrite E' in E. cbn [app] in E.
    destruct (unexpired clock _ (opportunities s)) as [kept k'].
    injection E as <- _ _. exact Hsorted.
  - intros a b Ha Hb. unfold not_older.
    rewrite List.Forall_forall in Ht. destruct (Ht a Ha) as (i & Hi & ->).
    apply still_fresh_subset in Hb.
    unfold stamped_before in Hs. rewrite List.Forall_forall in Hs.
    destruct (Hs b Hb) as (j & Hj & ->). apply Hmono. lia.
Qed.

End WithClock.


Definition two_outcome (i : string) (yes no : number) : Market :=
  {| id := i; question := "Will it happen?"; outcomes := ["Yes"; "No"];
     outcomePrices := [yes; no]; volume := 1000 |}.

(** One reading per millisecond, for 120 readings. *)
Definition ticking : Clock :=
  table_clock (map (fun k => (1700000000000 + of_nat k)%float) (seq 0 120))
              1700000000120%float.

(** 51 two-outcome markets priced [0.45, 0.50]. *)
Definition fifty_one : list Market :=
  map (fun k => two_outcome (String (ascii_of_nat (48 + k)) "") 0.45 0.50)
    (seq 0 51).

(** C8, as stated, fails: the cap does not keep the 50 most recent.  A scan
    of 51 flagged markets, on a clock that advances by a millisecond per
    reading and never runs backwards, leaves a registry of 50 from which the
    opportunity found last is missing, and that one was detected after every
    opportunity kept. *)
Lemma cap_drops_newest :
  let new := fst (scanBinaryArbitrage ticking init fifty_one) in
  let s' := snd (scanBinaryArbitrage ticking init fifty_one) in
  monotone ticking
  /\ length new = 51%nat
  /\ opportunities s' = firstn 50 new
  /\ exists dropped : ArbitrageOpportunity,
       nth_error new 50 = Some dropped
       /\ leg_id (market1 dropped) = "b"%string
       /\ detectedAt dropped = 1700000000101%float
       /\ ~ In dropped (opportunities s')
       /\ Forall (fun o => lt (detectedAt o) (detectedAt dropped))
            (opportunities s').
Proof.
  cbv zeta. split; [ apply table_clock_monotone; vm_compute; reflexivity |].
  split; [ vm_compute; reflexivity |].
  split; [ vm_compute; reflexivity |].
  assert (Hd : exists d, nth_error (fst (scanBinaryArbitrage ticking init fifty_one)) 50
                         = Some d)
    by (vm_compute; eexists; reflexivity).
  destruct Hd as (d & Hd). exists d.
  assert (Hid : leg_id (market1 d) = "b"%string /\ detectedAt d = 1700000000101%float).
  { revert Hd. vm_compute. intros H. injection H as <-. split; reflexivity. }
  assert (Hall : forallb (fun o => (detectedAt o <? 1700000000101)%float)
                   (opportunities (snd (scanBinaryArbitrage ticking init fifty_one)))
                 = true) by (vm_compute; reflexivity).
  rewrite forallb_forall in Hall. destruct Hid as [Hid Hat].
  split; [ exact Hd |]. split; [ exact Hid |]. split; [ exact Hat |]. split.
  - intros Hin. specialize (Hall d Hin). rewrite Hat in Hall.
    vm_compute in Hall. discriminate.
  - apply List.Forall_forall. intros o Ho. unfold lt. rewrite Hat.
    apply Hall, Ho.
Qed.

(** C8, amended. [scanBinaryArbitrage] returns one opportunity for each
    two-outcome market whose net cost [priceYes + priceNo + 0.02] is below 1,
    in the order of the markets and for no other market, with total cost the
    net cost, [profit = 1 - netCost] and [profitPercent = profit / netCost *
    100].  The registry becomes the first 50 of the new opportunities, in
    market order, followed by the previous ones that are under five minutes
    old when tested.  On a clock that does not run backwards, after any
    scans from a new scanner, a scan stamps its opportunities oldest first
    and none of them is older than a previous one: the cut drops the previous
    opportunities first and then the new ones found last.  When moreover a
    scan stamps its opportunities with one instant, a registry ordered newest
    first stays so, and what the cut drops was detected no later than
    anything it keeps.  Prices [0.45, 0.50] are flagged, with net cost 0.97
    and profit 0.03 up to rounding; prices [0.50, 0.52] are not, with net
    cost 1.04. *)
Theorem scanBinaryArbitrage_correct :
  (forall (clock : Clock) (s : ArbitrageScanner) (markets : list Market),
     let new := fst (scanBinaryArbitrage clock s markets) in
     let s' := snd (scanBinaryArbitrage clock s markets) in
     let kept :=
       still_fresh clock (2 * length new + clock_reads s) (opportunities s) in
     Forall2 describes (List.filter flagged markets) new
     /\ opportunities s' = firstn 50 (new ++ kept)
     /\ (length (opportunities s') <= 50)%nat
     /\ (monotone clock ->
         steady clock (clock_reads s) (clock_reads s') ->
         newest_first (opportunities s) ->
         Forall (fun o => le (detectedAt o) (clock (clock_reads s)))
           (opportunities s) ->
         newest_first (opportunities s')
         /\ Forall (fun o => le (detectedAt o) (clock (clock_reads s')))
              (opportunities s')
         /\ forall a b : ArbitrageOpportunity,
              In a (opportunities s') -> In b (skipn 50 (new ++ kept)) ->
              not_older a b))
  /\ (forall (clock : Clock) (batches : list (list Market))
             (markets : list Market),
        monotone clock ->
        let s := scans clock init batches in
        let new := fst (scanBinaryArbitrage clock s markets) in
        let kept :=
          still_fresh clock (2 * length new + clock_reads s) (opportunities s) in
        oldest_first new
        /\ forall a b : ArbitrageOpportunity,
             In a new -> In b kept -> not_older a b)
  /\ (flagged (two_outcome "a" 0.45 0.50) = true
      /\ netCost (two_outcome "a" 0.45 0.50) = 0.97%float
      /\ lt (abs (1 - netCost (two_outcome "a" 0.45 0.50) - 0.03)) 1e-15)
  /\ (flagged (two_outcome "b" 0.50 0.52) = false
      /\ netCost (two_outcome "b" 0.50 0.52) = 1.04%float).
Proof.
  split; [| split; [| split; vm_compute; repeat split ]].
  - intros clock s markets new s' kept.
    pose proof (scan_keeps_newest_first clock s markets) as Hrec.
    cbv zeta in Hrec. fold new s' kept in Hrec.
    destruct (scan_result clock s markets) as (new0 & E & HF & _).
    cbv zeta in E.
    assert (Hreg : opportunities s' = firstn 50 (new ++ kept)).
    { subst new s' kept. rewrite E. reflexivity. }
    split; [ subst new; rewrite E; exact HF |].
    split; [ exact Hreg |].
    split; [ rewrite Hreg, length_take; lia |].
    intros Hmono Hsteady Hsorted Hbound.
    destruct (Hrec Hmono Hsteady Hsorted Hbound) as [Hall Hle].
    rewrite <- (take_drop 50 (new ++ kept)) in Hall, Hle.
    rewrite Hreg. split; [| split ].
    + eapply StronglySorted_app_1_l. exact Hall.
    + apply Forall_app in Hle. apply Hle.
    + intros a b Ha Hb.
      eapply (StronglySorted_app_1_elem_of _ _ _ a b Hall);
        apply list_elem_of_In; assumption.
  - intros clock batches markets Hmono. cbv zeta.
    apply scan_recency; [ exact Hmono |].
    apply scans_stamped_before. constructor.
Qed.

(** Two scans a second apart, each within one instant. *)
Definition scan_clock : Clock :=
  table_clock [1700000000000; 1700000000000; 1700000001000; 1700000001000]%float
              1700000001000%float.

Lemma scanBinaryArbitrage_correct_witness :
  let s1 := snd (scanBinaryArbitrage scan_clock init [two_outcome "a" 0.45 0.50]) in
  let s2 := snd (scanBinaryArbitrage scan_clock s1 [two_outcome "c" 0.40 0.50]) in
  newest_first (opportunities s2)
  /\ map (fun o => leg_id (market1 o)) (opportunities s2) = ["c"; "a"].
Proof.
  cbv zeta. split; [| vm_compute; reflexivity ].
  refine (proj1 (proj2 (proj2 (proj2
            (proj1 scanBinaryArbitrage_correct scan_clock _ _))) _ _ _ _)).
  - apply table_clock_monotone. vm_compute. reflexivity.
  - intros i Hi. vm_compute in Hi.
    destruct i as [| [| [| [| [| i]]]]]; try lia; vm_compute; reflexivity.
  - vm_compute. repeat constructor.
  - vm_compute. repeat constructor.
Defined.

End ArbitrageProps.

(** ** Backtesting engine *)

Module BacktestProps.
Import Schema Backtest FloatFacts Clocks.

(** The drawdown [(peak - equity) / peak] seen at each point of an equity
    curve, the peak being the running maximum from [peak] on. *)
Fixpoint drawdowns (peak : number) (equities : list number) : list number :=
  match equities with
  | [] => []
  | e :: rest =>
      let peak' := if (peak <? e)%float then e else peak in
      ((peak' - e) / peak')%float :: drawdowns peak' rest
  end.

(** The running peak at the end of an equity curve. *)
Definition final_peak (peak : number) (equities : list number) : number :=
  fold_left (fun p e => if (p <? e)%float then e else p) equities peak.

(** The larger of two drawdowns, as the loop takes it. *)
Definition larger (m d : number) : number :=
  if (m <? d)%float then d else m.

Lemma drawdowns_app (peak : number) (es : list number) (e : number) :
  drawdowns peak (es ++ [e])
  = drawdowns peak es ++ drawdowns (final_peak peak es) [e].
Proof.
  revert peak. induction es as [| x es IH]; intros peak; [ reflexivity |].
  cbn [app drawdowns final_peak fold_left]. f_equal. apply IH.
Qed.

Lemma final_peak_app (peak : number) (es : list number) (e : number) :
  final_peak peak (es ++ [e])
  = let p := final_peak peak es in if (p <? e)%float then e else p.
Proof. unfold final_peak. rewrite fold_left_app. reflexivity. Qed.

(** What folding [larger] over a list computes, from a start that is not
    NaN: an element of the list or the start, that none exceeds. *)
Lemma larger_fold (ds : list number) (m0 : number) :
  is_nan m0 = false ->
  let m := fold_left larger ds m0 in
  (m = m0 \/ In m ds)
  /\ (forall d, In d ds -> (m <? d)%float = false)
  /\ le m0 m
  /\ is_nan m = false.
Proof.
  revert m0. induction ds as [| d ds IH]; intros m0 H0; cbv zeta.
  - cbn. split; [ left; reflexivity |]. split; [ intros d [] |].
    split; [ apply le_refl, H0 | exact H0 ].
  - cbn [fold_left].
    assert (H1 : is_nan (larger m0 d) = false).
    { unfold larger. destruct (m0 <? d)%float eqn:E; [| exact H0 ].
      exact (lt_num_r _ _ E). }
    assert (H01 : le m0 (larger m0 d)).
    { unfold larger. destruct (m0 <? d)%float eqn:E.
      - apply lt_le. exact E.
      - apply le_refl, H0. }
    assert (Hd : (larger m0 d <? d)%float = false).
    { unfold larger. destruct (m0 <? d)%float eqn:E; [| exact E ].
      clear -E. float_order. }
    destruct (IH _ H1) as (Hin & Hub & Hle & Hn).
    repeat split.
    + destruct Hin as [-> | Hin].
      * unfold larger. destruct (m0 <? d)%float; [ right; left | left ]; reflexivity.
      * right. right. exact Hin.
    + intros d' [<- | Hd']; [| apply Hub, Hd' ].
      clear -Hd Hle. float_order.
    + eapply le_trans; eassumption.
    + exact Hn.
Qed.

Section WithEnvironment.
Variable clock : Clock.
Variable random : nat -> number.
Variable config : BacktestConfig.
Variable historicalData : list (list Market).
Variable t0 : Ticks.

Abbreviation after n := (simulate clock random config historicalData t0 n).

Lemma simulate_S (n : nat) :
  after (S n) = day clock random config historicalData (after n) (S n).
Proof.
  unfold simulate. rewrite seq_S, fold_left_app. reflexivity.
Qed.

(** What a day does to the curve, the peak and the tracked drawdown. *)
Lemma day_tracks (st : Loop) (i : nat) :
  let st' := day clock random config historicalData st i in
  exists d : number,
    l_equityCurve st' =
      l_equityCurve st ++ [ {| date := d; equity := l_equity st' |} ]
    /\ l_peakEquity st' =
         (if (l_peakEquity st <? l_equity st')%float then l_equity st'
          else l_peakEquity st)
    /\ l_maxDrawdown st' =
         larger (l_maxDrawdown st)
           ((l_peakEquity st' - l_equity st') / l_peakEquity st').
Proof.
  cbv zeta. unfold day.
  destruct (simulateTrades _ _ _ _ _ _ _) as [dayTrades t].
  cbn [l_equityCurve l_equity l_peakEquity l_maxDrawdown].
  eexists. repeat split.
Qed.

(** After [n] days the curve has [n] points, the peak is the running peak
    of the curve and the tracked drawdown is the largest seen, from 0. *)
Lemma simulate_invariant (n : nat) :
  let es := map equity (l_equityCurve (after n)) in
  length (l_equityCurve (after n)) = n
  /\ l_peakEquity (after n) = final_peak (initialCapital config) es
  /\ l_maxDrawdown (after n)
     = fold_left larger (drawdowns (initialCapital config) es) 0%float.
Proof.
  induction n as [| n (IHlen & IHpeak & IHmd)]; [ repeat split |].
  cbv zeta in *. rewrite simulate_S.
  destruct (day_tracks (after n) (S n)) as (d & Hc & Hp & Hm). cbv zeta in *.
  rewrite Hc, map_app, length_app, IHlen. cbn [map length equity].
  split; [ lia |].
  rewrite final_peak_app, drawdowns_app, fold_left_app. cbv zeta.
  rewrite <- IHpeak, <- IHmd. cbn [drawdowns fold_left].
  rewrite <- Hp. split; [ reflexivity | exact Hm ].
Qed.

Lemma tracked_num (n : nat) : is_nan (l_maxDrawdown (after n)) = false.
Proof.
  destruct (simulate_invariant n) as (_ & _ & ->).
  apply (larger_fold _ 0%float eq_refl).
Qed.

Lemma tracked_grows (n : nat) :
  le (l_maxDrawdown (after n)) (l_maxDrawdown (after (S n))).
Proof.
  rewrite simulate_S.
  destruct (day_tracks (after n) (S n)) as (d & _ & _ & ->).
  pose proof (tracked_num n) as Hn. unfold larger.
  destruct (_ <? _)%float eqn:E; [ apply lt_le; exact E | apply le_refl, Hn ].
Qed.

End WithEnvironment.

(** C5, amended. The equity curve of [runBacktest] has one point per day
    after day 0, that is [D - 1] points.  The reported [maxDrawdown] is 100
    times the tracked maximum drawdown (a percentage); the tracked maximum
    starts at 0, never decreases from one day to the next, and at the end is
    the largest of 0 and the daily drawdowns [(peak - equity) / peak]: it is
    0 or one of them, and none of them exceeds it. *)
Theorem runBacktest_curve_and_drawdown
    (clock : Clock) (random : nat -> number) (s : BacktestingEngine)
    (config : BacktestConfig) (historicalData : list (list Market)) :
  let result := fst (runBacktest clock random s config historicalData) in
  let D := length historicalData in
  let tracked :=
    fun n => l_maxDrawdown (simulate clock random config historicalData (ticks s) n) in
  let observed :=
    drawdowns (initialCapital config) (map equity (equityCurve result)) in
  length (equityCurve result) = (D - 1)%nat
  /\ length observed = (D - 1)%nat
  /\ maxDrawdown result = (tracked (D - 1)%nat * 100)%float
  /\ tracked 0%nat = 0%float
  /\ (forall n : nat, le (tracked n) (tracked (S n)))
  /\ (tracked (D - 1)%nat = 0%float \/ In (tracked (D - 1)%nat) observed)
  /\ (forall d : number, In d observed -> (tracked (D - 1)%nat <? d)%float = false).
Proof.
  cbv zeta. cbn [runBacktest fst equityCurve maxDrawdown].
  set (n := (length historicalData - 1)%nat).
  destruct (simulate_invariant clock random config historicalData (ticks s) n)
    as (Hlen & _ & Hmd). cbv zeta in Hmd.
  split; [ exact Hlen |].
  assert (Hobs : forall p es, length (drawdowns p es) = length es).
  { intros p es. revert p. induction es as [| e es IH]; intros p; cbn;
      [ reflexivity | f_equal; apply IH ]. }
  split; [ rewrite Hobs, length_map; exact Hlen |].
  split; [ reflexivity |].
  split; [ reflexivity |].
  split; [ intros k; apply tracked_grows |].
  rewrite Hmd.
  destruct (larger_fold
              (drawdowns (initialCapital config)
                 (map equity (l_equityCurve
                    (simulate clock random config historicalData (ticks s) n))))
              0%float eq_refl) as (Hin & Hub & _ & _).
  split; assumption.
Qed.

(** Four days of one market priced 0.20, simulated with the Kelly strategy;
    the draws make the first and third bets lose and the second win. *)
Definition priced (p : number) : Market :=
  {| id := "a"; question := "Will it happen?"; outcomes := ["Yes"; "No"];
     outcomePrices := [p; (1 - p)%float]; volume := 1000 |}.

Definition kelly_config : BacktestConfig :=
  {| strategy := kelly; startDate := "2024-01-01"; endDate := "2024-01-04";
     initialCapital := 10000;
     settings := {| positionPercent := None; spikeThreshold := None;
                    minProfit := None; kellyFraction := None |} |}.

Definition draws_lwl : nat -> number :=
  fun k => nth k [0.9; 0.99; 0.9; 0.1; 0.9; 0.99]%float 0.5%float.

Definition four_days : list (list Market) :=
  [[priced 0.2]; [priced 0.2]; [priced 0.2]; [priced 0.2]].

(** C5, as stated, fails: the equity falls from 10000 to 9500, the drawdowns
    of the three simulated days are 0.05, 0 and 0.05, and the reported
    [maxDrawdown] is 5, not their maximum 0.05. *)
Lemma reported_drawdown_is_percent :
  let result := fst (runBacktest ms_clock draws_lwl init kelly_config four_days) in
  map equity (equityCurve result) = [9500; 11400; 10830]%float
  /\ drawdowns 10000 (map equity (equityCurve result))
     = [0.05; 0; 0.05]%float
  /\ maxDrawdown result = 5%float
  /\ Forall (fun d => lt d (maxDrawdown result))
       (drawdowns 10000 (map equity (equityCurve result))).
Proof. vm_compute. repeat split; repeat constructor. Qed.

End BacktestProps.

(** * Further properties of the code *)



(** ** Kelly sizer: bounds and the rolling history *)

Module KellyExtra.
Import Kelly KellyStats FloatFacts FloatNaN MathFacts.
Import SpikeProps (slice_last_push, slice_last_length).

(** X1. Whenever the edge is a number, the confidence of [calculateKelly] is
    a number not above 1; on a positive edge the fraction is NaN or not above
    [maxPositionPercent], and a NaN fraction is never recommended. *)
Theorem calculateKelly_bounded (input : KellyInput) :
  let e := (estimatedProbability input - Kelly.currentPrice input)%float in
  let r := calculateKelly input in
  is_nan e = false ->
  is_nan (confidence r) = false /\ le (confidence r) 1
  /\ (lt 0 e -> is_nan (fraction r) = false ->
      le (fraction r) (maxPositionPercent input))
  /\ (is_nan (fraction r) = true -> recommendation r = avoid).
Proof.
  cbv zeta. intros He. unfold calculateKelly.
  destruct (_ <=? 0)%float eqn:Hle;
    cbn [confidence fraction recommendation].
  - split; [ reflexivity |]. split; [ reflexivity |]. split.
    + intros H0. rewrite (lt_not_le _ _ H0) in Hle. discriminate.
    + discriminate.
  - set (e := (estimatedProbability input - Kelly.currentPrice input)%float) in *.
    set (f := Math_min _ (maxPositionPercent input)).
    assert (Hq : is_nan (e / 0.15)%float = false)
      by (apply div_num; [ exact He | reflexivity | reflexivity ]).
    destruct (Math_min_num (e / 0.15)%float 1 Hq eq_refl) as (Hc & _ & Hc1 & _).
    split; [ exact Hc |]. split; [ exact Hc1 |]. split.
    + intros _ Hf. subst f. unfold Math_min in *.
      destruct (is_nan _ || is_nan (maxPositionPercent input)) eqn:Hn;
        [ discriminate Hf |].
      apply orb_false_iff in Hn. destruct Hn as [Ha Hb].
      pose proof (Math_min_num _ _ Ha Hb) as (_ & _ & H & _).
      unfold Math_min in H. rewrite Ha, Hb in H. exact H.
    + intros Hf.
      assert (H4 : (0.04 <=? f)%float = false) by (clear -Hf; float_order).
      assert (H2 : (0.02 <=? f)%float = false) by (clear -Hf; float_order).
      assert (H0 : (0 <? f)%float = false) by (clear -Hf; float_order).
      rewrite H4, H2, H0. reflexivity.
Qed.

Lemma calculateKelly_bounded_witness :
  le (confidence (calculateKelly KellyProps.example)) 1.
Proof.
  refine (proj1 (proj2 (calculateKelly_bounded KellyProps.example _))).
  reflexivity.
Defined.

(** The state after adding the trades of a list, oldest first. *)
Definition add_all (s : KellyCriterion) (trades : list TradeRecord)
    : KellyCriterion :=
  fold_left (fun s t => addTrade s (profitLoss t) (capital t)) trades s.

Lemma add_all_lookback (s : KellyCriterion) (trades : list TradeRecord) :
  lookbackPeriod (add_all s trades) = lookbackPeriod s.
Proof.
  revert s. induction trades as [| t ts IH]; intros s; [ reflexivity |].
  cbn [add_all fold_left]. fold (add_all (addTrade s (profitLoss t) (capital t)) ts).
  rewrite IH. reflexivity.
Qed.

(** X2. The trade history of the Kelly sizer is a bounded FIFO: after adding
    any trades to a new sizer it holds exactly the last [lookbackPeriod] of
    them, in order, and so never more than [lookbackPeriod]. *)
Theorem tradeHistory_window (lookback : nat) (scaling : number)
    (trades : list TradeRecord) :
  tradeHistory (add_all (create lookback scaling) trades)
  = Schema.slice_last lookback trades
  /\ (length (tradeHistory (add_all (create lookback scaling) trades))
      <= lookback)%nat.
Proof.
  assert (H : forall (s : KellyCriterion) (before : list TradeRecord),
             tradeHistory s = Schema.slice_last (lookbackPeriod s) before ->
             tradeHistory (add_all s trades)
             = Schema.slice_last (lookbackPeriod s) (before ++ trades)).
  { induction trades as [| t ts IH]; intros s before Hs.
    - rewrite app_nil_r. exact Hs.
    - cbn [add_all fold_left].
      fold (add_all (addTrade s (profitLoss t) (capital t)) ts).
      replace (before ++ t :: ts) with ((before ++ [t]) ++ ts)
        by (rewrite <- app_assoc; reflexivity).
      apply (IH (addTrade s (profitLoss t) (capital t))).
      cbn [addTrade tradeHistory lookbackPeriod]. rewrite Hs.
      destruct t as [pl cap]. cbn [profitLoss capital].
      apply slice_last_push. }
  specialize (H (create lookback scaling) []).
  cbn [create tradeHistory lookbackPeriod app] in H.
  assert (H0 : [] = Schema.slice_last lookback (@nil TradeRecord))
    by (destruct lookback; reflexivity).
  rewrite (H H0). split; [ reflexivity |].
  rewrite slice_last_length. lia.
Qed.

(** Exactly one of [x > 0], [x <= 0] and "x is NaN" holds. *)
Lemma sign_buckets (x : number) :
  (Nat.b2n (0 <? x)%float + Nat.b2n (x <=? 0)%float + Nat.b2n (is_nan x) = 1)%nat.
Proof.
  assert (H0 : num 0) by (unfold num, not_nan; cbn; discriminate).
  destruct (0 <? x)%float eqn:E1, (x <=? 0)%float eqn:E2, (is_nan x) eqn:E3;
    try reflexivity; exfalso; clear -H0 E1 E2 E3; float_order.
Qed.

(** X3. [calculateHistoricalMetrics] answers only from ten trades on.  Every
    trade is a win, a loss or has a NaN profit, and exactly one of the three:
    a trade with a NaN profit is in neither bucket, and a break-even trade is
    a loss.  The average loss it reports is NaN or not negative. *)
Theorem historical_metrics_buckets (s : KellyCriterion) :
  (calculateHistoricalMetrics s = None <-> (length (tradeHistory s) < 10)%nat)
  /\ (length (wins s) + length (losses s)
      + length (List.filter (fun t => is_nan (profitLoss t)) (tradeHistory s))
      = length (tradeHistory s))%nat
  /\ (forall t, In t (tradeHistory s) -> (profitLoss t =? 0)%float = true ->
      In t (losses s))
  /\ (forall m, calculateHistoricalMetrics s = Some m ->
      is_nan (avgLoss m) = false -> le 0 (avgLoss m)).
Proof.
  split; [| split; [| split ]].
  - unfold calculateHistoricalMetrics.
    destruct (Nat.ltb_spec (length (tradeHistory s)) 10) as [Hlt|Hge]; split;
      intros H; try reflexivity; try exact Hlt; try discriminate H;
      exfalso; lia.
  - unfold wins, losses. induction (tradeHistory s) as [| t ts IH];
      [ reflexivity |].
    cbn [List.filter]. pose proof (sign_buckets (profitLoss t)) as Hb.
    destruct (0 <? profitLoss t)%float, (profitLoss t <=? 0)%float,
             (is_nan (profitLoss t)); cbn [Nat.b2n length] in *; lia.
  - intros t Hin Hz. unfold losses. apply filter_In. split; [ exact Hin |].
    apply eqb_zero_le, Hz.
  - intros m Hm Hn. unfold calculateHistoricalMetrics in Hm.
    destruct (length (tradeHistory s) <? 10)%nat; [ discriminate |].
    injection Hm as <-. cbn [avgLoss] in *.
    destruct (0 <? length (losses s))%nat; [| reflexivity ].
    set (x := (sum_by profitLoss (losses s) / of_nat (length (losses s)))%float) in *.
    destruct (is_nan x) eqn:Hx; [| apply abs_nonneg, Hx ].
    exfalso. clear -Hn Hx. rewrite is_nan_num in Hn. rewrite is_nan_not_num in Hx.
    unfold num in *. rewrite abs_spec in Hn.
    unfold not_nan in *.
    destruct (Prim2SF x); cbn in *; try (apply Hx; discriminate).
    apply Hn. reflexivity.
Qed.

(** X4. [calculateOptimalFraction] is the default 0.02 when fewer than ten
    trades are recorded; in every case it is 0.02, NaN, or between 0 and
    0.25. *)
Theorem optimal_fraction_range (s : KellyCriterion) :
  let f := calculateOptimalFraction s in
  ((length (tradeHistory s) < 10)%nat -> f = 0.02%float)
  /\ (f = 0.02%float \/ is_nan f = true \/ (le 0 f /\ le f 0.25)).
Proof.
  cbv zeta. unfold calculateOptimalFraction. split.
  - intros Hlt. unfold calculateHistoricalMetrics.
    destruct (Nat.ltb_spec (length (tradeHistory s)) 10); [ reflexivity | lia ].
  - destruct (calculateHistoricalMetrics s) as [m|]; [| left; reflexivity ].
    destruct (avgLoss m =? 0)%float; [ left; reflexivity |].
    right.
    set (x := (_ * scalingFactor s)%float).
    destruct (clamp_between 0 0.25 x eq_refl) as [Hnan Hnum].
    destruct (is_nan x); [ left; apply Hnan | right; apply Hnum ]; reflexivity.
Qed.

End KellyExtra.

(** ** Risk manager: high-water mark, validation results, order levels *)

Module RiskExtra.
Import Risk RiskOrders FloatFacts MathFacts.

Lemma step_peak (s : RiskManager) (c : Call) :
  is_nan (peakEquity s) = false ->
  is_nan (peakEquity (step s c)) = false
  /\ le (peakEquity s) (peakEquity (step s c)).
Proof.
  intros Hp. destruct c as [e | t | | p];
    cbn [step updateEquity recordTrade resetDailyPnL setLimits with_limits
         peakEquity];
    try (split; [ exact Hp | apply le_refl, Hp ]).
  destruct (peakEquity s <? e)%float eqn:E.
  - split; [ exact (lt_num_r _ _ E) | apply lt_le, E ].
  - split; [ exact Hp | apply le_refl, Hp ].
Qed.

Lemma run_peak (s : RiskManager) (calls : list Call) :
  is_nan (peakEquity s) = false ->
  is_nan (peakEquity (run s calls)) = false
  /\ le (peakEquity s) (peakEquity (run s calls)).
Proof.
  revert s. induction calls as [| c calls IH]; intros s Hp.
  - split; [ exact Hp | apply le_refl, Hp ].
  - cbn [run fold_left]. fold (run (step s c) calls).
    destruct (step_peak s c Hp) as [H1 H2].
    destruct (IH _ H1) as [H3 H4].
    split; [ exact H3 | eapply FloatFacts.le_trans; eassumption ].
Qed.

Lemma run_app (s : RiskManager) (calls more : list Call) :
  run s (calls ++ more) = run (run s calls) more.
Proof. unfold run. apply fold_left_app. Qed.

(** X5. The peak equity is a high-water mark: from a new manager it is
    always a number, no call ever lowers it, and whenever the current equity
    is a number it is not above the peak. *)
Theorem peak_is_high_water_mark (calls more : list Call) :
  let s := run init calls in
  is_nan (peakEquity s) = false
  /\ le (peakEquity s) (peakEquity (run init (calls ++ more)))
  /\ (is_nan (currentEquity s) = false -> le (currentEquity s) (peakEquity s)).
Proof.
  cbv zeta. rewrite run_app.
  destruct (run_peak init calls eq_refl) as [Hn _].
  split; [ exact Hn |]. split; [ apply run_peak, Hn |].
  clear more Hn.
  assert (H : forall s,
             is_nan (peakEquity s) = false ->
             (is_nan (currentEquity s) = false ->
              le (currentEquity s) (peakEquity s)) ->
             is_nan (currentEquity (run s calls)) = false ->
             le (currentEquity (run s calls)) (peakEquity (run s calls))).
  { induction calls as [| c calls IH]; intros s Hp Hc; [ exact Hc |].
    cbn [run fold_left]. fold (run (step s c) calls).
    apply IH; [ apply step_peak, Hp |].
    destruct c as [e | t | | p];
      cbn [step updateEquity recordTrade resetDailyPnL setLimits with_limits
           peakEquity currentEquity]; try exact Hc.
    intros He. destruct (peakEquity s <? e)%float eqn:E.
    - apply le_refl, He.
    - apply not_lt_le; assumption. }
  apply H; [ reflexivity | intros _; reflexivity ].
Qed.

(** X6. A validation that refuses never offers an adjusted size and always
    gives its reason; an adjusted size comes only with an allowed result and a
    reason; and the size adjusted to the exposure limit is never zero or
    negative. *)
Theorem validation_shape (s : RiskManager) (size bankroll : number)
    (ps : list Position) :
  let v := validatePosition s size bankroll ps in
  (allowed v = false -> adjustedSize v = None /\ reason v <> None)
  /\ (adjustedSize v <> None -> allowed v = true /\ reason v <> None)
  /\ (forall a, adjustedSize v = Some a ->
      reason v = Some "Position size reduced to stay within exposure limits"%string ->
      (a <=? 0)%float = false).
Proof.
  cbv zeta. unfold validatePosition.
  destruct (tradingHalted s); [ cbn; repeat split; congruence |].
  destruct (_ <? _)%float.
  - destruct (_ <=? 0)%float eqn:E; cbn [allowed adjustedSize reason];
      repeat split; congruence.
  - destruct (_ <? _)%float; cbn [allowed adjustedSize reason];
      repeat split; congruence.
Qed.

(** X7. A custom percent of 0 (or NaN) is not a custom percent: the stop-loss
    and take-profit levels then use the configured defaults, as when none is
    given; and a stored level of 0 never triggers. *)
Theorem falsy_levels_are_unset (s : RiskManager) (entry c : number)
    (position : Position) :
  truthy c = false ->
  calculateStopLoss s entry (Some c) = calculateStopLoss s entry None
  /\ calculateTakeProfit s entry (Some c) = calculateTakeProfit s entry None
  /\ (stopLoss position = Some c -> shouldTriggerStopLoss position = false)
  /\ (takeProfit position = Some c -> shouldTriggerTakeProfit position = false).
Proof.
  intros Hc. unfold calculateStopLoss, calculateTakeProfit,
    shouldTriggerStopLoss, shouldTriggerTakeProfit, opt_or_else, or_else.
  rewrite Hc. repeat split; intros ->; rewrite Hc; reflexivity.
Qed.

(** A stop at 0 on a position whose price fell to 0 does not trigger. *)
Lemma falsy_levels_are_unset_witness :
  shouldTriggerStopLoss
    {| marketQuestion := "Will it happen?"; entryPrice := 0.5;
       currentPrice := 0; quantity := 10; stopLoss := Some 0%float;
       takeProfit := None |} = false.
Proof.
  refine (proj1 (proj2 (proj2
            (falsy_levels_are_unset init 0.5 0 _ _))) _); reflexivity.
Defined.

(** The calls that the HTTP routes make on the manager, besides reads:
    [setLimits] and [resetDailyPnL]. *)
Definition route_call (c : Call) : Prop :=
  match c with
  | SetLimits _ | ResetDailyPnL => True
  | UpdateEquity _ | RecordTrade _ => False
  end.

(** X8. The routes never call [updateEquity] or [recordTrade]: under the
    calls they do make, the daily P&L stays 0, trading is never halted, the
    equity and its peak stay 0, the drawdown reported by [calculateMetrics]
    is 0, and a validation is refused only for the exposure limit. *)
Theorem breaker_unfed_by_routes (calls : list Call) (ps : list Position)
    (size bankroll : number) :
  Forall route_call calls ->
  let s := run init calls in
  dailyPnL s = 0%float /\ isTradingAllowed s = true
  /\ currentEquity s = 0%float /\ peakEquity s = 0%float
  /\ currentDrawdown (calculateMetrics s ps bankroll) = 0%float
  /\ (allowed (validatePosition s size bankroll ps) = false ->
      reason (validatePosition s size bankroll ps)
      = Some "Maximum exposure limit reached"%string).
Proof.
  intros Hc. cbv zeta.
  assert (H : forall s,
             dailyPnL s = 0%float /\ tradingHalted s = false
             /\ currentEquity s = 0%float /\ peakEquity s = 0%float ->
             dailyPnL (run s calls) = 0%float
             /\ tradingHalted (run s calls) = false
             /\ currentEquity (run s calls) = 0%float
             /\ peakEquity (run s calls) = 0%float).
  { induction Hc as [| c calls Hr _ IH]; intros s Hs; [ exact Hs |].
    cbn [run fold_left]. apply IH.
    destruct c; cbn [route_call] in Hr; try contradiction;
      cbn [step resetDailyPnL setLimits with_limits dailyPnL tradingHalted
           currentEquity peakEquity]; tauto. }
  specialize (H init (conj eq_refl (conj eq_refl (conj eq_refl eq_refl)))).
  destruct H as (Hp & Hh & He & Hk).
  repeat split; try assumption.
  - unfold isTradingAllowed. rewrite Hh. reflexivity.
  - unfold calculateMetrics. cbn [currentDrawdown]. rewrite Hk. reflexivity.
  - unfold validatePosition. rewrite Hh.
    destruct (_ <? _)%float.
    + destruct (_ <=? 0)%float; cbn; [ reflexivity | discriminate ].
    + destruct (_ <? _)%float; cbn; discriminate.
Qed.

(** The limits are set twice and the day is reset: trading stays allowed. *)
Lemma breaker_unfed_by_routes_witness :
  isTradingAllowed
    (run init
       [SetLimits {| p_maxTotalExposure := Some 0.5%float;
                     p_maxPositionSize := None; p_maxDailyLoss := Some 0%float;
                     p_maxCorrelation := None; p_stopLossDefault := None;
                     p_takeProfitDefault := None |};
        ResetDailyPnL]) = true.
Proof.
  refine (proj1 (proj2 (breaker_unfed_by_routes _ [] 0 0 _))).
  repeat constructor.
Defined.





End RiskExtra.

(** ** Spike detector: the event log, batch analysis, what a call leaves alone *)

Module SpikeExtra.
Import Schema Spike FloatFacts MathFacts Clocks.
Import SpikeProps (tail_drop, slice_last_push, slice_last_length,
                   detectSpike_none, detectSpike_some, core, analyze_calls,
                   analyzeMarkets_as_calls).

Lemma slice_last_all {A} (w : nat) (l : list A) :
  (length l <= w)%nat -> slice_last w l = l.
Proof.
  intros H. unfold slice_last. replace (length l - w)%nat with 0%nat by lia.
  reflexivity.
Qed.

Lemma slice_last_snoc {A} (w : nat) (l : list A) (x : A) :
  (0 < w)%nat -> slice_last w (l ++ [x]) = slice_last (w - 1) l ++ [x].
Proof.
  intros H. unfold slice_last. rewrite length_app. cbn [length].
  rewrite List.skipn_app.
  replace (length l + 1 - w - length l)%nat with 0%nat by lia.
  replace (length l + 1 - w)%nat with (length l - (w - 1))%nat by lia.
  reflexivity.
Qed.

Lemma slice_last_slice_last {A} (w : nat) (a b : list A) :
  slice_last w (slice_last w a ++ b) = slice_last w (a ++ b).
Proof.
  unfold slice_last. rewrite !length_app, length_skipn, !List.skipn_app.
  rewrite length_skipn, List.skipn_skipn. f_equal; f_equal; lia.
Qed.

Lemma slice_last_In {A} (w : nat) (l : list A) (x : A) :
  In x (slice_last w l) -> In x l.
Proof.
  unfold slice_last. intros H.
  rewrite <- (firstn_skipn (length l - w) l). apply in_or_app. right. exact H.
Qed.

Section WithClock.
Variable clock : Clock.

(** The log after a push and the eviction of the oldest entry over 100. *)
Definition logged (log : list SpikeEvent) (ev : SpikeEvent) : list SpikeEvent :=
  let spikes := log ++ [ev] in
  if (100 <? length spikes)%nat then tail spikes else spikes.

Lemma logged_window (log : list SpikeEvent) (ev : SpikeEvent) :
  (length log <= 100)%nat -> logged log ev = slice_last 100 (log ++ [ev]).
Proof.
  intros H. unfold logged.
  pose proof (slice_last_push 100 log ev) as Hp. cbv zeta in Hp.
  rewrite (slice_last_all 100 log H) in Hp. exact Hp.
Qed.

Lemma detectSpike_log (s s' : SpikeDetector) (m : string) (st : SpikeSettings)
    (ev : SpikeEvent) :
  detectSpike clock s m st = (Some ev, s') ->
  detectedSpikes s' = logged (detectedSpikes s) ev
  /\ ev_marketId ev = m /\ marketQuestion ev = ""%string.
Proof.
  unfold detectSpike.
  destruct (priceHistory s !! m) as [h|]; [| discriminate ].
  destruct (length h <? 3)%nat; [ discriminate |].
  destruct (clock (clock_reads s) <? _)%float; [ discriminate |].
  destruct (abs _ <? _)%float; [ discriminate |].
  intros H. injection H as <- <-. repeat split.
Qed.

Lemma detectSpike_none_log (s : SpikeDetector) (m : string) (st : SpikeSettings) :
  fst (detectSpike clock s m st) = None ->
  detectedSpikes (snd (detectSpike clock s m st)) = detectedSpikes s
  /\ priceHistory (snd (detectSpike clock s m st)) = priceHistory s
  /\ cooldowns (snd (detectSpike clock s m st)) = cooldowns s.
Proof.
  intros H. destruct (detectSpike_none clock s m st H) as [-> | ->];
    repeat split.
Qed.

Lemma step_log (s : SpikeDetector) (c : Call) :
  (length (detectedSpikes s) <= 100)%nat ->
  (length (detectedSpikes (step clock s c)) <= 100)%nat.
Proof.
  intros H. destruct c as [m p v | m st |]; cbn [step]; [ exact H | | cbn; lia ].
  destruct (detectSpike clock s m st) as [[ev|] s'] eqn:E.
  - apply detectSpike_log in E. destruct E as [E _]. cbn [snd]. rewrite E.
    rewrite logged_window, slice_last_length by exact H. lia.
  - pose proof (detectSpike_none_log s m st) as Hn. rewrite E in Hn.
    cbn [fst snd] in *. destruct (Hn eq_refl) as [Hl _]. rewrite Hl. exact H.
Qed.

Lemma run_log (s : SpikeDetector) (cs : list Call) :
  (length (detectedSpikes s) <= 100)%nat ->
  (length (detectedSpikes (run clock s cs)) <= 100)%nat.
Proof.
  revert s. induction cs as [| c cs IH]; intros s H; [ exact H |].
  cbn [run fold_left]. apply IH, step_log, H.
Qed.

(** X10. The log of detected spikes never holds more than 100 events;
    [getRecentSpikes(limit)], for a positive limit, answers at most [limit]
    of them, none outside the log, and right after a detection the event just
    returned comes first. *)
Theorem spike_log_bounded (w limit : nat) (cs : list Call) :
  (0 < limit)%nat ->
  let s := run clock (create w) cs in
  (length (detectedSpikes s) <= 100)%nat
  /\ (length (getRecentSpikes s limit) <= Nat.min limit 100)%nat
  /\ (forall ev, In ev (getRecentSpikes s limit) -> In ev (detectedSpikes s))
  /\ (forall m st ev s',
        detectSpike clock s m st = (Some ev, s') ->
        head (getRecentSpikes s' limit) = Some ev).
Proof.
  intros Hl s.
  assert (Hs : (length (detectedSpikes s) <= 100)%nat)
    by (apply run_log; cbn; lia).
  split; [ exact Hs |]. split; [| split ].
  - unfold getRecentSpikes. rewrite length_rev, slice_last_length. lia.
  - intros ev. unfold getRecentSpikes. rewrite <- in_rev.
    apply slice_last_In.
  - intros m st ev s' E. apply detectSpike_log in E. destruct E as [E _].
    unfold getRecentSpikes. rewrite E, logged_window by exact Hs.
    rewrite slice_last_snoc by lia.
    rewrite slice_last_snoc by exact Hl. rewrite rev_app_distr. reflexivity.
Qed.

(** What [analyzeMarkets] leaves in the log for one reported event. *)
Lemma set_question_log (s s' : SpikeDetector) (m : string) (st : SpikeSettings)
    (ev : SpikeEvent) (q : string) :
  (length (detectedSpikes s) <= 100)%nat ->
  detectSpike clock s m st = (Some ev, s') ->
  detectedSpikes (set_question s' ev q)
  = slice_last 100 (detectedSpikes s ++ [with_question ev q]).
Proof.
  intros Hs E. apply detectSpike_log in E. destruct E as [E _].
  cbn [set_question detectedSpikes]. rewrite E, logged_window by exact Hs.
  rewrite !slice_last_snoc by lia. rewrite removelast_last. reflexivity.
Qed.

Lemma analyzeMarkets_loop_log (s : SpikeDetector) (markets : list Market)
    (settings : SpikeSettings) (spikes : list SpikeEvent) :
  (length (detectedSpikes s) <= 100)%nat ->
  exists new : list SpikeEvent,
    fst (analyzeMarkets_loop clock s markets settings spikes) = spikes ++ new
    /\ detectedSpikes (snd (analyzeMarkets_loop clock s markets settings spikes))
       = slice_last 100 (detectedSpikes s ++ new)
    /\ (length new <= length markets)%nat
    /\ Forall (fun ev => exists market, In market markets
                 /\ ev_marketId ev = id market
                 /\ marketQuestion ev = question market) new.
Proof.
  revert s spikes. induction markets as [| market rest IH]; intros s spikes Hs.
  - exists []. cbn [analyzeMarkets_loop fst snd]. rewrite !app_nil_r.
    rewrite slice_last_all by exact Hs. repeat split; [ cbn; lia | constructor ].
  - cbn [analyzeMarkets_loop].
    set (s1 := recordPrice clock s (id market) (outcomePrice market 0)
                 (Some (volume market))).
    assert (H1 : detectedSpikes s1 = detectedSpikes s) by reflexivity.
    destruct (detectSpike clock s1 (id market) settings) as [[ev|] s2] eqn:E.
    + pose proof (set_question_log s1 s2 _ _ ev (question market)
                    ltac:(rewrite H1; exact Hs) E) as Hq.
      destruct (detectSpike_log _ _ _ _ _ E) as (_ & Hid & _).
      destruct (IH (set_question s2 ev (question market))
                  (spikes ++ [with_question ev (question market)]))
        as (new & Hf & Hd & Hlen & Hall).
      { rewrite Hq, slice_last_length. lia. }
      exists (with_question ev (question market) :: new).
      rewrite Hf, Hd, Hq, H1, slice_last_slice_last, <- !app_assoc.
      repeat split; [ cbn; lia |].
      constructor.
      * exists market. cbn [with_question ev_marketId marketQuestion].
        repeat split; [ left; reflexivity | exact Hid ].
      * eapply Forall_impl; [ exact Hall |].
        intros x (mk & Hin & Hx). exists mk. split; [ right; exact Hin | exact Hx ].
    + pose proof (detectSpike_none_log s1 (id market) settings) as Hn.
      rewrite E in Hn. cbn [fst snd] in Hn. destruct (Hn eq_refl) as (Hl & _).
      destruct (IH s2 spikes) as (new & Hf & Hd & Hlen & Hall).
      { rewrite Hl, H1. exact Hs. }
      exists new. rewrite Hf, Hd, Hl, H1.
      repeat split; [ cbn; lia |].
      eapply Forall_impl; [ exact Hall |].
      intros x (mk & Hin & Hx). exists mk. split; [ right; exact Hin | exact Hx ].
Qed.

(** X11. [analyzeMarkets] is, market by market, [recordPrice] then
    [detectSpike]: its effect on histories, cooldowns and clock is that of
    those calls.  It returns at most one event per market, each carrying the
    id and the question of a market of the batch, and the events it returns
    are the ones it adds to the log, question included. *)
Theorem analyzeMarkets_reports (s : SpikeDetector) (markets : list Market)
    (settings : SpikeSettings) :
  (length (detectedSpikes s) <= 100)%nat ->
  let spikes := fst (analyzeMarkets clock s markets settings) in
  let s' := snd (analyzeMarkets clock s markets settings) in
  core s' = core (run clock s (analyze_calls markets settings))
  /\ detectedSpikes s' = slice_last 100 (detectedSpikes s ++ spikes)
  /\ (length spikes <= length markets)%nat
  /\ Forall (fun ev => exists market, In market markets
               /\ ev_marketId ev = id market
               /\ marketQuestion ev = question market) spikes.
Proof.
  intros Hs. cbv zeta. split; [ apply analyzeMarkets_as_calls |].
  unfold analyzeMarkets.
  destruct (analyzeMarkets_loop_log s markets settings [] Hs)
    as (new & Hf & Hd & Hlen & Hall).
  rewrite Hf, Hd. cbn [app]. repeat split; assumption.
Qed.

(** X12. What [detectSpike] leaves alone.  It never changes a price history.
    When it answers null, the cooldowns and the log are as before.  When it
    answers an event, that event is for the market asked about, only that
    market's cooldown moves, and the market had at least 3 prices. *)
Theorem detectSpike_frame (s : SpikeDetector) (m : string) (st : SpikeSettings) :
  let r := detectSpike clock s m st in
  priceHistory (snd r) = priceHistory s
  /\ (fst r = None ->
      cooldowns (snd r) = cooldowns s
      /\ detectedSpikes (snd r) = detectedSpikes s)
  /\ (length (getPriceHistory s m) < 3 -> r = (None, s))%nat
  /\ (forall ev, fst r = Some ev ->
      ev_marketId ev = m
      /\ (3 <= length (getPriceHistory s m))%nat
      /\ forall m', m' <> m -> cooldowns (snd r) !! m' = cooldowns s !! m').
Proof.
  cbv zeta. split; [| split; [| split ]].
  - destruct (detectSpike clock s m st) as [[ev|] s'] eqn:E.
    + apply detectSpike_some in E. cbn [snd]. tauto.
    + pose proof (detectSpike_none_log s m st) as H. rewrite E in H.
      cbn [fst snd] in *. tauto.
  - intros H. destruct (detectSpike_none_log s m st H) as (H1 & _ & H3).
    split; assumption.
  - unfold getPriceHistory, detectSpike.
    destruct (priceHistory s !! m) as [h|]; [| reflexivity ].
    intros H. change (length h < 3)%nat in H.
    apply Nat.ltb_lt in H. rewrite H. reflexivity.
  - intros ev H.
    destruct (detectSpike clock s m st) as [o s'] eqn:E. cbn [fst snd] in *.
    subst o. destruct (detectSpike_log _ _ _ _ _ E) as (_ & Hid & _).
    apply detectSpike_some in E.
    destruct E as (_ & _ & Hc & _ & _ & h & Hh & Hlen & _).
    split; [ exact Hid |]. split.
    + unfold getPriceHistory. rewrite Hh. exact Hlen.
    + intros m' Hne. rewrite Hc. apply lookup_insert_ne. congruence.
Qed.

(** X13. The confidence of an event is NaN or at most 1, and an action other
    than waiting is suggested only with a confidence above 0.6: to sell a
    rise (buy NO) when the price is above its reference, to buy a fall
    otherwise.  An event whose relative change is NaN suggests waiting. *)
Theorem event_confidence_and_action (s s' : SpikeDetector) (m : string)
    (st : SpikeSettings) (ev : SpikeEvent) :
  detectSpike clock s m st = (Some ev, s') ->
  (is_nan (confidence ev) = true \/ le (confidence ev) 1)
  /\ (suggestedAction ev <> wait ->
      lt 0.6 (confidence ev) /\ le (confidence ev) 1
      /\ (suggestedAction ev = buy_no <-> lt 0 (priceChange ev))
      /\ (suggestedAction ev = buy_no <-> direction ev = up))
  /\ (is_nan (priceChangePercent ev) = true -> suggestedAction ev = wait).
Proof.
  unfold detectSpike.
  destruct (priceHistory s !! m) as [h|]; [| discriminate ].
  destruct (length h <? 3)%nat; [ discriminate |].
  destruct (clock (clock_reads s) <? _)%float; [ discriminate |].
  destruct (abs _ <? _)%float; [ discriminate |].
  intros H. injection H as <- _.
  cbn [confidence suggestedAction priceChange direction priceChangePercent].
  set (pc := (price (newest h) - referencePrice h)%float).
  set (pcp := abs (pc / referencePrice h)).
  set (x := (pcp / (spikeThreshold st * 2))%float).
  assert (Hconf : is_nan (Math_min x 1) = true \/ le (Math_min x 1) 1).
  { destruct (is_nan x) eqn:Hx.
    - left. rewrite Math_min_nan by (rewrite Hx; reflexivity). reflexivity.
    - right. apply (Math_min_num x 1 Hx eq_refl). }
  assert (Habove : lt 0.6 (Math_min x 1) -> le (Math_min x 1) 1).
  { intros Hlt. destruct Hconf as [Hn | Hle]; [| exact Hle ].
    apply lt_num_r in Hlt. congruence. }
  split; [ exact Hconf |]. split.
  - destruct (0 <? pc)%float eqn:Hd;
      destruct (0.6 <? Math_min x 1)%float eqn:Hc; intros Hw;
      try (exfalso; apply Hw; reflexivity);
      (split; [ exact Hc |]); (split; [ apply Habove, Hc |]);
      unfold lt; split; split; congruence.
  - intros Hn.
    assert (Hx : is_nan x = true).
    { unfold x. destruct (is_nan (pcp / (spikeThreshold st * 2))) eqn:E;
        [ reflexivity |].
      apply is_nan_num in E. apply is_nan_not_num in Hn. exfalso. apply Hn.
      revert E. unfold num, not_nan. rewrite div_spec.
      destruct (Prim2SF pcp); cbn; congruence. }
    rewrite (Math_min_nan x 1) by (rewrite Hx; reflexivity).
    destruct (0 <? pc)%float; reflexivity.
Qed.

End WithClock.

(** Three prices for a market, the last one 4% above the others. *)
Definition rising : list Call :=
  [RecordPrice "m" 0.5 None; RecordPrice "m" 0.5 None; RecordPrice "m" 0.52 None].

Definition settings : SpikeSettings :=
  {| spikeThreshold := 0.02; cooldownMs := 30000 |}.

Lemma spike_log_bounded_witness :
  (length (getRecentSpikes
             (run ms_clock init (rising ++ [DetectSpike "m" settings])) 20)
   <= 20)%nat.
Proof.
  refine (Nat.le_trans _ _ _
    (proj1 (proj2 (spike_log_bounded ms_clock 30 20 _ _))) _); lia.
Defined.

Definition two_markets : list Market :=
  [ {| id := "a"; question := "Will A happen?"; outcomes := ["Yes"; "No"];
       outcomePrices := [0.52; 0.48]%float; volume := 1000 |};
    {| id := "b"; question := "Will B happen?"; outcomes := ["Yes"; "No"];
       outcomePrices := [0.3; 0.7]%float; volume := 10 |} ].

(** A batch analysed after two earlier prices for market a: one event, with
    the question of market a, returned and logged. *)
Lemma analyzeMarkets_reports_witness :
  let s := run ms_clock init
             [RecordPrice "a" 0.5 None; RecordPrice "a" 0.5 None] in
  map marketQuestion (fst (analyzeMarkets ms_clock s two_markets settings))
  = ["Will A happen?"%string]
  /\ detectedSpikes (snd (analyzeMarkets ms_clock s two_markets settings))
     = slice_last 100
         (detectedSpikes s ++ fst (analyzeMarkets ms_clock s two_markets settings)).
Proof.
  cbv zeta. split; [ vm_compute; reflexivity |].
  refine (proj1 (proj2 (analyzeMarkets_reports ms_clock _ two_markets settings _))).
  vm_compute. lia.
Defined.

Lemma event_confidence_and_action_witness :
  exists ev s',
    detectSpike ms_clock (run ms_clock init rising) "m" settings = (Some ev, s')
    /\ (is_nan (confidence ev) = true \/ le (confidence ev) 1).
Proof.
  destruct (detectSpike ms_clock (run ms_clock init rising) "m" settings)
    as [[ev|] s'] eqn:E; [| vm_compute in E; discriminate ].
  exists ev, s'. split; [ reflexivity |].
  exact (proj1 (event_confidence_and_action ms_clock _ s' "m" settings ev E)).
Defined.

End SpikeExtra.

(** ** Arbitrage scanner: executed opportunities, keywords, groups, pairs,
       cross-platform rows *)

Module ArbitrageExtra.
Import Schema Arbitrage CrossMarket FloatFacts MathFacts Clocks.

Definition id_eqb (i j : string * number) : bool :=
  String.eqb (fst i) (fst j) && Leibniz.eqb (snd i) (snd j).

Lemma id_eqb_eq (i j : string * number) : id_eqb i j = true <-> i = j.
Proof.
  unfold id_eqb. rewrite andb_true_iff, String.eqb_eq, Leibniz.eqb_spec.
  destruct i, j; cbn. split; [ intros [-> ->]; reflexivity | intros H ].
  injection H as -> ->. split; reflexivity.
Qed.

Lemma mark_first_unfold (i : string * number) (o : ArbitrageOpportunity)
    (rest : list ArbitrageOpportunity) :
  mark_first i (o :: rest)
  = if id_eqb (opp_id o) i then with_status o executed :: rest
    else o :: mark_first i rest.
Proof. reflexivity. Qed.

(** One opportunity before and after [markExecuted]: untouched, or the one
    with the id asked for, now executed. *)
Definition marked (i : string * number) (o o' : ArbitrageOpportunity) : Prop :=
  o' = o \/ (opp_id o = i /\ o' = with_status o executed).

Lemma mark_first_spec (i : string * number) (os : list ArbitrageOpportunity) :
  Forall2 (marked i) os (mark_first i os)
  /\ mark_first i (mark_first i os) = mark_first i os
  /\ (Forall (fun o => opp_id o <> i) os -> mark_first i os = os)
  /\ (forall o, In o (List.filter is_active (mark_first i os)) ->
                In o (List.filter is_active os)).
Proof.
  induction os as [| o rest (IH1 & IH2 & IH3 & IH4)].
  - repeat split; try constructor. intros o [].
  - rewrite mark_first_unfold. destruct (id_eqb (opp_id o) i) eqn:E.
    + apply id_eqb_eq in E. repeat split.
      * constructor; [ right; split; [ exact E | reflexivity ] |].
        clear. induction rest; constructor; [ left; reflexivity | assumption ].
      * rewrite mark_first_unfold. cbn [with_status opp_id].
        apply id_eqb_eq in E. rewrite E. reflexivity.
      * intros H. inversion H; subst. contradiction.
      * cbn [List.filter is_active with_status status]. intros o' Ho'.
        destruct (is_active o); [ right |]; exact Ho'.
    + repeat split.
      * constructor; [ left; reflexivity | exact IH1 ].
      * rewrite mark_first_unfold, E, IH2. reflexivity.
      * intros H. inversion H; subst. rewrite IH3 by assumption. reflexivity.
      * cbn [List.filter]. intros o'. destruct (is_active o).
        -- intros [-> | H]; [ left; reflexivity | right; apply IH4, H ].
        -- apply IH4.
Qed.

Lemma mark_first_split (i : string * number) (os : list ArbitrageOpportunity) :
  (Forall (fun o => opp_id o <> i) os /\ mark_first i os = os)
  \/ (exists before o after,
        os = before ++ o :: after
        /\ Forall (fun o => opp_id o <> i) before
        /\ opp_id o = i
        /\ mark_first i os = before ++ with_status o executed :: after).
Proof.
  induction os as [| o rest IH].
  - left. split; [ constructor | reflexivity ].
  - rewrite mark_first_unfold. destruct (id_eqb (opp_id o) i) eqn:E.
    + right. exists [], o, rest. apply id_eqb_eq in E.
      repeat split; [ constructor | exact E ].
    + assert (Hne : opp_id o <> i).
      { intros H. apply id_eqb_eq in H. congruence. }
      destruct IH as [[Hall Heq] | (before & o' & after & Hos & Hall & Hid & Heq)].
      * left. split; [ constructor; assumption | rewrite Heq; reflexivity ].
      * right. exists (o :: before), o', after. rewrite Heq, Hos.
        repeat split; [ constructor; assumption | exact Hid ].
Qed.

(** X14. [markExecuted] with an id that no opportunity has changes nothing;
    otherwise it changes exactly one opportunity, the first of the registry
    with that id, and of it only the status, to executed: the opportunities
    before and after it, later ones with the same id included, are kept.
    Marking twice is marking once, and no opportunity becomes active by
    it. *)
Theorem markExecuted_effect (s : ArbitrageScanner) (i : string * number) :
  let s' := markExecuted s i in
  ((Forall (fun o => opp_id o <> i) (opportunities s) /\ s' = s)
   \/ (exists before o after,
         opportunities s = before ++ o :: after
         /\ Forall (fun o => opp_id o <> i) before
         /\ opp_id o = i
         /\ opportunities s' = before ++ with_status o executed :: after))
  /\ clock_reads s' = clock_reads s
  /\ markExecuted s' i = s'
  /\ (forall o, In o (getActiveOpportunities s') ->
                In o (getActiveOpportunities s)).
Proof.
  destruct (mark_first_spec i (opportunities s)) as (_ & H2 & _ & H4).
  cbv zeta. unfold markExecuted, getActiveOpportunities.
  cbn [opportunities clock_reads].
  split; [| split; [ reflexivity | split; [ rewrite H2; reflexivity | exact H4 ]]].
  destruct (mark_first_split i (opportunities s))
    as [[Hall Heq] | (before & o & after & Hos & Hall & Hid & Heq)].
  - left. split; [ exact Hall |]. rewrite Heq. destruct s; reflexivity.
  - right. exists before, o, after. repeat split; assumption.
Qed.

(** Two opportunities with one id, as two scans of a market within a
    millisecond leave them: only the first is marked. *)
Lemma markExecuted_effect_example :
  let o :=
    {| opp_id := ("a"%string, 1700000000000%float); type := binary;
       market1 := {| leg_id := "a"; leg_question := "Will it happen?";
                     leg_price := 0.45; platform := "polymarket" |};
       market2 := {| leg_id := "a"; leg_question := "Will it happen? (NO)";
                     leg_price := 0.5; platform := "polymarket" |};
       totalCost := 0.97; guaranteedPayout := 1; profit := 0.03;
       profitPercent := 3; detectedAt := 1700000000000; status := active |} in
  let s := {| opportunities := [o; o]; clock_reads := 4 |} in
  map status (opportunities (markExecuted s (opp_id o))) = [executed; active].
Proof. vm_compute. reflexivity. Qed.

(** *** Keywords *)









(** *** Groups *)

(** The markets with grouping key [k], in the order of the input. *)
Definition members (k : string) (markets : list Market) : list Market :=
  List.filter (fun m => String.eqb (group_key m) k) markets.

(** [groups.get(k)], or the empty list. *)
Definition group_of (k : string) (groups : list (string * list Market))
    : list Market :=
  match List.find (fun kg => String.eqb (fst kg) k) groups with
  | Some kg => snd kg
  | None => []
  end.

Fixpoint wf (groups : list (string * list Market)) : Prop :=
  match groups with
  | [] => True
  | kg :: rest => snd kg <> [] /\ ~ In (fst kg) (map fst rest) /\ wf rest
  end.

Lemma add_to_group_cons (key : string) (market : Market) (kg : string * list Market)
    (rest : list (string * list Market)) :
  add_to_group key market (kg :: rest)
  = if String.eqb (fst kg) key then (fst kg, snd kg ++ [market]) :: rest
    else kg :: add_to_group key market rest.
Proof. destruct kg; reflexivity. Qed.

Lemma add_to_group_keys (key : string) (market : Market)
    (groups : list (string * list Market)) (k : string) :
  In k (map fst (add_to_group key market groups))
  <-> k = key \/ In k (map fst groups).
Proof.
  induction groups as [| kg rest IH].
  - cbn. intuition congruence.
  - rewrite add_to_group_cons. destruct (String.eqb_spec (fst kg) key) as [E|E].
    + cbn [map In fst]. intuition congruence.
    + cbn [map In]. rewrite IH. tauto.
Qed.

Lemma add_to_group_wf (key : string) (market : Market)
    (groups : list (string * list Market)) :
  wf groups -> wf (add_to_group key market groups).
Proof.
  induction groups as [| kg rest IH]; intros H.
  - cbn. repeat split; [ discriminate | tauto ].
  - rewrite add_to_group_cons. cbn [wf] in H. destruct H as (H1 & H2 & H3).
    destruct (String.eqb_spec (fst kg) key) as [E|E].
    + cbn [wf fst snd]. repeat split; [| assumption | assumption ].
      intros Hnil. apply app_eq_nil in Hnil. destruct Hnil; discriminate.
    + cbn [wf]. repeat split; [ assumption | | apply IH; assumption ].
      rewrite add_to_group_keys. intros [Hk | Hk]; [ apply E, Hk | apply H2, Hk ].
Qed.

Lemma add_to_group_of (key : string) (market : Market)
    (groups : list (string * list Market)) (k : string) :
  group_of k (add_to_group key market groups)
  = if String.eqb key k then group_of k groups ++ [market]
    else group_of k groups.
Proof.
  unfold group_of. induction groups as [| kg rest IH].
  - cbn. destruct (String.eqb key k); reflexivity.
  - rewrite add_to_group_cons.
    destruct (String.eqb_spec (fst kg) key) as [E|E].
    + cbn [List.find fst snd]. rewrite E.
      destruct (String.eqb key k); reflexivity.
    + cbn [List.find]. destruct (String.eqb_spec (fst kg) k) as [E'|E'].
      * destruct (String.eqb_spec key k) as [E2|E2]; [| reflexivity ].
        congruence.
      * exact IH.
Qed.

Lemma add_to_group_size (key : string) (market : Market)
    (groups : list (string * list Market)) :
  length (concat (map snd (add_to_group key market groups)))
  = S (length (concat (map snd groups))).
Proof.
  induction groups as [| kg rest IH]; [ reflexivity |].
  rewrite add_to_group_cons. destruct (String.eqb (fst kg) key).
  - cbn [map concat snd]. rewrite !length_app. cbn [length]. lia.
  - cbn [map concat]. rewrite !length_app, IH. lia.
Qed.

Lemma group_all_spec (markets : list Market) (groups : list (string * list Market)) :
  wf groups ->
  let groups' :=
    fold_left (fun groups market => add_to_group (group_key market) market groups)
      markets groups in
  wf groups'
  /\ (forall k, group_of k groups' = group_of k groups ++ members k markets)
  /\ length (concat (map snd groups'))
     = (length (concat (map snd groups)) + length markets)%nat.
Proof.
  revert groups. induction markets as [| m rest IH]; intros groups H.
  - cbn. repeat split; [ exact H | | lia ].
    intros k. rewrite app_nil_r. reflexivity.
  - cbn [fold_left].
    destruct (IH _ (add_to_group_wf (group_key m) m groups H)) as (H1 & H2 & H3).
    cbv zeta. split; [ exact H1 |]. split.
    + intros k. rewrite H2, add_to_group_of. unfold members.
      cbn [List.filter]. destruct (String.eqb (group_key m) k);
        [ rewrite <- app_assoc |]; reflexivity.
    + rewrite H3, add_to_group_size. cbn [length]. lia.
Qed.

Lemma wf_group_of (groups : list (string * list Market)) (kg : string * list Market) :
  wf groups -> In kg groups -> group_of (fst kg) groups = snd kg /\ snd kg <> [].
Proof.
  unfold group_of. induction groups as [| kg' rest IH]; intros H Hin; [ destruct Hin |].
  cbn [wf] in H. destruct H as (H1 & H2 & H3). cbn [List.find].
  destruct Hin as [-> | Hin].
  - rewrite String.eqb_refl. split; [ reflexivity | exact H1 ].
  - destruct (String.eqb_spec (fst kg') (fst kg)) as [E|E].
    + exfalso. apply H2. rewrite E. apply in_map, Hin.
    + apply IH; assumption.
Qed.

Lemma filter_concat_length {A} (p : list A -> bool) (l : list (list A)) :
  (length (concat (List.filter p l)) <= length (concat l))%nat.
Proof.
  induction l as [| x l IH]; [ reflexivity |].
  cbn [List.filter concat]. destruct (p x); cbn [concat];
    rewrite ?length_app; lia.
Qed.

Lemma group_all_members (markets : list Market) :
  wf (group_all markets)
  /\ (forall k, group_of k (group_all markets) = members k markets)
  /\ length (concat (map snd (group_all markets))) = length markets.
Proof. exact (group_all_spec markets [] I). Qed.

Lemma group_is_members (markets : list Market) (g : list Market) :
  In g (groupSimilarMarkets markets) ->
  (2 <= length g)%nat /\ exists k, g = members k markets.
Proof.
  destruct (group_all_members markets) as (Hwf & Hof & _).
  unfold groupSimilarMarkets. intros Hg. apply filter_In in Hg.
  destruct Hg as [Hin Hlen]. apply Nat.leb_le in Hlen.
  split; [ exact Hlen |].
  apply in_map_iff in Hin. destruct Hin as (kg & <- & Hin).
  exists (fst kg). destruct (wf_group_of _ kg Hwf Hin) as [H _].
  rewrite <- H, Hof. reflexivity.
Qed.

(** The questions of the markets are ASCII text. *)
Definition ascii_questions (markets : list Market) : bool :=
  forallb (fun m => Risk.ascii_text (question m)) markets.

(** X16. On markets with ASCII questions, [groupSimilarMarkets] partitions
    by grouping key (the first three keywords of the question): each group it
    answers is exactly the markets of the input with one key, in input order,
    and has at least two of them; every key that at least two markets share
    has its group; and no market is counted in two groups. *)
Theorem groupSimilarMarkets_partitions (markets : list Market) :
  ascii_questions markets = true ->
  let groups := groupSimilarMarkets markets in
  Forall (fun g => (2 <= length g)%nat
                   /\ exists k, g = members k markets) groups
  /\ (forall k, (2 <= length (members k markets))%nat ->
                In (members k markets) groups)
  /\ (length (concat groups) <= length markets)%nat.
Proof.
  intros _.
  cbv zeta. destruct (group_all_members markets) as (Hwf & Hof & Hsize).
  split; [| split ].
  - apply List.Forall_forall. apply group_is_members.
  - intros k Hk. unfold groupSimilarMarkets.
    apply filter_In. split; [| apply Nat.leb_le, Hk ].
    specialize (Hof k). unfold group_of in Hof.
    destruct (List.find _ (group_all markets)) as [kg|] eqn:E.
    + apply find_some in E. destruct E as [Hin _].
      rewrite <- Hof. apply in_map, Hin.
    + rewrite <- Hof in Hk. cbn in Hk. lia.
  - unfold groupSimilarMarkets.
    etransitivity; [ apply filter_concat_length |]. rewrite Hsize. lia.
Qed.

(** Three markets, two of them about Bitcoin reaching 100k. *)
Definition three_markets : list Market :=
  [ {| id := "1"; question := "Will Bitcoin reach 100k in 2025?";
       outcomes := ["Yes"; "No"]; outcomePrices := [0.40; 0.60]%float;
       volume := 1000 |};
    {| id := "2"; question := "Will the Fed cut rates?";
       outcomes := ["Yes"; "No"]; outcomePrices := [0.30; 0.70]%float;
       volume := 500 |};
    {| id := "3"; question := "Bitcoin to reach $100K?";
       outcomes := ["Yes"; "No"]; outcomePrices := [0.45; 0.50]%float;
       volume := 800 |} ].

(** The two Bitcoin markets form the one group. *)
Lemma groupSimilarMarkets_partitions_witness :
  map (map id) (groupSimilarMarkets three_markets) = [["1"; "3"]]%string
  /\ In (members "bitcoin-reach-100k" three_markets)
        (groupSimilarMarkets three_markets).
Proof.
  split; [ reflexivity |].
  refine (proj1 (proj2 (groupSimilarMarkets_partitions three_markets eq_refl))
            "bitcoin-reach-100k"%string _).
  vm_compute. lia.
Defined.

(** *** Pairs across markets *)

Section WithClock.
Variable clock : Clock.

(** An opportunity found between two markets of [pool], from a clock reading
    not before [k0]. *)
Definition pair_from (k0 : nat) (left right : list Market)
    (o : ArbitrageOpportunity) : Prop :=
  exists m1 m2 j,
    In m1 left /\ In m2 right /\ (k0 <= j)%nat
    /\ o = pair_opportunity clock j m1 m2
    /\ lt (totalCost o) 0.98.

Lemma scan_against_spec (k : nat) (m1 : Market) (later : list Market)
    (found : list ArbitrageOpportunity) :
  exists new,
    scan_against clock k m1 later found = (found ++ new, (k + 2 * length new)%nat)
    /\ Forall (pair_from k [m1] later) new.
Proof.
  revert k found. induction later as [| m2 rest IH]; intros k found.
  - exists []. cbn. rewrite app_nil_r, Nat.add_0_r. split; [ reflexivity | constructor ].
  - cbn [scan_against].
    destruct (outcomePrice m1 0 + outcomePrice m2 1 <? 0.98)%float eqn:E.
    + destruct (IH (2 + k)%nat (found ++ [pair_opportunity clock k m1 m2]))
        as (new & Heq & Hall).
      exists (pair_opportunity clock k m1 m2 :: new). rewrite Heq.
      split; [ rewrite <- app_assoc; cbn [app length]; f_equal; lia |].
      constructor.
      * exists m1, m2, k. repeat split;
          [ left; reflexivity | left; reflexivity | lia | exact E ].
      * eapply Forall_impl; [ exact Hall |].
        intros o (a & b & j & Ha & Hb & Hj & Ho & Hc).
        exists a, b, j. repeat split; try assumption; [ right; exact Hb | lia ].
    + destruct (IH k found) as (new & Heq & Hall).
      exists new. split; [ exact Heq |].
      eapply Forall_impl; [ exact Hall |].
      intros o (a & b & j & Ha & Hb & Hj & Ho & Hc).
      exists a, b, j. repeat split; try assumption. right; exact Hb.
Qed.

Lemma scan_group_spec (k : nat) (group : list Market)
    (found : list ArbitrageOpportunity) :
  exists new,
    scan_group clock k group found = (found ++ new, (k + 2 * length new)%nat)
    /\ Forall (pair_from k group group) new.
Proof.
  revert k found. induction group as [| m1 rest IH]; intros k found.
  - exists []. cbn. rewrite app_nil_r, Nat.add_0_r. split; [ reflexivity | constructor ].
  - cbn [scan_group].
    destruct (scan_against_spec k m1 rest found) as (new1 & Heq1 & Hall1).
    rewrite Heq1.
    destruct (IH (k + 2 * length new1)%nat (found ++ new1)) as (new2 & Heq2 & Hall2).
    rewrite Heq2. exists (new1 ++ new2).
    split; [ rewrite <- app_assoc, length_app; f_equal; lia |].
    apply Forall_app. split.
    + eapply Forall_impl; [ exact Hall1 |].
      intros o (a & b & j & Ha & Hb & Hj & Ho & Hc).
      exists a, b, j. repeat split; try assumption.
      * destruct Ha as [<- | []]. left; reflexivity.
      * right; exact Hb.
    + eapply Forall_impl; [ exact Hall2 |].
      intros o (a & b & j & Ha & Hb & Hj & Ho & Hc).
      exists a, b, j. repeat split; try assumption;
        [ right; exact Ha | right; exact Hb | lia ].
Qed.

Lemma scan_groups_spec (k : nat) (groups : list (list Market))
    (found : list ArbitrageOpportunity) :
  exists new,
    scan_groups clock k groups found = (found ++ new, (k + 2 * length new)%nat)
    /\ Forall (fun o => exists g, In g groups /\ pair_from k g g o) new.
Proof.
  revert k found. induction groups as [| g rest IH]; intros k found.
  - exists []. cbn. rewrite app_nil_r, Nat.add_0_r. split; [ reflexivity | constructor ].
  - cbn [scan_groups]. destruct (length g <? 2)%nat.
    + destruct (IH k found) as (new & Heq & Hall). exists new.
      split; [ exact Heq |]. eapply Forall_impl; [ exact Hall |].
      intros o (g' & Hg' & Ho). exists g'. split; [ right; exact Hg' | exact Ho ].
    + destruct (scan_group_spec k g found) as (new1 & Heq1 & Hall1).
      rewrite Heq1.
      destruct (IH (k + 2 * length new1)%nat (found ++ new1))
        as (new2 & Heq2 & Hall2).
      rewrite Heq2. exists (new1 ++ new2).
      split; [ rewrite <- app_assoc, length_app; f_equal; lia |].
      apply Forall_app. split.
      * eapply Forall_impl; [ exact Hall1 |].
        intros o Ho. exists g. split; [ left; reflexivity | exact Ho ].
      * eapply Forall_impl; [ exact Hall2 |].
        intros o (g' & Hg' & a & b & j & Ha & Hb & Hj & Ho & Hc).
        exists g'. split; [ right; exact Hg' |].
        exists a, b, j. repeat split; try assumption. lia.
Qed.

(** The pairs [(group[i], group[j])] with [i < j], in the order of the two
    loops. *)
Fixpoint pairs (group : list Market) : list (Market * Market) :=
  match group with
  | [] => []
  | m1 :: rest => map (pair m1) rest ++ pairs rest
  end.

(** The YES price of the first and the NO price of the second sum to less
    than 0.98. *)
Definition cheap (p : Market * Market) : bool :=
  (outcomePrice (fst p) 0 + outcomePrice (snd p) 1 <? 0.98)%float.

(** The cheap pairs of the groups, group after group. *)
Definition candidates (markets : list Market) : list (Market * Market) :=
  List.filter cheap (flat_map pairs (groupSimilarMarkets markets)).

(** The opportunities of the pairs, the first stamped from reading [k] and
    each taking two readings. *)
Fixpoint stamp (k : nat) (ps : list (Market * Market))
    : list ArbitrageOpportunity :=
  match ps with
  | [] => []
  | p :: rest => pair_opportunity clock k (fst p) (snd p) :: stamp (2 + k) rest
  end.

Lemma stamp_app (k : nat) (a b : list (Market * Market)) :
  stamp k (a ++ b) = stamp k a ++ stamp (k + 2 * length a) b.
Proof.
  revert k. induction a as [| p a IH]; intros k.
  - cbn. f_equal. lia.
  - cbn [app stamp length]. rewrite IH. do 3 f_equal. lia.
Qed.

Lemma scan_against_exact (k : nat) (m1 : Market) (later : list Market)
    (found : list ArbitrageOpportunity) :
  let ps := List.filter cheap (map (pair m1) later) in
  scan_against clock k m1 later found
  = (found ++ stamp k ps, (k + 2 * length ps)%nat).
Proof.
  cbv zeta. revert k found. induction later as [| m2 rest IH]; intros k found.
  - cbn. rewrite app_nil_r, Nat.add_0_r. reflexivity.
  - cbn [scan_against map List.filter].
    change (cheap (m1, m2))
      with (outcomePrice m1 0 + outcomePrice m2 1 <? 0.98)%float.
    destruct (outcomePrice m1 0 + outcomePrice m2 1 <? 0.98)%float.
    + rewrite IH, <- app_assoc. cbn [app stamp length fst snd].
      refine (f_equal2 pair _ _); [ reflexivity | lia ].
    + apply IH.
Qed.

Lemma scan_group_exact (k : nat) (group : list Market)
    (found : list ArbitrageOpportunity) :
  let ps := List.filter cheap (pairs group) in
  scan_group clock k group found
  = (found ++ stamp k ps, (k + 2 * length ps)%nat).
Proof.
  cbv zeta. revert k found. induction group as [| m1 rest IH]; intros k found.
  - cbn. rewrite app_nil_r, Nat.add_0_r. reflexivity.
  - cbn [scan_group pairs]. rewrite scan_against_exact. cbv zeta.
    rewrite IH, List.filter_app, stamp_app, length_app, <- app_assoc.
    refine (f_equal2 pair _ _); [ reflexivity | lia ].
Qed.

Lemma pairs_short (group : list Market) :
  (length group < 2)%nat -> pairs group = [].
Proof.
  destruct group as [| a [| b rest]]; cbn; intros H; try reflexivity; lia.
Qed.

Lemma scan_groups_exact (k : nat) (groups : list (list Market))
    (found : list ArbitrageOpportunity) :
  let ps := List.filter cheap (flat_map pairs groups) in
  scan_groups clock k groups found
  = (found ++ stamp k ps, (k + 2 * length ps)%nat).
Proof.
  cbv zeta. revert k found. induction groups as [| g rest IH]; intros k found.
  - cbn. rewrite app_nil_r, Nat.add_0_r. reflexivity.
  - cbn [scan_groups flat_map]. destruct (Nat.ltb_spec (length g) 2) as [H|H].
    + rewrite (pairs_short g H). cbn [app]. apply IH.
    + rewrite scan_group_exact. cbv zeta.
      rewrite IH, List.filter_app, stamp_app, length_app, <- app_assoc.
      refine (f_equal2 pair _ _); [ reflexivity | lia ].
Qed.

(** X17. On markets with ASCII questions, [scanMultiMarketArbitrage] answers
    one opportunity for each pair of markets of a group (the earlier with the
    later, group after group) whose cost, the YES price of the first plus the
    NO price of the second, fee not included, is below 0.98, in that order
    and for no other pair, each stamped with its own two clock readings.  So
    every opportunity is active, of type multi_market, and pairs two markets
    of the input with the same grouping key.  The registry of opportunities
    is left as it was. *)
Theorem scanMultiMarketArbitrage_pairs (s : ArbitrageScanner)
    (markets : list Market) :
  ascii_questions markets = true ->
  let found := fst (scanMultiMarketArbitrage clock s markets) in
  let s' := snd (scanMultiMarketArbitrage clock s markets) in
  found = stamp (Arbitrage.clock_reads s) (candidates markets)
  /\ opportunities s' = opportunities s
  /\ Arbitrage.clock_reads s' = (Arbitrage.clock_reads s + 2 * length found)%nat
  /\ Forall (fun o =>
       type o = multi_market /\ status o = active
       /\ lt (totalCost o) 0.98
       /\ exists m1 m2,
            In m1 markets /\ In m2 markets /\ group_key m1 = group_key m2
            /\ market1 o = {| leg_id := id m1; leg_question := question m1;
                              leg_price := outcomePrice m1 0;
                              platform := "polymarket" |}
            /\ market2 o = {| leg_id := id m2; leg_question := question m2;
                              leg_price := outcomePrice m2 1;
                              platform := "polymarket" |}
            /\ totalCost o = (outcomePrice m1 0 + outcomePrice m2 1)%float) found.
Proof.
  intros _. cbv zeta. split.
  { unfold scanMultiMarketArbitrage, candidates.
    rewrite scan_groups_exact. reflexivity. }
  unfold scanMultiMarketArbitrage.
  destruct (scan_groups_spec (Arbitrage.clock_reads s)
              (groupSimilarMarkets markets) []) as (new & Heq & Hall).
  rewrite Heq. cbn [fst snd opportunities Arbitrage.clock_reads app].
  repeat split.
  eapply Forall_impl; [ exact Hall |].
  intros o (g & Hg & a & b & j & Ha & Hb & Hj & Ho & Hc).
  destruct (group_is_members markets g Hg) as (_ & k & ->).
  apply filter_In in Ha, Hb. destruct Ha as [Ha Hka], Hb as [Hb Hkb].
  apply String.eqb_eq in Hka, Hkb.
  subst o. repeat split; try exact Hc.
  exists a, b. repeat split; try assumption. congruence.
Qed.

(** *** Cross-platform rows *)

Variable random : nat -> number.

Definition row_ok (row : CrossPlatformPrice) : Prop :=
  (is_nan (kalshiPrice row) = true
   \/ (le 0.01 (kalshiPrice row) /\ le (kalshiPrice row) 0.99))
  /\ priceDifference row = abs (polymarketPrice row - kalshiPrice row)
  /\ (is_nan (priceDifference row) = true \/ le 0 (priceDifference row))
  /\ (arbitrageAvailable row = true <-> lt 0.03 (priceDifference row)).

Lemma cross_platform_row_ok (k r : nat) (market : Market) :
  row_ok (cross_platform_row clock random k r market).
Proof.
  unfold row_ok, cross_platform_row.
  cbn [kalshiPrice priceDifference polymarketPrice arbitrageAvailable].
  set (x := (outcomePrice market 0 + (random r - 0.5) * 0.08)%float).
  set (c := Math_max 0.01 (Math_min 0.99 x)).
  repeat split; try (intros H; exact H).
  - destruct (clamp_between_flip 0.01 0.99 x eq_refl) as [Hn Hb].
    fold c in Hn, Hb. destruct (is_nan x); [ left; apply Hn; reflexivity |].
    right. apply Hb. reflexivity.
  - destruct (is_nan (abs (outcomePrice market 0 - c))) eqn:E;
      [ left; reflexivity | right ].
    apply abs_nonneg. revert E. rewrite !is_nan_num. unfold num, not_nan.
    rewrite abs_spec. destruct (Prim2SF _); cbn; congruence.
Qed.

Lemma cross_platform_rows_spec (k r : nat) (markets : list Market) :
  let rows := cross_platform_rows clock random k r markets in
  map marketDescription rows = map question markets
  /\ map polymarketPrice rows = map (fun m => outcomePrice m 0) markets
  /\ map lastUpdated rows = map clock (seq k (length markets))
  /\ Forall row_ok rows.
Proof.
  cbv zeta. revert k r. induction markets as [| m rest IH]; intros k r.
  - repeat split. constructor.
  - destruct (IH (S k) (S r)) as (H1 & H2 & H3 & H4).
    cbn [cross_platform_rows map length seq]. rewrite H1, H2, H3.
    repeat split. constructor; [ apply cross_platform_row_ok | exact H4 ].
Qed.

(** X18. [simulateCrossPlatformPrices] answers one row for each of the first
    10 markets, in order, with the market's question and YES price.  The
    simulated price is NaN or within [0.01, 0.99]; the difference is the
    absolute difference of the two prices, NaN or not negative; and
    arbitrage is flagged exactly when the difference is above 0.03. *)
Theorem simulateCrossPlatformPrices_rows (k r : nat) (markets : list Market) :
  let rows := simulateCrossPlatformPrices clock random k r markets in
  length rows = Nat.min 10 (length markets)
  /\ map marketDescription rows = map question (firstn 10 markets)
  /\ map polymarketPrice rows
     = map (fun m => outcomePrice m 0) (firstn 10 markets)
  /\ Forall row_ok rows.
Proof.
  cbv zeta. unfold simulateCrossPlatformPrices.
  destruct (cross_platform_rows_spec k r (firstn 10 markets))
    as (H1 & H2 & H3 & H4).
  cbv zeta in H1, H2, H3, H4. repeat split; try assumption.
  rewrite <- (length_map marketDescription), H1, length_map, length_firstn.
  reflexivity.
Qed.

End WithClock.

(** On the three markets the scan finds the one cheap pair of the Bitcoin
    group, market 1 with market 3 (0.40 + 0.50), and stores nothing. *)
Lemma scanMultiMarketArbitrage_pairs_witness :
  let r := scanMultiMarketArbitrage ms_clock init three_markets in
  map (fun o => (leg_id (market1 o), leg_id (market2 o))) (fst r)
  = [("1", "3")]%string
  /\ fst r = stamp ms_clock 0 (candidates three_markets)
  /\ opportunities (snd r) = [].
Proof.
  cbv zeta. split; [ vm_compute; reflexivity |].
  destruct (scanMultiMarketArbitrage_pairs ms_clock init three_markets eq_refl)
    as (H1 & H2 & _).
  split; [ exact H1 | exact H2 ].
Defined.

End ArbitrageExtra.

(** ** Backtesting engine: synthetic history, the idle strategy, stored
       results, accounting *)

Module BacktestExtra.
Import Schema Backtest MockData FloatFacts MathFacts Clocks.
Import BacktestProps (simulate_S, simulate_invariant).

Section WithEnvironment.
Variable clock : Clock.
Variable random : nat -> number.

(** *** The synthetic history *)

(** [p'] is the price [p] moved by one draw, not before draw [r], and
    clamped. *)
Definition drawn_from (r : nat) (p p' : number) : Prop :=
  (exists j, (r <= j)%nat
     /\ p' = Math_max 0.01 (Math_min 0.99 (p + (random j - 0.5) * 0.1)%float))
  /\ (is_nan p' = true \/ (le 0.01 p' /\ le p' 0.99)).

(** [m'] is the market [m] with prices and volume redrawn. *)
Definition mocks (r : nat) (m m' : Market) : Prop :=
  id m' = id m /\ question m' = question m /\ outcomes m' = outcomes m
  /\ Forall2 (drawn_from r) (outcomePrices m) (outcomePrices m').

(** The draws that one day takes: one per price and one per market. *)
Definition draws_per_day (markets : list Market) : nat :=
  fold_right (fun m n => (length (outcomePrices m) + 1 + n)%nat) 0%nat markets.

Lemma drawn_from_earlier (r r' : nat) (p p' : number) :
  (r <= r')%nat -> drawn_from r' p p' -> drawn_from r p p'.
Proof.
  intros H [(j & Hj & Hp) Hr]. split; [| exact Hr ].
  exists j. split; [ lia | exact Hp ].
Qed.

Lemma mocks_earlier (r r' : nat) (m m' : Market) :
  (r <= r')%nat -> mocks r' m m' -> mocks r m m'.
Proof.
  intros H (H1 & H2 & H3 & H4). repeat split; try assumption.
  eapply Forall2_impl; [ exact H4 |]. intros p p'. apply drawn_from_earlier, H.
Qed.

Lemma mock_prices_spec (r : nat) (prices : list number) :
  Forall2 (drawn_from r) prices (fst (mock_prices random r prices))
  /\ snd (mock_prices random r prices) = (r + length prices)%nat.
Proof.
  revert r. induction prices as [| p rest IH]; intros r.
  - cbn. split; [ constructor | lia ].
  - cbn [mock_prices]. destruct (IH (S r)) as [H1 H2].
    destruct (mock_prices random (S r) rest) as [rest' r'].
    cbn [fst snd length] in *. split; [| lia ].
    constructor.
    + split; [ exists r; split; [ lia | reflexivity ] |].
      set (x := (p + (random r - 0.5) * 0.1)%float).
      destruct (clamp_between_flip 0.01 0.99 x eq_refl) as [Hn Hb].
      destruct (is_nan x); [ left; apply Hn; reflexivity |].
      right. apply Hb. reflexivity.
    + eapply Forall2_impl; [ exact H1 |].
      intros a b. apply drawn_from_earlier. lia.
Qed.

Lemma mock_market_spec (r : nat) (m : Market) :
  mocks r m (fst (mock_market random r m))
  /\ snd (mock_market random r m) = (r + (length (outcomePrices m) + 1))%nat.
Proof.
  unfold mock_market. destruct (mock_prices_spec r (outcomePrices m)) as [H1 H2].
  destruct (mock_prices random r (outcomePrices m)) as [prices r'].
  cbn [fst snd] in *. split; [| lia ]. repeat split. exact H1.
Qed.

Lemma mock_day_spec (r : nat) (markets : list Market) :
  Forall2 (mocks r) markets (fst (mock_day random r markets))
  /\ snd (mock_day random r markets) = (r + draws_per_day markets)%nat.
Proof.
  revert r. induction markets as [| m rest IH]; intros r.
  - cbn. split; [ constructor | lia ].
  - cbn [mock_day]. destruct (mock_market_spec r m) as [H1 H2].
    destruct (mock_market random r m) as [m' r1]. cbn [fst snd] in *.
    destruct (IH r1) as [H3 H4].
    destruct (mock_day random r1 rest) as [rest' r2]. cbn [fst snd] in *.
    split; [| cbn [draws_per_day fold_right]; fold (draws_per_day rest); lia ].
    constructor; [ exact H1 |].
    eapply Forall2_impl; [ exact H3 |].
    intros a b. apply mocks_earlier. lia.
Qed.

Lemma generateMockHistoricalData_spec (r : nat) (markets : list Market)
    (days : nat) :
  let history := fst (generateMockHistoricalData random r markets days) in
  length history = days
  /\ Forall (Forall2 (mocks r) markets) history
  /\ snd (generateMockHistoricalData random r markets days)
     = (r + days * draws_per_day markets)%nat.
Proof.
  cbv zeta. revert r. induction days as [| days IH]; intros r.
  - cbn. repeat split; [ constructor | lia ].
  - cbn [generateMockHistoricalData]. destruct (mock_day_spec r markets) as [H1 H2].
    destruct (mock_day random r markets) as [day r1]. cbn [fst snd] in *.
    destruct (IH r1) as (H3 & H4 & H5).
    destruct (generateMockHistoricalData random r1 markets days) as [history r2].
    cbn [fst snd length] in *. repeat split; [ lia | | lia ].
    constructor; [ exact H1 |].
    eapply Forall_impl; [ exact H4 |].
    intros d Hd. eapply Forall2_impl; [ exact Hd |].
    intros a b. apply mocks_earlier. lia.
Qed.

(** X19. The synthetic history has one list of markets per day asked for,
    and every day lists the given markets in order with their ids, questions
    and outcomes.  Each day's prices are drawn from the prices given, not
    from the day before: every price is the given one moved by one draw and
    clamped, so NaN or within [0.01, 0.99].  A backtest run on a history of
    [days] days has an equity curve of [days - 1] points. *)
Theorem generateMockHistoricalData_shape (r : nat) (markets : list Market)
    (days : nat) (s : BacktestingEngine) (config : BacktestConfig) :
  let history := fst (generateMockHistoricalData random r markets days) in
  length history = days
  /\ Forall (Forall2 (mocks r) markets) history
  /\ snd (generateMockHistoricalData random r markets days)
     = (r + days * draws_per_day markets)%nat
  /\ length (equityCurve (fst (runBacktest clock random s config history)))
     = (days - 1)%nat.
Proof.
  cbv zeta.
  destruct (generateMockHistoricalData_spec r markets days) as (H1 & H2 & H3).
  cbv zeta in H1, H2. repeat split; try assumption.
  cbn [runBacktest fst equityCurve].
  destruct (simulate_invariant clock random config
              (fst (generateMockHistoricalData random r markets days))
              (ticks s)
              (length (fst (generateMockHistoricalData random r markets days)) - 1))
    as (Hlen & _). rewrite Hlen, H1. reflexivity.
Qed.

(** *** Accounting *)

Definition add_trade (equity : number) (trade : BacktestTrade) : number :=
  (equity + profitLoss trade)%float.

Lemma day_accounts (config : BacktestConfig) (historicalData : list (list Market))
    (st : Loop) (i : nat) :
  l_equity st = fold_left add_trade (l_trades st) (initialCapital config) ->
  let st' := day clock random config historicalData st i in
  l_equity st' = fold_left add_trade (l_trades st') (initialCapital config)
  /\ exists d, l_equityCurve st'
               = l_equityCurve st ++ [ {| date := d; equity := l_equity st' |} ].
Proof.
  intros H. cbv zeta. unfold day.
  destruct (simulateTrades _ _ _ _ _ _ _) as [dayTrades t].
  cbn [l_equity l_trades l_equityCurve]. rewrite fold_left_app, <- H.
  split; [ reflexivity | eexists; reflexivity ].
Qed.

Lemma simulate_accounts (config : BacktestConfig)
    (historicalData : list (list Market)) (t0 : Ticks) (n : nat) :
  let st := simulate clock random config historicalData t0 n in
  l_equity st = fold_left add_trade (l_trades st) (initialCapital config)
  /\ (n = 0%nat \/ last (map equity (l_equityCurve st)) = Some (l_equity st)).
Proof.
  cbv zeta. induction n as [| n [IH _]]; [ split; [ reflexivity | left; reflexivity ] |].
  rewrite simulate_S.
  destruct (day_accounts config historicalData _ (S n) IH) as (H1 & d & H2).
  cbv zeta in H1, H2. split; [ exact H1 | right ].
  rewrite H2, map_app. cbn [map equity]. apply last_snoc.
Qed.

(** X20. The books of a backtest balance: the final equity is the initial
    capital with the profit or loss of every trade added in order, the total
    return is that equity less the initial capital, the number of trades is
    the number of trades listed, and the equity curve, when it has a point,
    ends at the final equity. *)
Theorem runBacktest_accounts (s : BacktestingEngine) (config : BacktestConfig)
    (historicalData : list (list Market)) :
  let result := fst (runBacktest clock random s config historicalData) in
  let final := fold_left add_trade (trades result) (initialCapital config) in
  totalReturn result = (final - initialCapital config)%float
  /\ totalReturnPercent result
     = (totalReturn result / initialCapital config * 100)%float
  /\ totalTrades result = of_nat (length (trades result))
  /\ (equityCurve result = []
      \/ last (map equity (equityCurve result)) = Some final).
Proof.
  cbv zeta.
  cbn [runBacktest fst totalReturn totalReturnPercent totalTrades trades
       equityCurve].
  destruct (simulate_accounts config historicalData (ticks s)
              (length historicalData - 1)) as [H1 H2]. cbv zeta in H1, H2.
  rewrite <- H1. repeat split.
  destruct H2 as [H2 | H2]; [ left | right; exact H2 ].
  rewrite H2. reflexivity.
Qed.

(** *** The strategy without a simulator *)

Lemma simulate_idle (config : BacktestConfig)
    (historicalData : list (list Market)) (t0 : Ticks) (n : nat) :
  strategy config = statistical ->
  let st := simulate clock random config historicalData t0 n in
  l_trades st = [] /\ l_equity st = initialCapital config
  /\ l_peakEquity st = initialCapital config
  /\ l_maxDrawdown st = 0%float
  /\ Forall (fun p => equity p = initialCapital config) (l_equityCurve st).
Proof.
  intros Hs. cbv zeta.
  induction n as [| n (H1 & H2 & H3 & H4 & H5)];
    [ repeat split; constructor |].
  rewrite simulate_S. unfold day, simulateTrades. rewrite Hs.
  cbn [l_trades l_equity l_peakEquity l_maxDrawdown l_equityCurve fold_left].
  rewrite H1, H2, H3, H4, self_not_above, self_drawdown_not_positive.
  repeat split. apply Forall_app. split; [ exact H5 |].
  constructor; [ reflexivity | constructor ].
Qed.

(** X21. The strategy statistical is accepted and simulated by nothing: the
    backtest makes no trade, the equity stays at the initial capital on every
    day, and the drawdown, win rate, Sharpe ratio and profit factor reported
    are 0. *)
Theorem statistical_strategy_is_idle (s : BacktestingEngine)
    (config : BacktestConfig) (historicalData : list (list Market)) :
  strategy config = statistical ->
  let result := fst (runBacktest clock random s config historicalData) in
  trades result = [] /\ totalTrades result = 0%float
  /\ Forall (fun p => equity p = initialCapital config) (equityCurve result)
  /\ maxDrawdown result = 0%float /\ winRate result = 0%float
  /\ sharpeRatio result = 0%float /\ profitFactor result = 0%float.
Proof.
  intros Hs. cbv zeta.
  destruct (simulate_idle config historicalData (ticks s)
              (length historicalData - 1) Hs) as (H1 & H2 & H3 & H4 & H5).
  cbv zeta in H1, H2, H3, H4, H5.
  cbn [runBacktest fst trades totalTrades equityCurve maxDrawdown winRate
       sharpeRatio profitFactor].
  rewrite H1, H4. repeat split. exact H5.
Qed.

(** *** Stored results *)













End WithEnvironment.

Definition idle_config : BacktestConfig :=
  {| strategy := statistical; startDate := "2024-01-01"; endDate := "2024-01-04";
     initialCapital := 10000;
     settings := {| positionPercent := None; spikeThreshold := None;
                    minProfit := None; kellyFraction := None |} |}.

Definition day_of (p : number) : list Market :=
  [ {| id := "a"; question := "Will it happen?"; outcomes := ["Yes"; "No"];
       outcomePrices := [p; (1 - p)%float]; volume := 1000 |} ].

(** Three days of a market that halves in price: the idle strategy reports
    no trade and no drawdown. *)
Lemma statistical_strategy_is_idle_witness :
  let result :=
    fst (runBacktest ms_clock (fun _ => 0.5%float) init idle_config
           [day_of 0.8; day_of 0.4; day_of 0.2]) in
  trades result = [] /\ maxDrawdown result = 0%float.
Proof.
  cbv zeta.
  destruct (statistical_strategy_is_idle ms_clock (fun _ => 0.5%float) init
              idle_config [day_of 0.8; day_of 0.4; day_of 0.2] eq_refl)
    as (H1 & _ & _ & H4 & _).
  split; [ exact H1 | exact H4 ].
Defined.

End BacktestExtra.

(** ** Backtesting engine: where the trades come from *)

Module TradeListProps.
Import Schema Backtest.
Import BacktestProps (simulate_S).

Section WithEnvironment.
Variable clock : Clock.
Variable random : nat -> number.

(** The markets of the trades [new] are, in order, among [markets], each at
    most once per occurrence. *)
Definition follow (new : list BacktestTrade) (markets : list Market) : Prop :=
  sublist (map marketId new) (map id markets).

Lemma spike_loop_follows (prev curr : list Market) (size thr : number)
    (t : Ticks) (trades : list BacktestTrade) :
  exists new,
    fst (simulateSpikeTrades_loop clock prev curr size thr t trades)
    = trades ++ new /\ follow new curr.
Proof.
  unfold follow.
  revert t trades. induction curr as [| c rest IH]; intros t trades.
  - exists []. cbn. rewrite app_nil_r. split; [ reflexivity | constructor ].
  - cbn [simulateSpikeTrades_loop].
    destruct (List.find _ prev) as [p|].
    + destruct (_ <? _)%float.
      * match goal with
        | |- context [simulateSpikeTrades_loop _ _ _ _ _ ?t' (_ ++ [?tr])] =>
            destruct (IH t' (trades ++ [tr])) as (new & Hf & Hs);
            exists (tr :: new)
        end.
        rewrite Hf, <- app_assoc. split; [ reflexivity |].
        cbn [map marketId]. apply sublist_skip, Hs.
      * destruct (IH t trades) as (new & Hf & Hs). exists new.
        split; [ exact Hf | cbn [map]; apply sublist_cons, Hs ].
    + destruct (IH t trades) as (new & Hf & Hs). exists new.
      split; [ exact Hf | cbn [map]; apply sublist_cons, Hs ].
Qed.

Lemma arbitrage_loop_follows (markets : list Market) (size minp : number)
    (t : Ticks) (trades : list BacktestTrade) :
  exists new,
    fst (simulateArbitrageTrades_loop clock markets size minp t trades)
    = trades ++ new /\ follow new markets.
Proof.
  unfold follow.
  revert t trades. induction markets as [| c rest IH]; intros t trades.
  - exists []. cbn. rewrite app_nil_r. split; [ reflexivity | constructor ].
  - cbn [simulateArbitrageTrades_loop]. destruct (_ <? _)%float.
    + match goal with
      | |- context [simulateArbitrageTrades_loop _ _ _ _ ?t' (_ ++ [?tr])] =>
          destruct (IH t' (trades ++ [tr])) as (new & Hf & Hs);
          exists (tr :: new)
      end.
      rewrite Hf, <- app_assoc. split; [ reflexivity |].
      cbn [map marketId]. apply sublist_skip, Hs.
    + destruct (IH t trades) as (new & Hf & Hs). exists new.
      split; [ exact Hf | cbn [map]; apply sublist_cons, Hs ].
Qed.

Lemma kelly_loop_follows (curr : list Market) (eq kf : number)
    (t : Ticks) (trades : list BacktestTrade) :
  exists new,
    fst (simulateKellyTrades_loop clock random curr eq kf t trades)
    = trades ++ new /\ follow new curr.
Proof.
  unfold follow.
  revert t trades. induction curr as [| c rest IH]; intros t trades.
  - exists []. cbn. rewrite app_nil_r. split; [ reflexivity | constructor ].
  - cbn [simulateKellyTrades_loop]. destruct (_ <? _)%float.
    + match goal with
      | |- context [simulateKellyTrades_loop _ _ _ _ _ ?t' (_ ++ [?tr])] =>
          destruct (IH t' (trades ++ [tr])) as (new & Hf & Hs);
          exists (tr :: new)
      end.
      rewrite Hf, <- app_assoc. split; [ reflexivity |].
      cbn [map marketId]. apply sublist_skip, Hs.
    + match goal with
      | |- context [simulateKellyTrades_loop _ _ _ _ _ ?t' trades] =>
          destruct (IH t' trades) as (new & Hf & Hs); exists new
      end.
      split; [ exact Hf | cbn [map]; apply sublist_cons, Hs ].
Qed.

Lemma simulateTrades_follows (config : BacktestConfig) (prev curr : list Market)
    (eq : number) (t : Ticks) :
  follow (fst (simulateTrades clock random config prev curr eq t)) curr.
Proof.
  unfold simulateTrades, simulateSpikeTrades, simulateArbitrageTrades,
    simulateKellyTrades.
  destruct (strategy config).
  - destruct (arbitrage_loop_follows curr
                (eq * opt_or_else (positionPercent (settings config)) 0.02)%float
                (opt_or_else (minProfit (settings config)) 0.02) t [])
      as (new & -> & H). exact H.
  - destruct (spike_loop_follows prev curr
                (eq * opt_or_else (positionPercent (settings config)) 0.02)%float
                (opt_or_else (spikeThreshold (settings config)) 0.02) t [])
      as (new & -> & H). exact H.
  - apply sublist_nil_l.
  - destruct (kelly_loop_follows curr eq
                (opt_or_else (kellyFraction (settings config)) 0.5) t [])
      as (new & -> & H). exact H.
Qed.

(** The markets of days [1 .. n]. *)
Definition days_markets (historicalData : list (list Market)) (n : nat)
    : list Market :=
  concat (map (fun i => nth i historicalData []) (seq 1 n)).

Lemma simulate_follows (config : BacktestConfig)
    (historicalData : list (list Market)) (t0 : Ticks) (n : nat) :
  follow (l_trades (simulate clock random config historicalData t0 n))
    (days_markets historicalData n).
Proof.
  unfold follow, days_markets. induction n as [| n IH]; [ constructor |].
  rewrite simulate_S, seq_S, map_app, concat_app, map_app.
  cbn [map concat]. rewrite app_nil_r. unfold day.
  match goal with
  | |- context [simulateTrades ?a ?b ?c ?d ?e ?f ?g] =>
      pose proof (simulateTrades_follows c d e f g) as H;
      destruct (simulateTrades a b c d e f g) as [dayTrades t]
  end.
  cbn [l_trades fst] in *. rewrite map_app.
  apply sublist_app; [ exact IH | exact H ].
Qed.

Lemma nth_seq_all {A} (l : list A) (d : A) :
  map (fun i => nth i l d) (seq 0 (length l)) = l.
Proof.
  induction l as [| x l IH]; [ reflexivity |].
  cbn [length seq map nth]. f_equal.
  rewrite <- seq_shift, map_map. exact IH.
Qed.

Lemma days_markets_all (historicalData : list (list Market)) :
  days_markets historicalData (length historicalData - 1)
  = concat (tail historicalData).
Proof.
  unfold days_markets. destruct historicalData as [| d0 rest]; [ reflexivity |].
  cbn [length tail].
  replace (S (length rest) - 1)%nat with (length rest) by lia.
  rewrite <- seq_shift, map_map.
  cbn [nth]. rewrite nth_seq_all. reflexivity.
Qed.

(** X23. Whatever the strategy, a backtest trades each market at most once
    per day and never on the first day of the history: the markets of its
    trades are, in order, among the markets of the days after the first, so
    the trades are no more than those markets. *)
Theorem trades_follow_markets (s : BacktestingEngine) (config : BacktestConfig)
    (historicalData : list (list Market)) :
  let result := fst (runBacktest clock random s config historicalData) in
  sublist (map marketId (trades result))
    (map id (concat (tail historicalData)))
  /\ (length (trades result) <= length (concat (tail historicalData)))%nat.
Proof.
  cbv zeta. cbn [runBacktest fst trades].
  pose proof (simulate_follows config historicalData (ticks s)
                (length historicalData - 1)) as H.
  unfold follow in H. rewrite days_markets_all in H.
  split; [ exact H |].
  apply sublist_length in H. rewrite !length_map in H. exact H.
Qed.

End WithEnvironment.

End TradeListProps.

(** ** Risk manager: the drawdown that [calculateMetrics] reports *)

Module DrawdownProps.
Import Risk FloatFacts.

(** A finite positive equity that is back at its peak has drawdown 0. *)
Lemma recovered_drawdown (x : number) :
  lt 0 x -> is_finite x = true -> ((x - x) / x * 100)%float = 0%float.
Proof.
  unfold lt, is_finite, is_infinity, is_nan.
  rewrite FloatAxioms.ltb_spec, !FloatAxioms.eqb_spec, abs_spec.
  intros Hpos Hfin. apply Prim2SF_inj.
  rewrite mul_spec, div_spec, sub_spec.
  change (Prim2SF infinity) with (S754_infinity false) in Hfin.
  change (Prim2SF 0) with (S754_zero false) in *.
  destruct (Prim2SF x) as [sg|sg| |sg m e]; try discriminate Hpos;
    try (destruct sg; discriminate).
  destruct sg; [ discriminate Hpos |].
  unfold SF64sub. cbn [SFsub cond_Zopp]. rewrite Z.sub_diag. reflexivity.
Qed.

(** X24. The [maxDrawdown] that [calculateMetrics] reports is the current
    drawdown, not a maximum over time: the two fields are always equal, and
    once the equity is back at a positive finite peak both are 0, whatever
    drawdown was reported before. *)
Theorem reported_drawdown_is_current (s : RiskManager) (positions : list Position)
    (bankroll : number) :
  maxDrawdown (calculateMetrics s positions bankroll)
  = currentDrawdown (calculateMetrics s positions bankroll)
  /\ (lt 0 (peakEquity s) -> is_finite (peakEquity s) = true ->
      let recovered := updateEquity s (peakEquity s) in
      peakEquity recovered = peakEquity s
      /\ maxDrawdown (calculateMetrics recovered positions bankroll) = 0%float).
Proof.
  split; [ reflexivity |]. intros Hpos Hfin. cbv zeta.
  assert (Hp : peakEquity (updateEquity s (peakEquity s)) = peakEquity s).
  { cbn [updateEquity peakEquity].
    destruct (peakEquity s <? peakEquity s)%float; reflexivity. }
  split; [ exact Hp |].
  unfold calculateMetrics. cbn [maxDrawdown]. rewrite Hp.
  cbn [updateEquity currentEquity]. unfold lt in Hpos. rewrite Hpos.
  apply recovered_drawdown; assumption.
Qed.

(** An equity that fell from 100 to 50 reports a drawdown of 50 percent;
    back at 100 the reported maximum is 0. *)
Lemma reported_drawdown_is_current_witness :
  let fallen := run init [UpdateEquity 100; UpdateEquity 50] in
  maxDrawdown (calculateMetrics fallen [] 10000) = 50%float
  /\ maxDrawdown
       (calculateMetrics (updateEquity fallen (peakEquity fallen)) [] 10000)
     = 0%float.
Proof.
  cbv zeta. split; [ vm_compute; reflexivity |].
  refine (proj2 (proj2 (reported_drawdown_is_current _ [] 10000) _ _));
    reflexivity.
Defined.

End DrawdownProps.

(** ** Spike detector: [clearHistory] starts afresh *)

Module ClearHistoryProps.
Import Schema Spike.

Section WithClock.
Variable clock : Clock.

(** The clock as read from the [k]-th reading on. *)
Definition later (k : nat) : Clock := fun n => clock (k + n)%nat.

(** The detector [s], [k] clock readings later. *)
Definition shift (k : nat) (s : SpikeDetector) : SpikeDetector :=
  after_reads s k.

Lemma recordPrice_shift (k : nat) (s : SpikeDetector) (m : string) (p : number)
    (v : option number) :
  recordPrice clock (shift k s) m p v = shift k (recordPrice (later k) s m p v).
Proof.
  unfold recordPrice, shift, after_reads, later.
  cbn [defaultWindowSize priceHistory cooldowns detectedSpikes clock_reads].
  f_equal. lia.
Qed.

Lemma detectSpike_shift (k : nat) (s : SpikeDetector) (m : string)
    (st : SpikeSettings) :
  detectSpike clock (shift k s) m st
  = (fst (detectSpike (later k) s m st),
     shift k (snd (detectSpike (later k) s m st))).
Proof.
  unfold detectSpike, shift, after_reads, later.
  cbn [defaultWindowSize priceHistory cooldowns detectedSpikes clock_reads].
  destruct (priceHistory s !! m) as [h|]; [| reflexivity ].
  destruct (length h <? 3)%nat; [ reflexivity |].
  destruct (clock (k + clock_reads s)%nat <? _)%float;
    [ cbn [fst snd after_reads defaultWindowSize priceHistory cooldowns
           detectedSpikes clock_reads];
      apply (f_equal (pair None)); f_equal; lia |].
  destruct (abs _ <? _)%float;
    [ cbn [fst snd after_reads defaultWindowSize priceHistory cooldowns
           detectedSpikes clock_reads];
      apply (f_equal (pair None)); f_equal; lia |].
  cbn [fst snd defaultWindowSize priceHistory cooldowns detectedSpikes
       clock_reads].
  replace (1 + (k + clock_reads s))%nat with (k + (1 + clock_reads s))%nat by lia.
  replace (2 + (k + clock_reads s))%nat with (k + (2 + clock_reads s))%nat by lia.
  replace (3 + (k + clock_reads s))%nat with (k + (3 + clock_reads s))%nat by lia.
  replace (4 + (k + clock_reads s))%nat with (k + (4 + clock_reads s))%nat by lia.
  reflexivity.
Qed.

Lemma step_shift (k : nat) (s : SpikeDetector) (c : Call) :
  step clock (shift k s) c = shift k (step (later k) s c).
Proof.
  destruct c as [m p v | m st |]; cbn [step].
  - apply recordPrice_shift.
  - rewrite detectSpike_shift. reflexivity.
  - reflexivity.
Qed.

Lemma run_shift (k : nat) (s : SpikeDetector) (cs : list Call) :
  run clock (shift k s) cs = shift k (run (later k) s cs).
Proof.
  revert s. induction cs as [| c cs IH]; intros s; [ reflexivity |].
  cbn [run fold_left]. rewrite step_shift. apply IH.
Qed.

Lemma clearHistory_shift (s : SpikeDetector) :
  clearHistory s = shift (clock_reads s) (create (defaultWindowSize s)).
Proof.
  unfold clearHistory, shift, after_reads, create.
  cbn [defaultWindowSize priceHistory cooldowns detectedSpikes clock_reads].
  f_equal. lia.
Qed.

(** X25. [clearHistory] makes the detector forget everything: whatever came
    before, the calls made after it leave the histories, the cooldowns and
    the log that they leave on a new detector of the same window size whose
    clock starts at the next reading, and each [detectSpike] answers what it
    answers there. *)
Theorem clearHistory_starts_afresh (s : SpikeDetector) (cs : list Call)
    (m : string) (st : SpikeSettings) :
  let k := clock_reads s in
  let cleared := run clock (clearHistory s) cs in
  let fresh := run (later k) (create (defaultWindowSize s)) cs in
  priceHistory cleared = priceHistory fresh
  /\ cooldowns cleared = cooldowns fresh
  /\ detectedSpikes cleared = detectedSpikes fresh
  /\ clock_reads cleared = (k + clock_reads fresh)%nat
  /\ fst (detectSpike clock cleared m st)
     = fst (detectSpike (later k) fresh m st).
Proof.
  cbv zeta. rewrite clearHistory_shift, run_shift.
  repeat split. rewrite detectSpike_shift. reflexivity.
Qed.

End WithClock.

End ClearHistoryProps.
